(** * Hearth Writer: the model resource orchestrator and its inference worker

    A shallow embedding of [core/license_validator.py],
    [core/resource_manager.py] and [core/inference_process.py], and the
    properties of the orchestrator's slot table, lock set and worker protocol.

    Conventions of the embedding.
    - A Python [dict] whose iteration order is observed (the slot table, the
      lock set) is an association list in insertion order.
    - [time.time()] is a rational number of seconds, handed to each operation
      by its caller; nothing is assumed about successive readings.
    - The license environment (the value of HEARTH_LICENSE_KEY, or the absence
      of the validator module) is handed to each operation that consults it,
      since the key is read again on every [get_tier()] call.
    - An exception is its message, [str(e)]. *)

From Stdlib Require Import List String Ascii Bool ZArith QArith Lia Lqa Permutation.
Import ListNotations.

Local Open Scope string_scope.
Local Open Scope Z_scope.

(** ** Small library: dictionaries in insertion order, rational comparison *)

Section Dict.
Context {V : Type}.

(** [k in d] *)
Fixpoint dict_mem (k : string) (d : list (string * V)) : bool :=
  match d with
  | [] => false
  | (k', _) :: d' => if String.eqb k k' then true else dict_mem k d'
  end.

(** [d.get(k)] *)
Fixpoint dict_get (k : string) (d : list (string * V)) : option V :=
  match d with
  | [] => None
  | (k', v) :: d' => if String.eqb k k' then Some v else dict_get k d'
  end.

(** In-place mutation of the object stored under [k]: [f] is applied to
    [d[k]], the table keeps its order. *)
Fixpoint dict_modify (k : string) (f : V -> V) (d : list (string * V))
  : list (string * V) :=
  match d with
  | [] => []
  | (k', v) :: d' =>
      if String.eqb k k' then (k', f v) :: d'
      else (k', v) :: dict_modify k f d'
  end.

(** [d[k] = v] for a key that may be new: a new key goes last. *)
Definition dict_set (k : string) (v : V) (d : list (string * V))
  : list (string * V) :=
  if dict_mem k d then dict_modify k (fun _ => v) d else app d [(k, v)].

(** [del d[k]] *)
Fixpoint dict_del (k : string) (d : list (string * V)) : list (string * V) :=
  match d with
  | [] => []
  | (k', v) :: d' =>
      if String.eqb k k' then d' else (k', v) :: dict_del k d'
  end.

Definition dict_keys (d : list (string * V)) : list string := map fst d.
Definition dict_values (d : list (string * V)) : list V := map snd d.
End Dict.

(** [l.append(x)] *)
Definition list_append {A} (l : list A) (x : A) : list A := app l [x].

(** [x < y] on rationals, as a boolean. *)
Definition Qltb (x y : Q) : bool := negb (Qle_bool y x).

(** ** core/license_validator.py *)

Module LicenseValidator.

Inductive LicenseTier := RONIN | ARCHITECT | SHOWRUNNER.

Definition tier_eqb (a b : LicenseTier) : bool :=
  match a, b with
  | RONIN, RONIN | ARCHITECT, ARCHITECT | SHOWRUNNER, SHOWRUNNER => true
  | _, _ => false
  end.

(** [tier.value] *)
Definition value (t : LicenseTier) : string :=
  match t with
  | RONIN => "ronin"
  | ARCHITECT => "architect"
  | SHOWRUNNER => "showrunner"
  end.

Definition FEATURE_TIERS : list (string * list LicenseTier) :=
  [ ("shadow_nodes", [ARCHITECT; SHOWRUNNER]);
    ("visual_tracking", [ARCHITECT; SHOWRUNNER]);
    ("multi_lora", [ARCHITECT; SHOWRUNNER]);
    ("timeline_injection", [ARCHITECT; SHOWRUNNER]);
    ("comic_mode", [ARCHITECT; SHOWRUNNER]);
    ("collaboration", [SHOWRUNNER]);
    ("team_sync", [SHOWRUNNER]);
    ("white_labeling", [SHOWRUNNER]);
    ("custom_grammars", [SHOWRUNNER]);
    ("prose_mode", [RONIN; ARCHITECT; SHOWRUNNER]);
    ("screenplay_mode", [RONIN; ARCHITECT; SHOWRUNNER]);
    ("voice_engine", [RONIN; ARCHITECT; SHOWRUNNER]);
    ("pure_mode", [RONIN; ARCHITECT; SHOWRUNNER]) ].

Definition KEY_PREFIXES : list (string * LicenseTier) :=
  [ ("HRTH_ARCHITECT_", ARCHITECT); ("HRTH_SHOWRUNNER_", SHOWRUNNER) ].

(** [_validate_key_format]: the first prefix of [KEY_PREFIXES] that the key
    starts with decides the tier. *)
Definition _validate_key_format (key : string) : bool * LicenseTier :=
  if String.eqb key "" then (false, RONIN)
  else
    match find (fun pt => String.prefix (fst pt) key) KEY_PREFIXES with
    | Some (_, tier) => (true, tier)
    | None => (false, RONIN)
    end.

(** [get_tier]: the tier of the key currently in the environment.  The
    source keeps the last answer in a cache indexed by a digest of the key
    and validates again whenever the digest differs; the cache is taken to
    be transparent here. *)
Definition get_tier (key : string) : LicenseTier :=
  snd (_validate_key_format key).

Definition get_tier_name (key : string) : string := value (get_tier key).

Definition tier_in (t : LicenseTier) (ts : list LicenseTier) : bool :=
  existsb (tier_eqb t) ts.

(** [can_access]: a feature missing from the map, or mapped to no tier, is
    allowed. *)
Definition can_access (key : string) (feature_name : string) : bool :=
  let current_tier := get_tier key in
  let allowed_tiers :=
    match dict_get feature_name FEATURE_TIERS with
    | Some ts => ts
    | None => []
    end in
  match allowed_tiers with
  | [] => true
  | _ => tier_in current_tier allowed_tiers
  end.

Definition is_pro (key : string) : bool :=
  tier_in (get_tier key) [ARCHITECT; SHOWRUNNER].

Definition is_enterprise (key : string) : bool :=
  tier_eqb (get_tier key) SHOWRUNNER.

(** The order of the tiers, free tier lowest. *)
Definition tier_rank (t : LicenseTier) : nat :=
  match t with
  | RONIN => 0
  | ARCHITECT => 1
  | SHOWRUNNER => 2
  end.

Record FeatureAccess := {
  allowed : bool;
  tier_required : string;
  message : string
}.

Definition DENIAL_MESSAGES : list (string * string) :=
  [
    ("shadow_nodes",
     "⚠️ FEATURE LOCKED: Shadow Nodes & Timeline Injection require the 'Architect' License.");
    ("visual_tracking",
     "⚠️ FEATURE LOCKED: Visual Tagging requires the 'Architect' License.");
    ("multi_lora",
     "⚠️ FEATURE LOCKED: Multi-LORA Mixing requires the 'Architect' License.");
    ("timeline_injection",
     "⚠️ FEATURE LOCKED: Timeline Injection requires the 'Architect' License.");
    ("comic_mode",
     "⚠️ FEATURE LOCKED: Comic/Marvel Mode requires the 'Architect' License.");
    ("collaboration",
     "⚠️ FEATURE LOCKED: Team Sync requires the 'Showrunner' License.");
    ("team_sync",
     "⚠️ FEATURE LOCKED: Team Sync requires the 'Showrunner' License.");
    ("white_labeling",
     "⚠️ FEATURE LOCKED: White Labeling requires the 'Showrunner' License.");
    ("custom_grammars",
     "⚠️ FEATURE LOCKED: Custom Grammar Files require the 'Showrunner' License.") ].

(** [check_access] *)
Definition check_access (key : string) (feature_name : string)
  : FeatureAccess :=
  let current_tier := get_tier key in
  let allowed_tiers :=
    match dict_get feature_name FEATURE_TIERS with
    | Some ts => ts
    | None => []
    end in
  if match allowed_tiers with [] => true | _ => false end
     || tier_in current_tier allowed_tiers
  then {| allowed := true; tier_required := value current_tier;
          message := "Access Granted" |}
  else
    let tier_required :=
      if tier_in ARCHITECT allowed_tiers then "architect" else "showrunner" in
    {| allowed := false; tier_required := tier_required;
       message :=
         match dict_get feature_name DENIAL_MESSAGES with
         | Some m => m
         | None => "⚠️ FEATURE LOCKED: " ++ feature_name ++ " requires upgrade."
         end |}.

(** [get_unlocked_features] *)
Definition get_unlocked_features (key : string) : list string :=
  let current_tier := get_tier key in
  map fst (filter (fun ft => tier_in current_tier (snd ft)) FEATURE_TIERS).

(** [get_locked_features] *)
Definition get_locked_features (key : string) : list string :=
  let current_tier := get_tier key in
  map fst
    (filter (fun ft => negb (tier_in current_tier (snd ft))) FEATURE_TIERS).

(** The module-level [check_feature_access]. *)
Definition check_feature_access (key : string) (feature_name : string)
  : bool * string :=
  let access := check_access key feature_name in
  (allowed access, message access).

(** *** The tier cache of [get_tier]

    The validator object keeps the tier it resolved last and a digest of the
    key it resolved it from.  [digest] stands for
    [hashlib.sha256(key.encode()).hexdigest()[:16]]. *)
Record Validator := {
  _cached_tier : option LicenseTier;
  _key_hash : option string
}.

(** [LicenseValidator.__init__] *)
Definition new_validator : Validator :=
  {| _cached_tier := None; _key_hash := None |}.

Section Cache.
Variable digest : string -> string.

(** [get_tier] with its cache; [key] is what [_get_key] reads from the
    environment at this call. *)
Definition get_tier_cached (key : string) (v : Validator)
  : LicenseTier * Validator :=
  let key_hash := digest key in
  match _key_hash v, _cached_tier v with
  | Some h, Some t =>
      if String.eqb h key_hash then (t, v)
      else
        let tier := snd (_validate_key_format key) in
        (tier, {| _cached_tier := Some tier; _key_hash := Some key_hash |})
  | _, _ =>
      let tier := snd (_validate_key_format key) in
      (tier, {| _cached_tier := Some tier; _key_hash := Some key_hash |})
  end.

(** Successive [get_tier] calls, the environment holding the keys of [keys]
    in turn: the tiers returned, and the validator left. *)
Fixpoint get_tier_calls (keys : list string) (v : Validator)
  : list LicenseTier * Validator :=
  match keys with
  | [] => ([], v)
  | key :: rest =>
      let '(t, v1) := get_tier_cached key v in
      let '(ts, v2) := get_tier_calls rest v1 in
      (t :: ts, v2)
  end.

End Cache.

End LicenseValidator.

(** The license environment an orchestrator call runs in: the validator
    module with the key that HEARTH_LICENSE_KEY holds at that moment, or the
    fallback stubs that [resource_manager.py] installs when the module cannot
    be imported. *)
Inductive LicenseEnv :=
| NoValidator
| LicenseKey (key : string).

(** [can_access_feature] as [resource_manager.py] sees it. *)
Definition can_access_feature (lic : LicenseEnv) (feature : string) : bool :=
  match lic with
  | NoValidator => true
  | LicenseKey key => LicenseValidator.can_access key feature
  end.

(** [get_validator()]: the key stands for the validator object reading it. *)
Definition get_validator (lic : LicenseEnv) : option string :=
  match lic with
  | NoValidator => None
  | LicenseKey key => Some key
  end.


(** ** core/inference_process.py *)

Module InferenceProcess.

(** A task is a dict: a key that is absent, or bound to [None], reads as
    [None] through [task.get]; [use_shadow_nodes] is read for its truth value
    only. *)
Record Task := {
  type : option string;
  prompt : option string;
  prompts : option (list string);
  mode : option string;
  max_tokens : option Z;
  temperature : option Q;
  grammar_path : option string;
  model_path : option string;
  context : option string;
  shadow_nodes : option string;
  use_shadow_nodes : bool
}.

Definition empty_task : Task :=
  {| type := None; prompt := None; prompts := None; mode := None;
     max_tokens := None; temperature := None; grammar_path := None;
     model_path := None; context := None; shadow_nodes := None;
     use_shadow_nodes := false |}.

(** [{**task, 'prompt': p}] *)
Definition with_prompt (task : Task) (p : string) : Task :=
  {| type := type task; prompt := Some p; prompts := prompts task;
     mode := mode task; max_tokens := max_tokens task;
     temperature := temperature task; grammar_path := grammar_path task;
     model_path := model_path task; context := context task;
     shadow_nodes := shadow_nodes task;
     use_shadow_nodes := use_shadow_nodes task |}.

(** What a call into foreign code yields: a value, or an exception. *)
Inductive Outcome (A : Type) :=
| Ok (a : A)
| Raise (e : string).
Arguments Ok {A} a.
Arguments Raise {A} e.

(** The inference runtime and the operating system, as the worker reaches
    them.  [World] is whatever they depend on and change (files, the
    environment, sampler state); every call takes and returns it.
    - [Llama path n_ctx n_gpu_layers]: importing [llama_cpp] and constructing
      the model;
    - [LlamaGrammar_from_file]: importing and reading a grammar file;
    - [llm_call]: [self._llm(prompt, grammar=, max_tokens=, temperature=,
      stop=)] together with the reading of its usage count, which the same
      [try] block encloses. *)
Class Runtime := {
  World : Type;
  Model : Type;
  Grammar : Type;
  Output : Type;
  environ_get : World -> string -> option string;
  path_exists : World -> string -> bool;
  Llama : string -> Z -> Z -> World -> Outcome Model * World;
  LlamaGrammar_from_file : string -> World -> Outcome Grammar * World;
  llm_call : Model -> string -> option Grammar -> Z -> Q -> list string ->
             World -> Outcome Output * World
}.

Definition nl : string := String (ascii_of_nat 10) EmptyString.

Definition DEFAULT_MODEL_PATH : string := "./models/mistral-7b-quantized.gguf".

Definition GRAMMAR_FILES : list (string * string) :=
  [ ("screenplay", "./core/grammars/screenplay.gbnf");
    ("comic", "./core/grammars/comic.gbnf");
    ("playwright", "./core/grammars/playwright.gbnf");
    ("lexile_simple", "./core/grammars/lexile_simple.gbnf") ].

Definition PROSE_PROMPT : string :=
  "You are a skilled author. Write vivid, engaging prose that captures the reader's imagination.".

Definition MODE_PROMPTS : list (string * string) :=
  [ ("prose", PROSE_PROMPT);
    ("screenplay", "You are a professional screenwriter. Format all output in proper Fountain screenplay format.");
    ("comic", "You are a comic book writer. Include panel descriptions, visual cues, and dynamic dialogue.");
    ("playwright", "You are a theatrical playwright. Include stage directions, blocking notes, and dramatic dialogue.");
    ("children", "You are a children's book author. Use simple words (under 3 syllables) and engaging storytelling.");
    ("game", "You are a game narrative designer. Support branching logic with {{conditional}} markers.") ].

Definition STOP_SEQUENCES : list string :=
  [ "[USER]:"; "[SYSTEM]:"; nl ++ nl ++ nl ].

(** [x or y] and [if x:] on optional strings: [None] and the empty string are
    false. *)
Definition truthy (x : option string) : option string :=
  match x with
  | Some s => if String.eqb s "" then None else Some s
  | None => None
  end.

Definition get_default {A} (x : option A) (d : A) : A :=
  match x with Some a => a | None => d end.

(** [_build_prompt] *)
Definition _build_prompt (user_prompt mode : string)
  (context shadow_nodes : option string) : string :=
  let system_prompt :=
    get_default (dict_get mode MODE_PROMPTS) PROSE_PROMPT in
  let parts := [ "[SYSTEM]: " ++ system_prompt ] in
  let parts :=
    match truthy context with
    | Some c => list_append parts (nl ++ "[CONTEXT]:" ++ nl ++ c)
    | None => parts
    end in
  let parts :=
    match truthy shadow_nodes with
    | Some sn =>
        list_append parts (nl ++ "[SHADOW NODES - OPEN LOOPS]:" ++ nl ++ sn)
    | None => parts
    end in
  let parts := list_append parts (nl ++ "[USER]:" ++ nl ++ user_prompt) in
  let parts := list_append parts (nl ++ "[ASSISTANT]:") in
  String.concat nl parts.

Section Worker.
Context {RT : Runtime}.

(** What [_generate] returns: the runtime's output as it is, or
    [{"error": str(e), "choices": [{"text": f"Generation failed: {e}"}]}]. *)
Inductive GenResult :=
| Generated (output : Output)
| GenerationFailed (error : string) (choice_text : string).

(** [{'branch': i, 'prompt': prompt, 'output': result}] *)
Record BatchEntry := {
  branch : nat;
  branch_prompt : string;
  branch_output : GenResult
}.

(** The messages the worker puts on the result queue. *)
Inductive Result :=
| Single (r : GenResult)
| Batch (results : list BatchEntry)
| ModelReloaded (path : string)
| StatusAlive (model_loaded : bool) (current_model : option string)
| ErrorOnly (error : string).

(** The worker process: the world it runs in, its two attributes and the
    result queue it writes to. *)
Record Worker := {
  world : World;
  _llm : option Model;
  _current_model : option string;
  result_queue : list Result
}.

Definition set_world (wd : World) (w : Worker) : Worker :=
  {| world := wd; _llm := _llm w; _current_model := _current_model w;
     result_queue := result_queue w |}.

Definition set_model (llm : option Model) (path : option string) (w : Worker)
  : Worker :=
  {| world := world w; _llm := llm; _current_model := path;
     result_queue := result_queue w |}.

(** A worker method: it reads and changes the worker and either returns or
    raises. *)
Definition M (A : Type) : Type := Worker -> Outcome A * Worker.

Definition ret {A} (a : A) : M A := fun w => (Ok a, w).

Definition bind {A B} (c : M A) (k : A -> M B) : M B :=
  fun w =>
    match c w with
    | (Ok a, w') => k a w'
    | (Raise e, w') => (Raise e, w')
    end.

Local Notation "x <- c ;; k" := (bind c (fun x => k))
  (at level 61, c at next level, right associativity).

(** [self.result_queue.put(r)] *)
Definition put (r : Result) : M unit :=
  fun w =>
    (Ok tt, {| world := world w; _llm := _llm w;
               _current_model := _current_model w;
               result_queue := list_append (result_queue w) r |}).

Definition is_none {A} (x : option A) : bool :=
  match x with None => true | Some _ => false end.

Definition opt_string_eqb (x y : option string) : bool :=
  match x, y with
  | Some a, Some b => String.eqb a b
  | None, None => true
  | _, _ => false
  end.

(** [_load_model]: nothing to do when a model is loaded from this very path;
    otherwise the model is constructed, and a failure is logged and raised
    again. *)
Definition _load_model (model_path : string) : M unit :=
  fun w =>
    if is_none (_llm w)
       || negb (opt_string_eqb (_current_model w) (Some model_path))
    then
      let n_ctx := 2048 in
      let n_gpu_layers :=
        if String.eqb
             (get_default (environ_get (world w) "HEARTH_USE_GPU") "0") "1"
        then -1 else 0 in
      match Llama model_path n_ctx n_gpu_layers (world w) with
      | (Ok llm, wd) =>
          (Ok tt, set_model (Some llm) (Some model_path) (set_world wd w))
      | (Raise e, wd) => (Raise e, set_world wd w)
      end
    else (Ok tt, w).

(** [_get_grammar]: a grammar that cannot be read is logged and dropped. *)
Definition _get_grammar (mode : string) (grammar_path : option string)
  : M (option Grammar) :=
  fun w =>
    let path :=
      match truthy grammar_path with
      | Some p => Some p
      | None => dict_get mode GRAMMAR_FILES
      end in
    match truthy path with
    | Some p =>
        if path_exists (world w) p then
          match LlamaGrammar_from_file p (world w) with
          | (Ok g, wd) => (Ok (Some g), set_world wd w)
          | (Raise _, wd) => (Ok None, set_world wd w)
          end
        else (Ok None, w)
    | None => (Ok None, w)
    end.

(** The [try] block of [_generate]: the call of the loaded model, with every
    exception turned into an error result.  Calling [self._llm] while it is
    [None] raises a [TypeError] inside the same block. *)
Definition try_llm (full_prompt : string) (grammar : option Grammar)
  (max_tokens : Z) (temperature : Q) : M GenResult :=
  fun w =>
    match _llm w with
    | Some llm =>
        match llm_call llm full_prompt grammar max_tokens temperature
                STOP_SEQUENCES (world w) with
        | (Ok output, wd) => (Ok (Generated output), set_world wd w)
        | (Raise e, wd) =>
            (Ok (GenerationFailed e ("Generation failed: " ++ e)),
             set_world wd w)
        end
    | None =>
        let e := "'NoneType' object is not callable" in
        (Ok (GenerationFailed e ("Generation failed: " ++ e)), w)
    end.

(** [_generate] *)
Definition _generate (task : Task) : M GenResult :=
  let model_path := get_default (model_path task) DEFAULT_MODEL_PATH in
  _ <- _load_model model_path ;;
  let user_prompt := get_default (prompt task) "" in
  let mode := get_default (mode task) "prose" in
  let max_tokens := get_default (max_tokens task) 256 in
  let temperature := get_default (temperature task) (7 # 10)%Q in
  let full_prompt :=
    _build_prompt user_prompt mode (context task)
      (if use_shadow_nodes task then shadow_nodes task else None) in
  grammar <- _get_grammar mode (grammar_path task) ;;
  try_llm full_prompt grammar max_tokens temperature.

(** The loop of [_handle_batch_generate]: [i] is the index [enumerate] has
    reached, [results] the list built so far. *)
Fixpoint batch_loop (task : Task) (i : nat) (prompts : list string)
  (results : list BatchEntry) : M (list BatchEntry) :=
  match prompts with
  | [] => ret results
  | p :: rest =>
      let sub_task := with_prompt task p in
      result <- _generate sub_task ;;
      batch_loop task (S i) rest
        (list_append results
           {| branch := i; branch_prompt := p; branch_output := result |})
  end.

(** [_handle_batch_generate] *)
Definition _handle_batch_generate (task : Task) : M Result :=
  let prompts := get_default (prompts task) [] in
  results <- batch_loop task 0 prompts [] ;;
  ret (Batch results).

(** How the [while True] loop of [run] is left without an exception: blocked
    in [task_queue.get()] once the queue is drained, or through [break]. *)
Inductive LoopExit := AwaitingTask | PoisonPill.

(** The loop of [run] over the items that arrive on the task queue. *)
Fixpoint loop (task_queue : list (option Task)) : M LoopExit :=
  match task_queue with
  | [] => ret AwaitingTask
  | None :: rest => loop rest
  | Some task :: rest =>
      let task_type := get_default (type task) "generate" in
      if String.eqb task_type "generate" then
        output <- _generate task ;;
        _ <- put (Single output) ;;
        loop rest
      else if String.eqb task_type "batch_generate" then
        output <- _handle_batch_generate task ;;
        _ <- put output ;;
        loop rest
      else if String.eqb task_type "reload_model" then
        _ <- (fun w => (Ok tt, set_model None None w)) ;;
        let model_path := get_default (model_path task) DEFAULT_MODEL_PATH in
        _ <- _load_model model_path ;;
        _ <- put (ModelReloaded model_path) ;;
        loop rest
      else if String.eqb task_type "status" then
        status <- (fun w => (Ok (StatusAlive (negb (is_none (_llm w)))
                                             (_current_model w)), w)) ;;
        _ <- put status ;;
        loop rest
      else if String.eqb task_type "poison_pill" then
        ret PoisonPill
      else
        _ <- put (ErrorOnly ("Unknown task type: " ++ task_type)) ;;
        loop rest
  end.

(** Whether [run] is still inside its loop or has returned. *)
Inductive RunState := Running | Terminated.

(** [run]: an exception that leaves the loop is put on the result queue as
    [{"error": str(e)}]; the [finally] clause drops the model whenever the
    loop is left. *)
Definition run (task_queue : list (option Task)) (w : Worker)
  : RunState * Worker :=
  match loop task_queue w with
  | (Ok AwaitingTask, w') => (Running, w')
  | (Ok PoisonPill, w') =>
      (Terminated, set_model None (_current_model w') w')
  | (Raise e, w') =>
      let w'' := snd (put (ErrorOnly e) w') in
      (Terminated, set_model None (_current_model w'') w'')
  end.

(** *** Predicates on worker states *)

(** A model from [model_path] is loaded. *)
Definition loaded (model_path : string) (w : Worker) : Prop :=
  _llm w <> None /\ _current_model w = Some model_path.

(** The test at the head of [_load_model]: no model is loaded, or the loaded
    one comes from another path. *)
Definition needs_load (model_path : string) (w : Worker) : bool :=
  is_none (_llm w)
  || negb (opt_string_eqb (_current_model w) (Some model_path)).

(** The number of GPU layers [_load_model] reads off the environment. *)
Definition gpu_layers (w : Worker) : Z :=
  if String.eqb (get_default (environ_get (world w) "HEARTH_USE_GPU") "0") "1"
  then -1 else 0.

(** [model_ready path w llm w1]: in [w] the model [llm] is at hand for
    [path], either loaded already ([w1] is [w]) or constructed by the
    runtime now ([w1] is [w] with the model, its path and the world the
    runtime left). *)
Inductive model_ready (path : string) (w : Worker) (llm : Model)
  : Worker -> Prop :=
| ready_loaded :
    needs_load path w = false -> _llm w = Some llm ->
    model_ready path w llm w
| ready_by_load (wd : World) :
    needs_load path w = true ->
    Llama path 2048 (gpu_layers w) (world w) = (Ok llm, wd) ->
    model_ready path w llm
      (set_model (Some llm) (Some path) (set_world wd w)).

(** The error result of [_generate] for the exception [e]. *)
Definition error_result (e : string) : GenResult :=
  GenerationFailed e ("Generation failed: " ++ e).

(** What [_generate] returns for what the inference call did. *)
Definition result_of (res : Outcome Output) : GenResult :=
  match res with
  | Ok output => Generated output
  | Raise e => error_result e
  end.

(** The path [_get_grammar] settles on. *)
Definition grammar_file (task : Task) : option string :=
  truthy match truthy (grammar_path task) with
         | Some p => Some p
         | None => dict_get (get_default (mode task) "prose") GRAMMAR_FILES
         end.

(** The prompt sent to the model for the user prompt [p] of [task]. *)
Definition task_prompt (task : Task) (p : string) : string :=
  _build_prompt p (get_default (mode task) "prose") (context task)
    (if use_shadow_nodes task then shadow_nodes task else None).

(** [branch_runs task llm w i prompts entries w']: starting in [w], the
    inference call of [llm] is made once for each prompt in turn, on the
    prompt built from it and with the grammar of the task; [entries] records
    for each prompt, numbered from [i], the output of its own call, or the
    error result of the exception its own call raised; [w'] is the worker
    after the last call. *)
Inductive branch_runs (task : Task) (llm : Model)
  : Worker -> nat -> list string -> list BatchEntry -> Worker -> Prop :=
| branch_runs_nil (w : Worker) (i : nat) : branch_runs task llm w i [] [] w
| branch_runs_cons (w wg w2 : Worker) (i : nat) (p : string)
    (ps : list string) (g : option Grammar) (res : Outcome Output)
    (wd : World) (es : list BatchEntry) :
    _get_grammar (get_default (mode task) "prose") (grammar_path task) w
    = (Ok g, wg) ->
    llm_call llm (task_prompt task p) g (get_default (max_tokens task) 256)
      (get_default (temperature task) (7 # 10)%Q) STOP_SEQUENCES (world wg)
    = (res, wd) ->
    branch_runs task llm (set_world wd wg) (S i) ps es w2 ->
    branch_runs task llm w i (p :: ps)
      ({| branch := i; branch_prompt := p; branch_output := result_of res |}
       :: es) w2.

End Worker.

(** *** A runtime for the examples

    No state; the model file [./models/missing.gguf] cannot be loaded, no
    grammar file exists, and inference fails on every prompt that contains
    the word boom. *)
Definition demo_runtime : Runtime :=
  {| World := unit;
     Model := string;
     Grammar := string;
     Output := string;
     environ_get := fun _ _ => None;
     path_exists := fun _ _ => false;
     Llama := fun path _ _ wd =>
       if String.eqb path "./models/missing.gguf"
       then (Raise "Model path does not exist", wd)
       else (Ok path, wd);
     LlamaGrammar_from_file := fun path wd => (Ok path, wd);
     llm_call := fun _ full_prompt _ _ _ _ wd =>
       match index 0 "boom" full_prompt with
       | Some _ => (Raise "llama_decode returned 1", wd)
       | None => (Ok "Once upon a time", wd)
       end |}.

(** A worker that has just started. *)
Definition fresh_worker : @Worker demo_runtime :=
  @Build_Worker demo_runtime tt None None [].

(** *** A runtime whose grammar files cannot be read

    Every file exists, the model loads and inference succeeds, but reading a
    grammar file raises. *)
Definition broken_grammar_runtime : Runtime :=
  {| World := unit;
     Model := string;
     Grammar := string;
     Output := string;
     environ_get := fun _ _ => None;
     path_exists := fun _ _ => true;
     Llama := fun path _ _ wd => (Ok path, wd);
     LlamaGrammar_from_file := fun path wd =>
       (Raise "error parsing grammar file", wd);
     llm_call := fun _ _ g _ _ _ wd =>
       match g with
       | Some _ => (Ok "INT. LAB - NIGHT", wd)
       | None => (Ok "Once upon a time", wd)
       end |}.

Definition screenplay_task (p : string) : Task :=
  {| type := Some "generate"; prompt := Some p; prompts := None;
     mode := Some "screenplay"; max_tokens := None; temperature := None;
     grammar_path := Some "./core/grammars/screenplay.gbnf";
     model_path := None; context := None; shadow_nodes := None;
     use_shadow_nodes := false |}.

Definition generate_task (p : string) : Task :=
  {| type := Some "generate"; prompt := Some p; prompts := None;
     mode := Some "prose"; max_tokens := None; temperature := None;
     grammar_path := None; model_path := None; context := None;
     shadow_nodes := None; use_shadow_nodes := false |}.

Definition batch_task (ps : list string) : Task :=
  {| type := Some "batch_generate"; prompt := None; prompts := Some ps;
     mode := Some "game"; max_tokens := None; temperature := None;
     grammar_path := None; model_path := None; context := None;
     shadow_nodes := None; use_shadow_nodes := false |}.

(** A batch for a model file that cannot be loaded. *)
Definition missing_model_batch (ps : list string) : Task :=
  {| type := Some "batch_generate"; prompt := None; prompts := Some ps;
     mode := Some "game"; max_tokens := None; temperature := None;
     grammar_path := None; model_path := Some "./models/missing.gguf";
     context := None; shadow_nodes := None; use_shadow_nodes := false |}.

Definition status_task : Task :=
  {| type := Some "status"; prompt := None; prompts := None;
     mode := None; max_tokens := None; temperature := None;
     grammar_path := None; model_path := None; context := None;
     shadow_nodes := None; use_shadow_nodes := false |}.

End InferenceProcess.


(** ** core/resource_manager.py *)

Module ResourceManager.

Inductive ModelState := COLD | WARM | HOT | COOLING.

Definition state_eqb (a b : ModelState) : bool :=
  match a, b with
  | COLD, COLD | WARM, WARM | HOT, HOT | COOLING, COOLING => true
  | _, _ => false
  end.

(** [state.value] *)
Definition state_value (st : ModelState) : string :=
  match st with
  | COLD => "cold"
  | WARM => "warm"
  | HOT => "hot"
  | COOLING => "cooling"
  end.

Record ModelSlot := {
  name : string;
  state : ModelState;
  last_used : Q;
  keep_warm : bool;
  memory_mb : Z
}.

Definition set_state (st : ModelState) (slot : ModelSlot) : ModelSlot :=
  {| name := name slot; state := st; last_used := last_used slot;
     keep_warm := keep_warm slot; memory_mb := memory_mb slot |}.

Definition set_last_used (t : Q) (slot : ModelSlot) : ModelSlot :=
  {| name := name slot; state := state slot; last_used := t;
     keep_warm := keep_warm slot; memory_mb := memory_mb slot |}.

Definition set_keep_warm (b : bool) (slot : ModelSlot) : ModelSlot :=
  {| name := name slot; state := state slot; last_used := last_used slot;
     keep_warm := b; memory_mb := memory_mb slot |}.

Definition IDLE_TIMEOUT_SECONDS : Q := 300%Q.

Definition MODEL_MEMORY : list (string * Z) :=
  [ ("mistral-7b-quantized", 4096);
    ("all-MiniLM-L6-v2", 256);
    ("coqui-tts", 512) ].

(** The orchestrator object.
    - [worker]: [None], or the process object with what [is_alive()] answers;
    - [task_queue]: the messages put on the task queue so far (the
      orchestrator never reads this queue back);
    - [_model_slots], [_active_locks]: the two dicts, in insertion order;
    - [MAX_CONCURRENT_MODELS]: the instance attribute [_update_limits] sets. *)
Record ResourceOrchestrator := {
  worker : option bool;
  task_queue : list InferenceProcess.Task;
  _model_slots : list (string * ModelSlot);
  _active_locks : list (string * bool);
  MAX_CONCURRENT_MODELS : Z
}.

Definition set_worker (wk : option bool) (o : ResourceOrchestrator) :=
  {| worker := wk; task_queue := task_queue o;
     _model_slots := _model_slots o; _active_locks := _active_locks o;
     MAX_CONCURRENT_MODELS := MAX_CONCURRENT_MODELS o |}.

Definition task_queue_put (t : InferenceProcess.Task)
  (o : ResourceOrchestrator) :=
  {| worker := worker o; task_queue := list_append (task_queue o) t;
     _model_slots := _model_slots o; _active_locks := _active_locks o;
     MAX_CONCURRENT_MODELS := MAX_CONCURRENT_MODELS o |}.

Definition set_slots (sl : list (string * ModelSlot))
  (o : ResourceOrchestrator) :=
  {| worker := worker o; task_queue := task_queue o;
     _model_slots := sl; _active_locks := _active_locks o;
     MAX_CONCURRENT_MODELS := MAX_CONCURRENT_MODELS o |}.

Definition set_locks (lk : list (string * bool))
  (o : ResourceOrchestrator) :=
  {| worker := worker o; task_queue := task_queue o;
     _model_slots := _model_slots o; _active_locks := lk;
     MAX_CONCURRENT_MODELS := MAX_CONCURRENT_MODELS o |}.

Definition set_limit (n : Z) (o : ResourceOrchestrator) :=
  {| worker := worker o; task_queue := task_queue o;
     _model_slots := _model_slots o; _active_locks := _active_locks o;
     MAX_CONCURRENT_MODELS := n |}.

(** [self.worker is not None and self.worker.is_alive()] *)
Definition worker_is_alive (o : ResourceOrchestrator) : bool :=
  match worker o with
  | Some alive => alive
  | None => false
  end.

(** [_update_limits] *)
Definition _update_limits (lic : LicenseEnv) (o : ResourceOrchestrator)
  : ResourceOrchestrator :=
  match get_validator lic with
  | Some validator =>
      if LicenseValidator.is_pro validator then set_limit 3 o
      else set_limit 1 o
  | None => set_limit 1 o
  end.

(** [__init__]; the class attribute [MAX_CONCURRENT_MODELS = 1] is shadowed at
    once by [_update_limits]. *)
Definition __init__ (lic : LicenseEnv) : ResourceOrchestrator :=
  _update_limits lic
    {| worker := None; task_queue := []; _model_slots := [];
       _active_locks := []; MAX_CONCURRENT_MODELS := 1 |}.

(** [_ensure_worker_alive] *)
Definition _ensure_worker_alive (o : ResourceOrchestrator)
  : ResourceOrchestrator :=
  if negb (worker_is_alive o) then set_worker (Some true) o else o.

(** [s.state != ModelState.COLD] *)
Definition not_cold (slot : ModelSlot) : bool :=
  negb (state_eqb (state slot) COLD).

(** [len([s for s in self._model_slots.values() if s.state != COLD])] *)
Definition current_models (o : ResourceOrchestrator) : Z :=
  Z.of_nat (List.length (filter not_cold (dict_values (_model_slots o)))).

(** [t < oldest_time], where [None] is [float('inf')]. *)
Definition before (t : Q) (oldest_time : option Q) : bool :=
  match oldest_time with
  | None => true
  | Some t' => Qltb t t'
  end.

(** One turn of the loop of [_unload_oldest_model].  [oldest_slot] refers to
    an object of the table; the key under which the table holds that object
    stands for the reference. *)
Definition scan_oldest (locks : list (string * bool))
  (acc : option Q * option string) (item : string * ModelSlot)
  : option Q * option string :=
  let '(oldest_time, oldest_slot) := acc in
  let '(nm, slot) := item in
  if not_cold slot && negb (dict_mem nm locks) then
    if before (last_used slot) oldest_time
    then (Some (last_used slot), Some nm)
    else acc
  else acc.

(** The slot [_unload_oldest_model] settles on, if any. *)
Definition oldest_slot (o : ResourceOrchestrator) : option string :=
  snd (fold_left (scan_oldest (_active_locks o)) (_model_slots o)
         (None, None)).

(** [_unload_oldest_model] *)
Definition _unload_oldest_model (o : ResourceOrchestrator)
  : ResourceOrchestrator :=
  match oldest_slot o with
  | Some k => set_slots (dict_modify k (set_state COLD) (_model_slots o)) o
  | None => o
  end.

(** Lines 113 to 119 of [request_model]: once the number of slots that are
    not cold has reached the limit, a caller without the multi_lora feature
    has the oldest model unloaded. *)
Definition make_room (lic : LicenseEnv) (o : ResourceOrchestrator)
  : ResourceOrchestrator :=
  if MAX_CONCURRENT_MODELS o <=? current_models o then
    if negb (can_access_feature lic "multi_lora")
    then _unload_oldest_model o
    else o
  else o.

(** [request_model].  [now] is the reading of the clock at line 132; the
    reading taken when the slot is created is overwritten there before
    anything looks at it.  The handle returned is the slot. *)
Definition request_model (lic : LicenseEnv) (now : Q) (model_name : string)
  (keep_warm : bool) (o : ResourceOrchestrator)
  : option ModelSlot * ResourceOrchestrator :=
  let o := make_room lic o in
  let o :=
    if negb (dict_mem model_name (_model_slots o)) then
      set_slots
        (dict_set model_name
           {| name := model_name; state := COLD; last_used := now;
              keep_warm := keep_warm;
              memory_mb :=
                InferenceProcess.get_default
                  (dict_get model_name MODEL_MEMORY) 1024 |}
           (_model_slots o)) o
    else o in
  let o :=
    set_slots
      (dict_modify model_name
         (fun slot =>
            set_state WARM (set_keep_warm keep_warm (set_last_used now slot)))
         (_model_slots o)) o in
  let o := set_locks (dict_set model_name true (_active_locks o)) o in
  (dict_get model_name (_model_slots o), o).

(** Lines 154 to 157 of [release_lock], on the slot found. *)
Definition released (now : Q) (slot : ModelSlot) : ModelSlot :=
  let slot := set_last_used now slot in
  if negb (keep_warm slot) then set_state COOLING slot else slot.

(** [release_lock] *)
Definition release_lock (now : Q) (model_name : string)
  (o : ResourceOrchestrator) : ResourceOrchestrator :=
  let o :=
    if dict_mem model_name (_active_locks o)
    then set_locks (dict_del model_name (_active_locks o)) o
    else o in
  if dict_mem model_name (_model_slots o) then
    set_slots (dict_modify model_name (released now) (_model_slots o)) o
  else o.

(** The body of the loop of [check_idle_models] for one item. *)
Definition check_idle (locks : list (string * bool)) (current_time : Q)
  (item : string * ModelSlot) : string * ModelSlot :=
  let '(nm, slot) := item in
  if state_eqb (state slot) WARM || state_eqb (state slot) COOLING then
    if negb (dict_mem nm locks) then
      let idle_time := (current_time - last_used slot)%Q in
      if Qltb IDLE_TIMEOUT_SECONDS idle_time && negb (keep_warm slot)
      then (nm, set_state COLD slot)
      else (nm, slot)
    else (nm, slot)
  else (nm, slot).

(** [check_idle_models] *)
Definition check_idle_models (current_time : Q) (o : ResourceOrchestrator)
  : ResourceOrchestrator :=
  set_slots (map (check_idle (_active_locks o) current_time) (_model_slots o))
    o.

(** What [generate_text] returns: the license message for comic mode, or the
    reply taken from the result queue. *)
Inductive Generation (R : Type) :=
| ComicDenied (text : string)
| Reply (r : R).
Arguments ComicDenied {R} text.
Arguments Reply {R} r.

(** [generate_text].  [reply] is what [self.result_queue.get()] returns and
    [now] the clock read by the sweep that follows. *)
Definition generate_text {R : Type} (lic : LicenseEnv) (now : Q)
  (prompt mode : string) (use_shadow_nodes : bool) (reply : R)
  (o : ResourceOrchestrator) : Generation R * ResourceOrchestrator :=
  let o := _ensure_worker_alive o in
  let build (grammar_path : option string) :=
    let task :=
      {| InferenceProcess.type := Some "generate";
         InferenceProcess.prompt := Some prompt;
         InferenceProcess.prompts := None;
         InferenceProcess.mode := Some mode;
         InferenceProcess.max_tokens := None;
         InferenceProcess.temperature := None;
         InferenceProcess.grammar_path := grammar_path;
         InferenceProcess.model_path := None;
         InferenceProcess.context := None;
         InferenceProcess.shadow_nodes := None;
         InferenceProcess.use_shadow_nodes :=
           use_shadow_nodes && can_access_feature lic "shadow_nodes" |} in
    let o := task_queue_put task o in
    let result := reply in
    let o := check_idle_models now o in
    (Reply result, o) in
  if String.eqb mode "screenplay" then
    build (Some "./core/grammars/screenplay.gbnf")
  else if String.eqb mode "comic" then
    if negb (can_access_feature lic "comic_mode") then
      (ComicDenied "⚠️ Comic mode requires Architect license.", o)
    else build (Some "./core/grammars/comic.gbnf")
  else build None.

Definition poison_pill : InferenceProcess.Task :=
  {| InferenceProcess.type := Some "poison_pill";
     InferenceProcess.prompt := None;
     InferenceProcess.prompts := None;
     InferenceProcess.mode := None;
     InferenceProcess.max_tokens := None;
     InferenceProcess.temperature := None;
     InferenceProcess.grammar_path := None;
     InferenceProcess.model_path := None;
     InferenceProcess.context := None;
     InferenceProcess.shadow_nodes := None;
     InferenceProcess.use_shadow_nodes := false |}.

(** [collapse_to_zero].  A live worker is sent the poison pill, joined for at
    most five seconds and terminated if it is still alive; whichever happens,
    the handle is dropped.  [force] is not read. *)
Definition collapse_to_zero (force : bool) (o : ResourceOrchestrator)
  : ResourceOrchestrator :=
  let o :=
    if worker_is_alive o
    then set_worker None (task_queue_put poison_pill o)
    else o in
  let o :=
    set_slots
      (map (fun item => (fst item, set_state COLD (snd item)))
         (_model_slots o)) o in
  set_locks [] o.

Record Status := {
  worker_alive : bool;
  active_models : list (string * string * Z);
  active_locks : list string;
  max_concurrent : Z;
  license_tier : string
}.

(** [get_status] *)
Definition get_status (lic : LicenseEnv) (o : ResourceOrchestrator) : Status :=
  {| worker_alive := worker_is_alive o;
     active_models :=
       map (fun s => (name s, state_value (state s), memory_mb s))
         (filter not_cold (dict_values (_model_slots o)));
     active_locks := dict_keys (_active_locks o);
     max_concurrent := MAX_CONCURRENT_MODELS o;
     license_tier :=
       match get_validator lic with
       | Some validator => LicenseValidator.get_tier_name validator
       | None => "unknown"
       end |}.

(** *** Histories of an orchestrator *)

(** A call on the orchestrator, with the license environment and the clock
    reading it runs under; [WorkerExit] is the worker process dying on its
    own. *)
Inductive Call :=
| Request (lic : LicenseEnv) (now : Q) (model_name : string)
    (keep_warm : bool)
| Release (now : Q) (model_name : string)
| SweepIdle (now : Q)
| Generate (lic : LicenseEnv) (now : Q) (prompt mode : string)
    (use_shadow_nodes : bool)
| CollapseToZero (force : bool)
| WorkerExit.

Definition exec (c : Call) (o : ResourceOrchestrator) : ResourceOrchestrator :=
  match c with
  | Request lic now model_name keep_warm =>
      snd (request_model lic now model_name keep_warm o)
  | Release now model_name => release_lock now model_name o
  | SweepIdle now => check_idle_models now o
  | Generate lic now prompt mode use_shadow_nodes =>
      snd (generate_text lic now prompt mode use_shadow_nodes tt o)
  | CollapseToZero force => collapse_to_zero force o
  | WorkerExit =>
      match worker o with
      | Some _ => set_worker (Some false) o
      | None => o
      end
  end.

(** The orchestrator after a history of calls, oldest first. *)
Definition exec_all (calls : list Call) (o : ResourceOrchestrator)
  : ResourceOrchestrator :=
  fold_left (fun o c => exec c o) calls o.

(** The states an orchestrator can be in: constructed under some license
    environment, then driven by any history. *)
Inductive reachable : ResourceOrchestrator -> Prop :=
| reachable_init (lic : LicenseEnv) : reachable (__init__ lic)
| reachable_step (c : Call) (o : ResourceOrchestrator) :
    reachable o -> reachable (exec c o).

(** The state of the slot of a model, if the table has one. *)
Definition slot_state (model_name : string) (o : ResourceOrchestrator)
  : option ModelState :=
  option_map state (dict_get model_name (_model_slots o)).

Definition locked (model_name : string) (o : ResourceOrchestrator) : bool :=
  dict_mem model_name (_active_locks o).

(** *** Predicates on orchestrator states *)

(** Both dicts hold each key once. *)
Definition well_formed (o : ResourceOrchestrator) : Prop :=
  NoDup (dict_keys (_model_slots o)) /\ NoDup (dict_keys (_active_locks o)).

(** Every locked name has a slot, and that slot is warm. *)
Definition locks_warm (o : ResourceOrchestrator) : Prop :=
  forall n, locked n o = true -> slot_state n o = Some WARM.

Definition never_hot (o : ResourceOrchestrator) : Prop :=
  forall k slot, In (k, slot) (_model_slots o) -> state slot <> HOT.

Definition limit_1_or_3 (o : ResourceOrchestrator) : Prop :=
  MAX_CONCURRENT_MODELS o = 1 \/ MAX_CONCURRENT_MODELS o = 3.

Definition invariant (o : ResourceOrchestrator) : Prop :=
  well_formed o /\ locks_warm o /\ never_hot o /\ limit_1_or_3 o.

(** The test of line 167 on an item of the slot table. *)
Definition evictable (locks : list (string * bool))
  (item : string * ModelSlot) : bool :=
  not_cold (snd item) && negb (dict_mem (fst item) locks).

(** The orchestrator with the keep-warm flag of every slot replaced by what
    [pin] says of the slot's name. *)
Definition repinned (pin : string -> bool) (o : ResourceOrchestrator)
  : ResourceOrchestrator :=
  set_slots
    (map (fun item => (fst item, set_keep_warm (pin (fst item)) (snd item)))
       (_model_slots o)) o.

(** What the loop of [_unload_oldest_model] knows after the items [seen]:
    nothing evictable so far, or an evictable item whose last use no other
    evictable item seen so far precedes. *)
Definition scan_inv (locks : list (string * bool))
  (seen : list (string * ModelSlot)) (acc : option Q * option string) : Prop :=
  match acc with
  | (None, None) => forall item, In item seen -> evictable locks item = false
  | (Some t, Some k) =>
      exists slot,
        In (k, slot) seen /\ evictable locks (k, slot) = true /\
        t = last_used slot /\
        forall item, In item seen -> evictable locks item = true ->
                     (t <= last_used (snd item))%Q
  | _ => False
  end.

End ResourceManager.


(** ** app.py: the license gate of the front end *)

Module App.

(** [get_license_tier] *)
Definition get_license_tier (key : string) : string :=
  if String.eqb key "" then "ronin"
  else if String.prefix "HRTH_SHOWRUNNER_" key then "showrunner"
  else if String.prefix "HRTH_ARCHITECT_" key then "architect"
  else "ronin".

Definition FEATURE_REQUIREMENTS : list (string * list string) :=
  [ ("shadow_nodes", ["architect"; "showrunner"]);
    ("visual_tracking", ["architect"; "showrunner"]);
    ("multi_lora", ["architect"; "showrunner"]);
    ("comic_mode", ["architect"; "showrunner"]);
    ("collaboration", ["showrunner"]);
    ("team_sync", ["showrunner"]) ].

Definition DENIAL_MESSAGES : list (string * string) :=
  [
    ("shadow_nodes",
     "⚠️ FEATURE LOCKED: Shadow Nodes & Timeline Injection require the 'Architect' License.");
    ("visual_tracking",
     "⚠️ FEATURE LOCKED: Visual Tagging requires the 'Architect' License.");
    ("multi_lora",
     "⚠️ FEATURE LOCKED: Multi-LORA Mixing requires the 'Architect' License.");
    ("comic_mode",
     "⚠️ FEATURE LOCKED: Comic/Marvel Mode requires the 'Architect' License.");
    ("collaboration",
     "⚠️ FEATURE LOCKED: Team Sync requires the 'Showrunner' License.");
    ("team_sync",
     "⚠️ FEATURE LOCKED: Team Sync requires the 'Showrunner' License.") ].

(** [x in l] on strings *)
Definition str_in (x : string) (l : list string) : bool :=
  existsb (String.eqb x) l.

(** [check_feature_access] *)
Definition check_feature_access (key : string) (feature_name : string)
  : bool * string :=
  let tier := get_license_tier key in
  let required_tiers :=
    match dict_get feature_name FEATURE_REQUIREMENTS with
    | Some ts => ts
    | None => []
    end in
  match required_tiers with
  | [] => (true, "Access Granted")
  | _ =>
      if str_in tier required_tiers then (true, "Access Granted")
      else
        (false,
         match dict_get feature_name DENIAL_MESSAGES with
         | Some m => m
         | None => "⚠️ FEATURE LOCKED: " ++ feature_name ++ " requires upgrade."
         end)
  end.

End App.

(** ** core/context_engine.py: the license gate and the use of the
    orchestrator *)

Module ContextEngine.
Import ResourceManager.

(** [get_license_tier] *)
Definition get_license_tier (key : string) : string :=
  if String.eqb key "" then "ronin"
  else if String.prefix "HRTH_ARCHITECT_" key then "architect"
  else if String.prefix "HRTH_SHOWRUNNER_" key then "showrunner"
  else "ronin".

(** [check_pro_feature] *)
Definition check_pro_feature (key : string) (feature_name : string) : bool :=
  let tier := get_license_tier key in
  if App.str_in feature_name ["shadow_nodes"; "visual_tracking"; "multi_lora"]
  then App.str_in tier ["architect"; "showrunner"]
  else if String.eqb feature_name "collaboration"
  then String.eqb tier "showrunner"
  else true.

Definition EMBEDDER : string := "all-MiniLM-L6-v2".
Definition LLM : string := "mistral-7b-quantized".

(** What [_get_embedding] does to the orchestrator: the embedder is
    requested without keep-warm and released at once.  [key] is the license
    key in the environment, [t_request] and [t_release] the two readings of
    the clock. *)
Definition _get_embedding (key : string) (t_request t_release : Q)
  (o : ResourceOrchestrator) : ResourceOrchestrator :=
  release_lock t_release EMBEDDER
    (snd (request_model (LicenseKey key) t_request EMBEDDER false o)).

(** What [retrieve_shadow_nodes] does to the orchestrator: nothing when the
    license check fails, [_get_embedding] otherwise (the search that follows
    does not reach the orchestrator). *)
Definition retrieve_shadow_nodes (key : string) (t_request t_release : Q)
  (o : ResourceOrchestrator) : ResourceOrchestrator :=
  if negb (check_pro_feature key "shadow_nodes") then o
  else _get_embedding key t_request t_release o.

(** What [generate_with_context] does to the orchestrator: the optional
    retrieval of shadow nodes, then the language model requested with
    keep-warm and released. *)
Definition generate_with_context (key : string) (include_shadows : bool)
  (t1 t2 t3 t4 : Q) (o : ResourceOrchestrator) : ResourceOrchestrator :=
  let o := if include_shadows then retrieve_shadow_nodes key t1 t2 o else o in
  release_lock t4 LLM (snd (request_model (LicenseKey key) t3 LLM true o)).

End ContextEngine.

(** ** Disciplines of use and finer facts of the scan *)

Module Discipline.
Import ResourceManager.

(** A request followed by the release of the same model. *)
Definition pulse (lic : LicenseEnv) (t_request t_release : Q)
  (model_name : string) (keep_warm : bool) (o : ResourceOrchestrator)
  : ResourceOrchestrator :=
  release_lock t_release model_name
    (snd (request_model lic t_request model_name keep_warm o)).

(** A history in which at most one lock is held at a time and every caller
    lacks the multi_lora feature: each request is followed, sweeps, generate
    calls and collapses apart, by the release of the model requested, and
    nothing is released that was not requested.  [pending] is the model
    requested and not yet released. *)
Fixpoint bracketed (pending : option string) (calls : list Call) : bool :=
  match calls with
  | [] => match pending with None => true | Some _ => false end
  | Request lic _ model_name _ :: rest =>
      match pending with
      | None =>
          negb (can_access_feature lic "multi_lora")
          && bracketed (Some model_name) rest
      | Some _ => false
      end
  | Release _ model_name :: rest =>
      match pending with
      | Some m => String.eqb m model_name && bracketed None rest
      | None => false
      end
  | _ :: rest => bracketed pending rest
  end.

(** Every slot is stored under its own name and carries the memory estimate
    of that name. *)
Definition meta_ok (d : list (string * ModelSlot)) : Prop :=
  forall k slot,
    In (k, slot) d ->
    name slot = k /\
    memory_mb slot
    = InferenceProcess.get_default (dict_get k MODEL_MEMORY) 1024.

(** No slot but that of [m] is resident. *)
Definition only_resident (m : string) (o : ResourceOrchestrator) : Prop :=
  forall n slot,
    dict_get n (_model_slots o) = Some slot -> state slot <> COLD -> n = m.

(** The state of an orchestrator with the limit 1 whose callers hold one
    lock at a time: only the pending model, if any, is locked, and at most
    one model is resident, the pending one if there is one. *)
Definition one_at_a_time (pending : option string)
  (o : ResourceOrchestrator) : Prop :=
  MAX_CONCURRENT_MODELS o = 1 /\
  (forall n, locked n o = true -> pending = Some n) /\
  exists m, only_resident m o /\ (forall m', pending = Some m' -> m' = m).

(** The two kinds of task the orchestrator puts on the task queue: the
    poison pill, and a generate task that carries a prompt, a mode, a shadow
    flag and a grammar path, and nothing else. *)
Definition sent_by_orchestrator (t : InferenceProcess.Task) : Prop :=
  t = poison_pill \/
  exists p md flag g,
    t = {| InferenceProcess.type := Some "generate";
           InferenceProcess.prompt := Some p;
           InferenceProcess.prompts := None;
           InferenceProcess.mode := Some md;
           InferenceProcess.max_tokens := None;
           InferenceProcess.temperature := None;
           InferenceProcess.grammar_path := g;
           InferenceProcess.model_path := None;
           InferenceProcess.context := None;
           InferenceProcess.shadow_nodes := None;
           InferenceProcess.use_shadow_nodes := flag |} /\
    (g = None \/ g = dict_get md InferenceProcess.GRAMMAR_FILES).

(** What the loop of [_unload_oldest_model] knows after the items [seen],
    with positions: the item it holds was used strictly before every
    evictable item that comes earlier in the table, and no later than every
    evictable item that comes after it. *)
Definition scan_first (locks : list (string * bool))
  (seen : list (string * ModelSlot)) (acc : option Q * option string) : Prop :=
  match acc with
  | (None, None) => forall item, In item seen -> evictable locks item = false
  | (Some t, Some k) =>
      exists l1 slot l2,
        seen = app l1 ((k, slot) :: l2) /\ evictable locks (k, slot) = true /\
        t = last_used slot /\
        (forall item, In item l1 -> evictable locks item = true ->
                      (t < last_used (snd item))%Q) /\
        (forall item, In item l2 -> evictable locks item = true ->
                      (t <= last_used (snd item))%Q)
  | _ => False
  end.

End Discipline.

(** ** License environments used in the examples *)

(** No key set: the free tier. *)
Definition ronin : LicenseEnv := LicenseKey "".

(** A key of the Architect tier, as the test suite sets it. *)
Definition architect : LicenseEnv := LicenseKey "HRTH_ARCHITECT_TEST_01".


(** * Properties *)

Import ResourceManager.
Local Open Scope list_scope.

(** ** Facts about dictionaries *)

Section DictFacts.
Context {V : Type}.
Implicit Types (k : string) (d : list (string * V)).

Lemma dict_mem_get k d :
  dict_mem k d = true <-> exists v, dict_get k d = Some v.
Proof.
  induction d as [|[k' v'] d IH]; simpl.
  - split; [discriminate | intros [v Hv]; discriminate].
  - destruct (String.eqb k k').
    + split; [eauto | reflexivity].
    + exact IH.
Qed.

Lemma dict_mem_false_get k d :
  dict_mem k d = false <-> dict_get k d = None.
Proof.
  induction d as [|[k' v'] d IH]; simpl.
  - tauto.
  - destruct (String.eqb k k'); [split; discriminate | exact IH].
Qed.

Lemma dict_mem_keys k d : dict_mem k d = true <-> In k (dict_keys d).
Proof.
  induction d as [|[k' v'] d IH]; simpl.
  - split; [discriminate | tauto].
  - destruct (String.eqb_spec k k') as [->|Hne].
    + tauto.
    + rewrite IH. split; [tauto | intros [E|H]; [congruence | exact H]].
Qed.

Lemma dict_get_In k v d : dict_get k d = Some v -> In (k, v) d.
Proof.
  induction d as [|[k' v'] d IH]; simpl; [discriminate|].
  destruct (String.eqb_spec k k') as [->|Hne].
  - intros [= ->]. now left.
  - intros H. right. auto.
Qed.

Lemma dict_In_get k v d :
  NoDup (dict_keys d) -> In (k, v) d -> dict_get k d = Some v.
Proof.
  induction d as [|[k' v'] d IH]; simpl; [tauto|].
  intros Hnd [E|Hin].
  - injection E as -> ->. now rewrite String.eqb_refl.
  - inversion Hnd as [|? ? Hnotin Hnd']; subst.
    destruct (String.eqb_spec k k') as [->|Hne].
    + exfalso. apply Hnotin. change k' with (fst (k', v)).
      now apply in_map.
    + auto.
Qed.

Lemma dict_keys_modify k (f : V -> V) d :
  dict_keys (dict_modify k f d) = dict_keys d.
Proof.
  induction d as [|[k' v'] d IH]; simpl; [reflexivity|].
  destruct (String.eqb k k'); simpl; [reflexivity | now rewrite IH].
Qed.

Lemma dict_get_modify k k' (f : V -> V) d :
  dict_get k' (dict_modify k f d)
  = if String.eqb k' k then option_map f (dict_get k d) else dict_get k' d.
Proof.
  induction d as [|[k0 v0] d IH]; simpl.
  - now destruct (String.eqb k' k).
  - destruct (String.eqb_spec k k0) as [->|Hne]; simpl.
    + destruct (String.eqb_spec k' k0); reflexivity.
    + destruct (String.eqb_spec k' k0) as [->|Hne'].
      * destruct (String.eqb_spec k0 k); [congruence | reflexivity].
      * exact IH.
Qed.

Lemma dict_mem_modify k k' (f : V -> V) d :
  dict_mem k' (dict_modify k f d) = dict_mem k' d.
Proof.
  induction d as [|[k0 v0] d IH]; simpl; [reflexivity|].
  destruct (String.eqb k k0); simpl; [reflexivity | now rewrite IH].
Qed.

Lemma dict_get_app_new k k' v d :
  dict_mem k d = false ->
  dict_get k' (d ++ [(k, v)])
  = if String.eqb k' k then Some v else dict_get k' d.
Proof.
  induction d as [|[k0 v0] d IH]; simpl; intros Hm.
  - reflexivity.
  - destruct (String.eqb_spec k k0) as [->|Hne]; [discriminate|].
    destruct (String.eqb_spec k' k0) as [->|Hne'].
    + destruct (String.eqb_spec k0 k); [congruence | reflexivity].
    + auto.
Qed.

Lemma dict_get_set k k' v d :
  dict_get k' (dict_set k v d)
  = if String.eqb k' k then Some v else dict_get k' d.
Proof.
  unfold dict_set. destruct (dict_mem k d) eqn:Hm.
  - rewrite dict_get_modify. destruct (String.eqb k' k); [|reflexivity].
    apply dict_mem_get in Hm as [v0 ->]. reflexivity.
  - now apply dict_get_app_new.
Qed.

Lemma dict_mem_set k k' v d :
  dict_mem k' (dict_set k v d) = String.eqb k' k || dict_mem k' d.
Proof.
  destruct (dict_mem k' (dict_set k v d)) eqn:H.
  - apply dict_mem_get in H as [v0 H]. rewrite dict_get_set in H.
    destruct (String.eqb k' k); [reflexivity|]. simpl. symmetry.
    apply dict_mem_get. eauto.
  - apply dict_mem_false_get in H. rewrite dict_get_set in H.
    destruct (String.eqb k' k); [discriminate|]. simpl. symmetry.
    now apply dict_mem_false_get.
Qed.

Lemma dict_keys_set k v d :
  dict_keys (dict_set k v d)
  = if dict_mem k d then dict_keys d else dict_keys d ++ [k].
Proof.
  unfold dict_set. destruct (dict_mem k d).
  - apply dict_keys_modify.
  - unfold dict_keys. now rewrite map_app.
Qed.

Lemma NoDup_keys_set k v d :
  NoDup (dict_keys d) -> NoDup (dict_keys (dict_set k v d)).
Proof.
  intros Hnd. rewrite dict_keys_set. destruct (dict_mem k d) eqn:Hm.
  - exact Hnd.
  - apply NoDup_app; [exact Hnd | repeat constructor; simpl; tauto |].
    intros x Hx [<-|[]].
    apply dict_mem_keys in Hx. congruence.
Qed.

Lemma dict_keys_del_incl k d x :
  In x (dict_keys (dict_del k d)) -> In x (dict_keys d).
Proof.
  induction d as [|[k0 v0] d IH]; simpl; [tauto|].
  destruct (String.eqb k k0); simpl; tauto.
Qed.

Lemma NoDup_keys_del k d :
  NoDup (dict_keys d) -> NoDup (dict_keys (dict_del k d)).
Proof.
  induction d as [|[k0 v0] d IH]; simpl; intros Hnd; [constructor|].
  inversion Hnd as [|? ? Hnotin Hnd']; subst.
  destruct (String.eqb k k0); simpl; [exact Hnd'|].
  constructor; [|auto].
  intros Hin. apply Hnotin. eapply dict_keys_del_incl. exact Hin.
Qed.

Lemma dict_mem_del k k' d :
  NoDup (dict_keys d) ->
  dict_mem k' (dict_del k d) = negb (String.eqb k' k) && dict_mem k' d.
Proof.
  induction d as [|[k0 v0] d IH]; simpl; intros Hnd.
  - now rewrite andb_false_r.
  - inversion Hnd as [|? ? Hnotin Hnd']; subst.
    destruct (String.eqb_spec k k0) as [->|Hne].
    + destruct (String.eqb_spec k' k0) as [->|Hne']; simpl; [|reflexivity].
      destruct (dict_mem k0 d) eqn:Hm; [|reflexivity].
      exfalso. apply Hnotin. now apply dict_mem_keys.
    + simpl. destruct (String.eqb_spec k' k0) as [->|Hne'].
      * destruct (String.eqb_spec k0 k); [congruence | reflexivity].
      * auto.
Qed.

End DictFacts.

(** A map over the items that keeps every key acts on [dict_get] through the
    values. *)
Lemma dict_get_map_items {V : Type} (g : string * V -> string * V)
  (k : string) (d : list (string * V)) :
  (forall item, fst (g item) = fst item) ->
  dict_get k (map g d) = option_map (fun v => snd (g (k, v))) (dict_get k d).
Proof.
  intros Hg. induction d as [|[k0 v0] d IH]; simpl; [reflexivity|].
  specialize (Hg (k0, v0)) as Hk. destruct (g (k0, v0)) as [k1 v1] eqn:E.
  simpl in Hk. subst k1.
  destruct (String.eqb_spec k k0) as [->|Hne]; simpl.
  - now rewrite E.
  - exact IH.
Qed.

Lemma dict_keys_map_items {V : Type} (g : string * V -> string * V)
  (d : list (string * V)) :
  (forall item, fst (g item) = fst item) ->
  dict_keys (map g d) = dict_keys d.
Proof.
  intros Hg. unfold dict_keys. rewrite map_map. apply map_ext. exact Hg.
Qed.

Lemma Qltb_lt (x y : Q) : Qltb x y = true <-> (x < y)%Q.
Proof.
  unfold Qltb. rewrite negb_true_iff. split.
  - intros H. apply Qnot_le_lt. intros Hle.
    apply Qle_bool_iff in Hle. congruence.
  - intros H. destruct (Qle_bool y x) eqn:E; [|reflexivity].
    apply Qle_bool_iff in E. exfalso. exact (Qlt_not_le _ _ H E).
Qed.

Lemma Qltb_ge (x y : Q) : Qltb x y = false <-> (y <= x)%Q.
Proof.
  unfold Qltb. rewrite negb_false_iff. apply Qle_bool_iff.
Qed.

(** ** The scan of [_unload_oldest_model] *)

Lemma scan_oldest_step locks seen acc item :
  scan_inv locks seen acc ->
  scan_inv locks (seen ++ [item]) (scan_oldest locks acc item).
Proof.
  destruct acc as [[t|] [k|]]; simpl; try tauto; destruct item as [nm slot];
    unfold scan_oldest.
  - intros (slot0 & Hin & Hev & Ht & Hmin).
    change (not_cold slot && negb (dict_mem nm locks))
      with (evictable locks (nm, slot)).
    destruct (evictable locks (nm, slot)) eqn:Hc; simpl.
    + destruct (Qltb (last_used slot) t) eqn:Hlt; simpl.
      * apply Qltb_lt in Hlt. exists slot. repeat split; auto.
        -- apply in_or_app. right. now left.
        -- intros item Hi Hev'. apply in_app_or in Hi as [Hi|[<-|[]]].
           ++ specialize (Hmin item Hi Hev'). lra.
           ++ simpl. lra.
      * apply Qltb_ge in Hlt. exists slot0. repeat split; auto.
        -- apply in_or_app. now left.
        -- intros item Hi Hev'. apply in_app_or in Hi as [Hi|[<-|[]]]; auto.
    + exists slot0. repeat split; auto.
      * apply in_or_app. now left.
      * intros item Hi Hev'. apply in_app_or in Hi as [Hi|[<-|[]]]; auto.
        congruence.
  - intros Hnone.
    change (not_cold slot && negb (dict_mem nm locks))
      with (evictable locks (nm, slot)).
    destruct (evictable locks (nm, slot)) eqn:Hc; simpl.
    + exists slot. repeat split; auto.
      * apply in_or_app. right. now left.
      * intros item Hi Hev'. apply in_app_or in Hi as [Hi|[<-|[]]].
        -- rewrite (Hnone item Hi) in Hev'. discriminate.
        -- simpl. lra.
    + intros item Hi. apply in_app_or in Hi as [Hi|[<-|[]]]; auto.
Qed.

Lemma scan_oldest_fold locks l : forall seen acc,
  scan_inv locks seen acc ->
  scan_inv locks (seen ++ l) (fold_left (scan_oldest locks) l acc).
Proof.
  induction l as [|item l IH]; intros seen acc H; simpl.
  - now rewrite app_nil_r.
  - replace (seen ++ item :: l) with ((seen ++ [item]) ++ l)
      by (rewrite <- app_assoc; reflexivity).
    apply IH. now apply scan_oldest_step.
Qed.

Lemma scan_oldest_all (o : ResourceOrchestrator) :
  scan_inv (_active_locks o) (_model_slots o)
    (fold_left (scan_oldest (_active_locks o)) (_model_slots o) (None, None)).
Proof.
  apply (scan_oldest_fold (_active_locks o) (_model_slots o) [] (None, None)).
  simpl. tauto.
Qed.

(** The slot chosen is in the table, not cold and unlocked, and no slot that
    is not cold and unlocked was used before it. *)
Lemma oldest_slot_some (o : ResourceOrchestrator) (k : string) :
  NoDup (dict_keys (_model_slots o)) ->
  oldest_slot o = Some k ->
  exists slot,
    dict_get k (_model_slots o) = Some slot /\
    state slot <> COLD /\ locked k o = false /\
    forall k' slot',
      dict_get k' (_model_slots o) = Some slot' ->
      state slot' <> COLD -> locked k' o = false ->
      (last_used slot <= last_used slot')%Q.
Proof.
  intros Hnd Hk. unfold oldest_slot in Hk.
  pose proof (scan_oldest_all o) as H.
  destruct (fold_left _ _ _) as [[t|] [k0|]]; simpl in *; try tauto;
    try discriminate.
  injection Hk as ->.
  destruct H as (slot & Hin & Hev & -> & Hmin).
  unfold evictable in Hev. simpl in Hev. apply andb_true_iff in Hev as [Hc Hl].
  exists slot. repeat split.
  - now apply dict_In_get.
  - unfold not_cold in Hc. destruct (state slot); simpl in Hc;
      [discriminate | discriminate | discriminate | discriminate].
  - unfold locked. now apply negb_true_iff in Hl.
  - intros k' slot' Hg Hs Hl'. apply (Hmin (k', slot')).
    + now apply dict_get_In.
    + unfold evictable, not_cold. simpl. unfold locked in Hl'. rewrite Hl'.
      destruct (state slot'); simpl; congruence.
Qed.

(** No slot is chosen only when every slot is cold or locked. *)
Lemma oldest_slot_none (o : ResourceOrchestrator) :
  oldest_slot o = None ->
  forall k slot,
    dict_get k (_model_slots o) = Some slot ->
    state slot = COLD \/ locked k o = true.
Proof.
  intros Hk k slot Hg. unfold oldest_slot in Hk.
  pose proof (scan_oldest_all o) as H.
  destruct (fold_left _ _ _) as [[t|] [k0|]]; simpl in *; try tauto;
    try discriminate.
  specialize (H (k, slot) (dict_get_In _ _ _ Hg)).
  unfold evictable, not_cold in H. simpl in H. unfold locked.
  destruct (state slot); simpl in H; auto;
    destruct (dict_mem k (_active_locks o)); auto; discriminate.
Qed.

(** ** What each operation does to the slot table and the lock set *)

Lemma In_dict_modify {V : Type} (k k0 : string) (v : V) (f : V -> V) d :
  In (k, v) (dict_modify k0 f d) ->
  In (k, v) d \/ exists v0, In (k, v0) d /\ v = f v0.
Proof.
  induction d as [|[k1 v1] d IH]; simpl; [tauto|].
  destruct (String.eqb k0 k1); simpl.
  - intros [E|H]; [|tauto]. injection E as -> <-. right. eauto.
  - intros [E|H]; [tauto|]. destruct (IH H) as [H'|(v0 & H' & ->)]; eauto.
Qed.

Lemma In_dict_set {V : Type} (k k0 : string) (v v0 : V) d :
  In (k, v) (dict_set k0 v0 d) -> In (k, v) d \/ v = v0.
Proof.
  unfold dict_set. destruct (dict_mem k0 d).
  - intros H. apply In_dict_modify in H as [H|(? & _ & ->)]; auto.
  - intros H. apply in_app_or in H as [H|[E|[]]]; [auto|].
    injection E as <- <-. auto.
Qed.

Lemma make_room_cases (lic : LicenseEnv) (o : ResourceOrchestrator) :
  make_room lic o = o \/
  (MAX_CONCURRENT_MODELS o <= current_models o /\
   can_access_feature lic "multi_lora" = false /\
   exists k, oldest_slot o = Some k /\
     make_room lic o
     = set_slots (dict_modify k (set_state COLD) (_model_slots o)) o).
Proof.
  unfold make_room, _unload_oldest_model.
  destruct (Z.leb_spec (MAX_CONCURRENT_MODELS o) (current_models o));
    [|now left].
  destruct (can_access_feature lic "multi_lora"); simpl; [now left|].
  destruct (oldest_slot o) as [k|]; [|now left].
  right. repeat split; eauto.
Qed.

Lemma make_room_frame (lic : LicenseEnv) (o : ResourceOrchestrator) :
  worker (make_room lic o) = worker o /\
  task_queue (make_room lic o) = task_queue o /\
  _active_locks (make_room lic o) = _active_locks o /\
  MAX_CONCURRENT_MODELS (make_room lic o) = MAX_CONCURRENT_MODELS o /\
  dict_keys (_model_slots (make_room lic o)) = dict_keys (_model_slots o).
Proof.
  destruct (make_room_cases lic o) as [->|(_ & _ & k & _ & ->)]; simpl;
    repeat split; auto using dict_keys_modify.
Qed.

(** The slot [make_room] turns cold, if any, is unlocked: the slot of a
    locked name is left as it is. *)
Lemma make_room_locked (lic : LicenseEnv) (o : ResourceOrchestrator) n :
  NoDup (dict_keys (_model_slots o)) ->
  locked n o = true ->
  dict_get n (_model_slots (make_room lic o)) = dict_get n (_model_slots o).
Proof.
  intros Hnd Hl.
  destruct (make_room_cases lic o) as [->|(_ & _ & k & Hk & ->)]; auto.
  simpl. rewrite dict_get_modify.
  destruct (String.eqb_spec n k) as [->|]; [|reflexivity].
  apply oldest_slot_some in Hk as (slot & _ & _ & Hu & _); auto. congruence.
Qed.

Lemma request_model_frame lic now m kw (o : ResourceOrchestrator) :
  let o' := snd (request_model lic now m kw o) in
  worker o' = worker o /\
  task_queue o' = task_queue o /\
  _active_locks o' = dict_set m true (_active_locks o) /\
  MAX_CONCURRENT_MODELS o' = MAX_CONCURRENT_MODELS o.
Proof.
  destruct (make_room_frame lic o) as (Hw & Hq & Hl & Hm & _).
  unfold request_model; simpl.
  destruct (negb (dict_mem m (_model_slots (make_room lic o)))); simpl;
    rewrite ?Hl; auto.
Qed.

(** After [request_model] the requested slot is warm; every other slot is as
    [make_room] left it. *)
Lemma request_model_get lic now m kw (o : ResourceOrchestrator) n :
  let o' := snd (request_model lic now m kw o) in
  if String.eqb n m
  then exists slot, dict_get n (_model_slots o') = Some slot /\
                    state slot = WARM /\ last_used slot = now /\
                    keep_warm slot = kw
  else dict_get n (_model_slots o')
       = dict_get n (_model_slots (make_room lic o)).
Proof.
  unfold request_model; simpl.
  destruct (dict_mem m (_model_slots (make_room lic o))) eqn:Hm; simpl;
    rewrite dict_get_modify; destruct (String.eqb_spec n m) as [->|Hne].
  - apply dict_mem_get in Hm as [slot ->]. simpl. eauto.
  - reflexivity.
  - rewrite dict_get_set, String.eqb_refl. simpl. eauto.
  - rewrite dict_get_set. apply String.eqb_neq in Hne. now rewrite Hne.
Qed.

Lemma request_model_keys lic now m kw (o : ResourceOrchestrator) :
  dict_keys (_model_slots (snd (request_model lic now m kw o)))
  = if dict_mem m (_model_slots o) then dict_keys (_model_slots o)
    else dict_keys (_model_slots o) ++ [m].
Proof.
  destruct (make_room_frame lic o) as (_ & _ & _ & _ & Hk).
  assert (Hmem : dict_mem m (_model_slots (make_room lic o))
                 = dict_mem m (_model_slots o)).
  { destruct (dict_mem m (_model_slots o)) eqn:E.
    - apply dict_mem_keys. rewrite Hk. now apply dict_mem_keys.
    - destruct (dict_mem m (_model_slots (make_room lic o))) eqn:E';
        [|reflexivity].
      apply dict_mem_keys in E'. rewrite Hk in E'.
      apply dict_mem_keys in E'. congruence. }
  unfold request_model; simpl. rewrite Hmem.
  destruct (dict_mem m (_model_slots o)) eqn:E; simpl;
    rewrite dict_keys_modify.
  - exact Hk.
  - rewrite dict_keys_set, Hmem, Hk. reflexivity.
Qed.

Lemma release_lock_frame now m (o : ResourceOrchestrator) :
  let o' := release_lock now m o in
  worker o' = worker o /\
  task_queue o' = task_queue o /\
  _active_locks o'
  = (if dict_mem m (_active_locks o) then dict_del m (_active_locks o)
     else _active_locks o) /\
  MAX_CONCURRENT_MODELS o' = MAX_CONCURRENT_MODELS o /\
  dict_keys (_model_slots o') = dict_keys (_model_slots o).
Proof.
  unfold release_lock.
  destruct (dict_mem m (_active_locks o)); simpl;
    destruct (dict_mem m (_model_slots o)); simpl;
    repeat split; auto using dict_keys_modify.
Qed.

Lemma dict_modify_absent {V : Type} (k : string) (f : V -> V) d :
  dict_mem k d = false -> dict_modify k f d = d.
Proof.
  induction d as [|[k0 v0] d IH]; simpl; [reflexivity|].
  destruct (String.eqb k k0); [discriminate|].
  intros H. now rewrite IH.
Qed.

Lemma release_lock_slots now m (o : ResourceOrchestrator) :
  _model_slots (release_lock now m o)
  = dict_modify m (released now) (_model_slots o).
Proof.
  unfold release_lock.
  destruct (dict_mem m (_active_locks o)); simpl;
    destruct (dict_mem m (_model_slots o)) eqn:E; simpl;
    rewrite ?(dict_modify_absent m (released now) _ E); reflexivity.
Qed.

Lemma release_lock_get now m (o : ResourceOrchestrator) n :
  dict_get n (_model_slots (release_lock now m o))
  = if String.eqb n m
    then option_map (released now) (dict_get m (_model_slots o))
    else dict_get n (_model_slots o).
Proof.
  rewrite release_lock_slots. apply dict_get_modify.
Qed.

Lemma check_idle_key locks t item : fst (check_idle locks t item) = fst item.
Proof.
  destruct item as [nm slot]. unfold check_idle.
  repeat match goal with |- context [if ?c then _ else _] => destruct c end;
    reflexivity.
Qed.

Lemma check_idle_models_get t (o : ResourceOrchestrator) n :
  dict_get n (_model_slots (check_idle_models t o))
  = option_map (fun slot => snd (check_idle (_active_locks o) t (n, slot)))
      (dict_get n (_model_slots o)).
Proof.
  unfold check_idle_models; simpl.
  apply dict_get_map_items. apply check_idle_key.
Qed.

(** The sweep changes nothing but the state of a slot, and only to cold. *)
Lemma check_idle_cases locks t nm slot :
  check_idle locks t (nm, slot) = (nm, slot) \/
  (check_idle locks t (nm, slot) = (nm, set_state COLD slot) /\
   (state slot = WARM \/ state slot = COOLING) /\
   dict_mem nm locks = false /\
   (IDLE_TIMEOUT_SECONDS < t - last_used slot)%Q /\
   keep_warm slot = false).
Proof.
  unfold check_idle.
  destruct (state_eqb (state slot) WARM || state_eqb (state slot) COOLING)
    eqn:Hs; [|now left].
  destruct (dict_mem nm locks) eqn:Hl; simpl; [now left|].
  destruct (Qltb IDLE_TIMEOUT_SECONDS (t - last_used slot)) eqn:Ht;
    simpl; [|now left].
  destruct (keep_warm slot) eqn:Hk; simpl; [now left|].
  right. repeat split; auto.
  - destruct (state slot); simpl in Hs; auto; discriminate.
  - now apply Qltb_lt.
Qed.

Lemma check_idle_models_frame t (o : ResourceOrchestrator) :
  let o' := check_idle_models t o in
  worker o' = worker o /\
  task_queue o' = task_queue o /\
  _active_locks o' = _active_locks o /\
  MAX_CONCURRENT_MODELS o' = MAX_CONCURRENT_MODELS o /\
  dict_keys (_model_slots o') = dict_keys (_model_slots o).
Proof.
  unfold check_idle_models; simpl. repeat split.
  apply dict_keys_map_items. apply check_idle_key.
Qed.

Lemma generate_text_cases {R : Type} lic now prompt mode shadow (reply : R)
  (o : ResourceOrchestrator) :
  exists o1,
    _model_slots o1 = _model_slots o /\
    _active_locks o1 = _active_locks o /\
    MAX_CONCURRENT_MODELS o1 = MAX_CONCURRENT_MODELS o /\
    worker_is_alive o1 = true /\
    (snd (generate_text lic now prompt mode shadow reply o) = o1 \/
     snd (generate_text lic now prompt mode shadow reply o)
     = check_idle_models now o1).
Proof.
  assert (Ha : worker_is_alive (_ensure_worker_alive o) = true).
  { unfold _ensure_worker_alive.
    destruct (worker_is_alive o) eqn:E; simpl; auto. }
  assert (Hf : _model_slots (_ensure_worker_alive o) = _model_slots o /\
               _active_locks (_ensure_worker_alive o) = _active_locks o /\
               MAX_CONCURRENT_MODELS (_ensure_worker_alive o)
               = MAX_CONCURRENT_MODELS o).
  { unfold _ensure_worker_alive. destruct (negb (worker_is_alive o)); auto. }
  destruct Hf as (Hs & Hl & Hm).
  unfold generate_text.
  destruct (String.eqb mode "screenplay");
    [| destruct (String.eqb mode "comic");
       [destruct (negb (can_access_feature lic "comic_mode"))|] ]; simpl;
    try (eexists (task_queue_put _ (_ensure_worker_alive o)); simpl;
         repeat split; eauto; fail).
  exists (_ensure_worker_alive o). repeat split; auto.
Qed.

(** ** The invariant of reachable states *)

Lemma invariant_frame (o o' : ResourceOrchestrator) :
  _model_slots o' = _model_slots o ->
  _active_locks o' = _active_locks o ->
  MAX_CONCURRENT_MODELS o' = MAX_CONCURRENT_MODELS o ->
  invariant o -> invariant o'.
Proof.
  unfold invariant, well_formed, locks_warm, never_hot, limit_1_or_3, locked,
    slot_state.
  intros -> -> ->. auto.
Qed.

Lemma invariant_init (lic : LicenseEnv) : invariant (__init__ lic).
Proof.
  assert (H : forall n, n = 1 \/ n = 3 ->
            invariant {| worker := None; task_queue := []; _model_slots := [];
                         _active_locks := []; MAX_CONCURRENT_MODELS := n |}).
  { intros n Hn. split; [split; constructor|].
    split; [intros x Hx; discriminate|].
    split; [intros k slot []| exact Hn]. }
  unfold __init__, _update_limits.
  destruct (get_validator lic) as [key|];
    [destruct (LicenseValidator.is_pro key)|]; apply H; auto.
Qed.

Lemma invariant_request lic now m kw (o : ResourceOrchestrator) :
  invariant o -> invariant (snd (request_model lic now m kw o)).
Proof.
  intros ((Hns & Hnl) & Hlw & Hnh & Hlim).
  destruct (request_model_frame lic now m kw o) as (_ & _ & Hl & Hm).
  pose proof (request_model_keys lic now m kw o) as Hk.
  pose proof (request_model_get lic now m kw o) as Hg.
  cbv zeta in *. repeat split.
  - rewrite Hk. destruct (dict_mem m (_model_slots o)) eqn:E; [exact Hns|].
    apply NoDup_app; [exact Hns | repeat constructor; simpl; tauto |].
    intros x Hx [<-|[]]. apply dict_mem_keys in Hx. congruence.
  - rewrite Hl. now apply NoDup_keys_set.
  - intros n Hn. unfold locked in Hn. rewrite Hl, dict_mem_set in Hn.
    unfold slot_state. specialize (Hg n).
    destruct (String.eqb n m) eqn:E.
    + destruct Hg as (slot & -> & Hst & _). simpl. now rewrite Hst.
    + simpl in Hn. rewrite Hg, (make_room_locked lic o n Hns Hn).
      exact (Hlw n Hn).
  - intros k slot Hin.
    assert (Hroom : forall k slot,
               In (k, slot) (_model_slots (make_room lic o)) ->
               state slot <> HOT).
    { intros k1 s1 H1.
      destruct (make_room_cases lic o) as [E|(_ & _ & k0 & _ & E)];
        rewrite E in H1; [eauto|]. simpl in H1.
      apply In_dict_modify in H1 as [H1|(v0 & _ & ->)]; [eauto|].
      simpl. discriminate. }
    unfold request_model in Hin; simpl in Hin.
    apply In_dict_modify in Hin as [Hin|(v0 & _ & ->)];
      [|simpl; discriminate].
    destruct (negb (dict_mem m (_model_slots (make_room lic o))));
      simpl in Hin; [|eauto].
    apply In_dict_set in Hin as [Hin| ->]; [eauto | simpl; discriminate].
  - unfold limit_1_or_3. rewrite Hm. exact Hlim.
Qed.

Lemma invariant_release now m (o : ResourceOrchestrator) :
  invariant o -> invariant (release_lock now m o).
Proof.
  intros ((Hns & Hnl) & Hlw & Hnh & Hlim).
  destruct (release_lock_frame now m o) as (_ & _ & Hl & Hm & Hk).
  pose proof (release_lock_get now m o) as Hg.
  cbv zeta in *. repeat split.
  - now rewrite Hk.
  - rewrite Hl. destruct (dict_mem m (_active_locks o));
      [now apply NoDup_keys_del | exact Hnl].
  - intros n Hn. unfold locked in Hn. rewrite Hl in Hn.
    assert (Hn' : String.eqb n m = false /\ dict_mem n (_active_locks o) = true).
    { destruct (dict_mem m (_active_locks o)) eqn:E.
      - rewrite dict_mem_del in Hn by exact Hnl.
        apply andb_true_iff in Hn as [H1 H2].
        now apply negb_true_iff in H1.
      - split; [|exact Hn].
        destruct (String.eqb_spec n m) as [->|]; congruence. }
    destruct Hn' as [Hne Hn']. unfold slot_state. rewrite Hg, Hne.
    exact (Hlw n Hn').
  - intros k slot Hin. rewrite release_lock_slots in Hin.
    apply In_dict_modify in Hin as [H|(v0 & H & ->)]; [eauto|].
    unfold released. simpl.
    destruct (keep_warm v0); simpl; [eauto | discriminate].
  - unfold limit_1_or_3. rewrite Hm. exact Hlim.
Qed.

Lemma invariant_sweep t (o : ResourceOrchestrator) :
  invariant o -> invariant (check_idle_models t o).
Proof.
  intros ((Hns & Hnl) & Hlw & Hnh & Hlim).
  destruct (check_idle_models_frame t o) as (_ & _ & Hl & Hm & Hk).
  cbv zeta in *. repeat split.
  - now rewrite Hk.
  - now rewrite Hl.
  - intros n Hn. unfold locked in Hn. rewrite Hl in Hn.
    unfold slot_state. rewrite check_idle_models_get.
    specialize (Hlw n Hn). unfold slot_state in Hlw.
    destruct (dict_get n (_model_slots o)) as [slot|]; [|discriminate].
    cbn [option_map] in *.
    destruct (check_idle_cases (_active_locks o) t n slot)
      as [->|(_ & _ & Hu & _)]; [exact Hlw | congruence].
  - intros k slot Hin. unfold check_idle_models in Hin; simpl in Hin.
    apply in_map_iff in Hin as ([k0 s0] & E & Hin).
    destruct (check_idle_cases (_active_locks o) t k0 s0)
      as [E'|(E' & _)]; rewrite E' in E; injection E as <- <-.
    + eauto.
    + simpl. discriminate.
  - unfold limit_1_or_3. rewrite Hm. exact Hlim.
Qed.

Lemma invariant_generate lic now prompt mode shadow
  (o : ResourceOrchestrator) :
  invariant o ->
  invariant (snd (generate_text lic now prompt mode shadow tt o)).
Proof.
  intros H.
  destruct (generate_text_cases lic now prompt mode shadow tt o)
    as (o1 & Hs & Hl & Hm & _ & [-> | ->]).
  - now apply (invariant_frame o).
  - apply invariant_sweep. now apply (invariant_frame o).
Qed.

Lemma invariant_collapse force (o : ResourceOrchestrator) :
  invariant o -> invariant (collapse_to_zero force o).
Proof.
  intros ((Hns & Hnl) & Hlw & Hnh & Hlim).
  unfold collapse_to_zero.
  assert (Hs : forall o1, _model_slots o1 = _model_slots o ->
            MAX_CONCURRENT_MODELS o1 = MAX_CONCURRENT_MODELS o ->
            invariant
              (set_locks []
                 (set_slots
                    (map (fun item => (fst item, set_state COLD (snd item)))
                       (_model_slots o1)) o1))).
  { intros o1 E Em. repeat split; simpl.
    - rewrite E. rewrite dict_keys_map_items; auto.
    - constructor.
    - intros n Hn. discriminate.
    - intros k slot Hin. apply in_map_iff in Hin as (item & [= <- <-] & _).
      simpl. discriminate.
    - unfold limit_1_or_3. simpl. rewrite Em. exact Hlim. }
  destruct (worker_is_alive o); apply Hs; reflexivity.
Qed.

Lemma invariant_exec (c : Call) (o : ResourceOrchestrator) :
  invariant o -> invariant (exec c o).
Proof.
  destruct c; simpl.
  - apply invariant_request.
  - apply invariant_release.
  - apply invariant_sweep.
  - apply invariant_generate.
  - apply invariant_collapse.
  - intros H. destruct (worker o); [|exact H].
    now apply (invariant_frame o).
Qed.

Lemma reachable_invariant (o : ResourceOrchestrator) :
  reachable o -> invariant o.
Proof.
  induction 1; [apply invariant_init | now apply invariant_exec].
Qed.

Lemma reachable_exec_all (calls : list Call) (o : ResourceOrchestrator) :
  reachable o -> reachable (exec_all calls o).
Proof.
  revert o. induction calls as [|c calls IH]; intros o H; simpl; [exact H|].
  apply IH. now constructor.
Qed.

Lemma unload_oldest_locked (o : ResourceOrchestrator) n :
  NoDup (dict_keys (_model_slots o)) ->
  locked n o = true ->
  dict_get n (_model_slots (_unload_oldest_model o))
  = dict_get n (_model_slots o).
Proof.
  intros Hnd Hl. unfold _unload_oldest_model.
  destruct (oldest_slot o) as [k|] eqn:Hk; [|reflexivity].
  simpl. rewrite dict_get_modify.
  destruct (String.eqb_spec n k) as [->|]; [|reflexivity].
  apply oldest_slot_some in Hk as (slot & _ & _ & Hu & _); auto. congruence.
Qed.

(** ** The lock set *)

(** C3. In every state that a history of request, release, sweep, generate
    and collapse calls can reach, every name of the lock set has a slot, and
    that slot is warm or hot.  Neither the idle sweep nor the eviction of
    the oldest model touches the slot of a locked name, and a request leaves
    every name that was locked with a warm slot. *)
Theorem C3_locked_slots_stay_resident (o : ResourceOrchestrator) :
  reachable o ->
  (forall n, locked n o = true ->
     exists slot, dict_get n (_model_slots o) = Some slot /\
                  (state slot = WARM \/ state slot = HOT)) /\
  (forall n t, locked n o = true ->
     slot_state n (check_idle_models t o) = slot_state n o) /\
  (forall n, locked n o = true ->
     slot_state n (_unload_oldest_model o) = slot_state n o) /\
  (forall n lic now m kw, locked n o = true ->
     slot_state n (snd (request_model lic now m kw o)) = slot_state n o).
Proof.
  intros Hr. pose proof (reachable_invariant o Hr) as Hinv.
  destruct Hinv as ((Hns & Hnl) & Hlw & _ & _).
  repeat split.
  - intros n Hn. specialize (Hlw n Hn). unfold slot_state in Hlw.
    destruct (dict_get n (_model_slots o)) as [slot|]; [|discriminate].
    injection Hlw as Hst. eauto.
  - intros n t Hn. unfold slot_state. rewrite check_idle_models_get.
    destruct (dict_get n (_model_slots o)) as [slot|]; [|reflexivity].
    cbn [option_map].
    destruct (check_idle_cases (_active_locks o) t n slot)
      as [->|(_ & _ & Hu & _)]; [reflexivity|].
    unfold locked in Hn. congruence.
  - intros n Hn. unfold slot_state. now rewrite unload_oldest_locked.
  - intros n lic now m kw Hn.
    assert (Hr' : reachable (exec (Request lic now m kw) o))
      by now constructor.
    apply reachable_invariant in Hr' as (_ & Hlw' & _).
    change (exec (Request lic now m kw) o)
      with (snd (request_model lic now m kw o)) in Hlw'.
    rewrite (Hlw n Hn). apply Hlw'. unfold locked.
    destruct (request_model_frame lic now m kw o) as (_ & _ & Hl & _).
    rewrite Hl, dict_mem_set. unfold locked in Hn. rewrite Hn.
    apply orb_true_r.
Qed.

Lemma C3_witness :
  let o := exec_all [Request ronin 1 "m1" false; Request ronin 2 "m2" true]
             (__init__ ronin) in
  reachable o /\
  exists slot, dict_get "m1" (_model_slots o) = Some slot /\
               (state slot = WARM \/ state slot = HOT).
Proof.
  intros o.
  assert (Hr : reachable o)
    by (apply reachable_exec_all; apply reachable_init).
  split; [exact Hr|].
  apply (proj1 (C3_locked_slots_stay_resident o Hr) "m1"). reflexivity.
Defined.

(** ** The hot state *)

(** C10. No operation assigns the hot state: in every reachable state each
    slot is cold, warm or cooling, and no entry of the status snapshot reads
    hot. *)
Theorem C10_hot_is_never_assigned (o : ResourceOrchestrator) :
  reachable o ->
  (forall k slot, In (k, slot) (_model_slots o) ->
     state slot = COLD \/ state slot = WARM \/ state slot = COOLING) /\
  (forall lic entry, In entry (active_models (get_status lic o)) ->
     snd (fst entry) <> "hot"%string).
Proof.
  intros Hr. destruct (reachable_invariant o Hr) as (_ & _ & Hnh & _).
  split.
  - intros k slot Hin. specialize (Hnh k slot Hin).
    destruct (state slot); auto. congruence.
  - intros lic entry Hin. unfold get_status in Hin; simpl in Hin.
    apply in_map_iff in Hin as (s & <- & Hs).
    apply filter_In in Hs as [Hs _]. unfold dict_values in Hs.
    apply in_map_iff in Hs as ([k slot] & <- & Hin). simpl.
    specialize (Hnh k slot Hin).
    destruct (state slot); simpl; congruence.
Qed.

Lemma C10_witness :
  let o := exec_all
             [Request ronin 1 "m1" false; Generate ronin 2 "Once" "prose" false;
              Release 3 "m1"]
             (__init__ ronin) in
  reachable o /\
  forall k slot, In (k, slot) (_model_slots o) ->
    state slot = COLD \/ state slot = WARM \/ state slot = COOLING.
Proof.
  intros o.
  assert (Hr : reachable o)
    by (apply reachable_exec_all; apply reachable_init).
  split; [exact Hr|].
  exact (proj1 (C10_hot_is_never_assigned o Hr)).
Defined.

(** ** Collapse to zero *)

Lemma set_state_same (slot : ModelSlot) st :
  state slot = st -> set_state st slot = slot.
Proof. destruct slot; simpl; intros <-; reflexivity. Qed.

Lemma collapse_slots_cold (d : list (string * ModelSlot)) :
  (forall k slot, In (k, slot) d -> state slot = COLD) ->
  map (fun item => (fst item, set_state COLD (snd item))) d = d.
Proof.
  induction d as [|[k slot] d IH]; simpl; intros H; [reflexivity|].
  rewrite IH by (intros k0 slot0 Hin; apply (H k0 slot0); now right).
  rewrite set_state_same by (apply (H k slot); now left). reflexivity.
Qed.

Lemma all_cold_no_locks (o : ResourceOrchestrator) :
  invariant o ->
  (forall k slot, In (k, slot) (_model_slots o) -> state slot = COLD) ->
  _active_locks o = [].
Proof.
  intros (_ & Hlw & _) Hc.
  destruct (_active_locks o) as [|[k v] l] eqn:E; [reflexivity|].
  assert (Hk : locked k o = true)
    by (unfold locked; rewrite E; simpl; now rewrite String.eqb_refl).
  specialize (Hlw k Hk). unfold slot_state in Hlw.
  destruct (dict_get k (_model_slots o)) as [slot|] eqn:G; [|discriminate].
  apply dict_get_In in G. apply Hc in G. simpl in Hlw. congruence.
Qed.

(** C5. [collapse_to_zero] is a total function of the orchestrator, so it
    returns for every state.  Calling it a second time changes nothing; what
    it leaves has no live worker, only cold slots and an empty lock set, and
    the status snapshot shows as much.  On a reachable state that has no live
    worker and only cold slots it changes nothing at all. *)
Theorem C5_collapse_to_zero_idempotent (force force' : bool)
  (lic : LicenseEnv) (o : ResourceOrchestrator) :
  let o' := collapse_to_zero force o in
  collapse_to_zero force' o' = o' /\
  worker_alive (get_status lic o') = false /\
  active_models (get_status lic o') = [] /\
  active_locks (get_status lic o') = [] /\
  (forall k slot, In (k, slot) (_model_slots o') -> state slot = COLD) /\
  (reachable o -> worker_is_alive o = false ->
   (forall k slot, In (k, slot) (_model_slots o) -> state slot = COLD) ->
   o' = o).
Proof.
  assert (Hcold : forall k slot,
            In (k, slot) (_model_slots (collapse_to_zero force o)) ->
            state slot = COLD).
  { intros k slot Hin. unfold collapse_to_zero in Hin.
    destruct (worker_is_alive o); simpl in Hin;
      apply in_map_iff in Hin as (item & [= <- <-] & _); reflexivity. }
  assert (Hdead : worker_is_alive (collapse_to_zero force o) = false).
  { unfold collapse_to_zero. destruct (worker_is_alive o) eqn:E; simpl; auto. }
  cbv zeta. split; [|split; [|split; [|split; [|split]]]].
  - unfold collapse_to_zero at 1. rewrite Hdead.
    rewrite collapse_slots_cold by exact Hcold.
    unfold collapse_to_zero. destruct (worker_is_alive o); reflexivity.
  - exact Hdead.
  - unfold get_status; simpl.
    assert (Hf : forall d : list (string * ModelSlot),
              (forall k slot, In (k, slot) d -> state slot = COLD) ->
              filter not_cold (dict_values d) = []).
    { induction d as [|[k slot] d IH]; intros H; simpl; [reflexivity|].
      unfold not_cold at 1. rewrite (H k slot) by now left. simpl.
      apply IH. intros k0 slot0 Hin. apply (H k0 slot0). now right. }
    rewrite Hf by exact Hcold. reflexivity.
  - unfold collapse_to_zero. destruct (worker_is_alive o); reflexivity.
  - exact Hcold.
  - intros Hr Hw Hc. apply reachable_invariant in Hr.
    pose proof (all_cold_no_locks o Hr Hc) as Hl.
    unfold collapse_to_zero. rewrite Hw.
    rewrite collapse_slots_cold by exact Hc.
    destruct o; simpl in *. now subst.
Qed.

Lemma C5_witness :
  let o := exec_all
             [Request ronin 1 "m1" false; Generate ronin 2 "Once" "prose" false;
              Release 3 "m1"; WorkerExit; SweepIdle 400]
             (__init__ ronin) in
  (reachable o /\ worker_is_alive o = false /\
   (forall k slot, In (k, slot) (_model_slots o) -> state slot = COLD)) /\
  collapse_to_zero true o = o.
Proof.
  intros o.
  assert (Hr : reachable o)
    by (apply reachable_exec_all; apply reachable_init).
  assert (Hc : forall k slot, In (k, slot) (_model_slots o) ->
                              state slot = COLD).
  { intros k slot Hin. vm_compute in Hin. destruct Hin as [E|[]].
    injection E as <- <-. reflexivity. }
  split; [repeat split; [exact Hr | exact Hc]|].
  apply (C5_collapse_to_zero_idempotent true true ronin o); auto.
Defined.

(** ** The idle sweep *)

(** The sweep on a slot that is cooling, unlocked and not kept warm: it turns
    cold exactly when it has been idle for more than the timeout. *)
Lemma check_idle_models_cooling t (o : ResourceOrchestrator) m slot :
  dict_get m (_model_slots o) = Some slot ->
  locked m o = false ->
  state slot = COOLING -> keep_warm slot = false ->
  dict_get m (_model_slots (check_idle_models t o))
  = Some (if Qltb IDLE_TIMEOUT_SECONDS (t - last_used slot)
          then set_state COLD slot else slot).
Proof.
  intros Hg Hl Hs Hk. rewrite check_idle_models_get, Hg. cbn [option_map].
  unfold check_idle. unfold locked in Hl. rewrite Hs, Hl, Hk. simpl.
  rewrite andb_true_r.
  now destruct (Qltb IDLE_TIMEOUT_SECONDS (t - last_used slot)).
Qed.

Lemma check_idle_models_cold t (o : ResourceOrchestrator) m slot :
  dict_get m (_model_slots o) = Some slot ->
  state slot = COLD ->
  dict_get m (_model_slots (check_idle_models t o)) = Some slot.
Proof.
  intros Hg Hs. rewrite check_idle_models_get, Hg. cbn [option_map].
  unfold check_idle. rewrite Hs. reflexivity.
Qed.

(** What a request followed by a release of the same model leaves: the slot
    is cooling, unlocked, not kept warm, and was last used at the release. *)
Lemma request_release_slot lic t0 t1 m (o : ResourceOrchestrator) :
  invariant o ->
  let o1 := release_lock t1 m (snd (request_model lic t0 m false o)) in
  locked m o1 = false /\
  exists slot, dict_get m (_model_slots o1) = Some slot /\
               state slot = COOLING /\ keep_warm slot = false /\
               last_used slot = t1.
Proof.
  intros Hinv.
  pose proof (invariant_request lic t0 m false o Hinv) as ((_ & Hnl) & _).
  destruct (request_model_frame lic t0 m false o) as (_ & _ & Hl & _).
  pose proof (request_model_get lic t0 m false o m) as Hg.
  rewrite String.eqb_refl in Hg. destruct Hg as (slot & Hg & Hs & Ht & Hk).
  cbv zeta. split.
  - unfold locked.
    destruct (release_lock_frame t1 m (snd (request_model lic t0 m false o)))
      as (_ & _ & Hl' & _).
    rewrite Hl'.
    assert (Hm : dict_mem m
                   (_active_locks (snd (request_model lic t0 m false o)))
                 = true)
      by (rewrite Hl, dict_mem_set, String.eqb_refl; reflexivity).
    rewrite Hm, dict_mem_del by exact Hnl.
    now rewrite String.eqb_refl.
  - rewrite release_lock_get, String.eqb_refl, Hg. cbn [option_map].
    unfold released. simpl. rewrite Hk. simpl. eauto.
Qed.

(** C6, amended at the boundary.  After [request_model m] without keep-warm
    and [release_lock m], a sweep that comes no later than the timeout after
    the release leaves the slot cooling; a later sweep that comes more than
    the timeout after the release leaves it cold. *)
Theorem C6_sweep_after_release (lic : LicenseEnv) (t0 t1 t2 t3 : Q)
  (m : string) (o : ResourceOrchestrator) :
  reachable o ->
  let o1 := release_lock t1 m (snd (request_model lic t0 m false o)) in
  ((t2 - t1 <= IDLE_TIMEOUT_SECONDS)%Q ->
   slot_state m (check_idle_models t2 o1) = Some COOLING) /\
  ((IDLE_TIMEOUT_SECONDS < t3 - t1)%Q ->
   slot_state m (check_idle_models t3 (check_idle_models t2 o1))
   = Some COLD).
Proof.
  intros Hr. apply reachable_invariant in Hr.
  destruct (request_release_slot lic t0 t1 m o Hr)
    as (Hl & slot & Hg & Hs & Hk & Ht).
  cbv zeta.
  pose proof (check_idle_models_cooling t2 _ m slot Hg Hl Hs Hk) as H2.
  rewrite Ht in H2. split.
  - intros Hle. unfold slot_state. rewrite H2.
    apply Qltb_ge in Hle. rewrite Hle. simpl. now rewrite Hs.
  - intros Hlt. unfold slot_state.
    destruct (Qltb IDLE_TIMEOUT_SECONDS (t2 - t1)).
    + rewrite (check_idle_models_cold t3 _ m _ H2); reflexivity.
    + assert (Hl2 : locked m
                      (check_idle_models t2
                         (release_lock t1 m
                            (snd (request_model lic t0 m false o))))
                    = false) by exact Hl.
      rewrite (check_idle_models_cooling t3 _ m slot H2 Hl2 Hs Hk), Ht.
      apply Qltb_lt in Hlt. rewrite Hlt. reflexivity.
Qed.

Lemma C6_witness :
  let o := __init__ ronin in
  let o1 := release_lock 10 "m1" (snd (request_model ronin 0 "m1" false o)) in
  (reachable o /\ (20 - 10 <= IDLE_TIMEOUT_SECONDS)%Q) /\
  slot_state "m1" (check_idle_models 20 o1) = Some COOLING.
Proof.
  intros o o1.
  assert (Hr : reachable o) by apply reachable_init.
  assert (Hle : (20 - 10 <= IDLE_TIMEOUT_SECONDS)%Q)
    by (vm_compute; discriminate).
  split; [split; [exact Hr | exact Hle]|].
  exact (proj1 (C6_sweep_after_release ronin 0 10 20 311 "m1" o Hr) Hle).
Defined.

(** C6 as stated fails at the boundary: a sweep exactly 300 seconds after
    the release finds an idle time that is at least the timeout and still
    leaves the slot cooling. *)
Lemma C6_counterexample :
  let o := exec_all
             [Request ronin 0 "m1" false; Release 0 "m1"; SweepIdle 0;
              SweepIdle 300]
             (__init__ ronin) in
  (IDLE_TIMEOUT_SECONDS <= 300 - 0)%Q /\
  slot_state "m1" o = Some COOLING /\ slot_state "m1" o <> Some COLD.
Proof.
  cbv zeta. split; [vm_compute; discriminate|].
  split; [reflexivity | vm_compute; discriminate].
Qed.

(** ** The concurrency limit *)

Lemma collapse_to_zero_limit force (o : ResourceOrchestrator) :
  MAX_CONCURRENT_MODELS (collapse_to_zero force o) = MAX_CONCURRENT_MODELS o.
Proof.
  unfold collapse_to_zero. destruct (worker_is_alive o); reflexivity.
Qed.

Lemma exec_limit (c : Call) (o : ResourceOrchestrator) :
  MAX_CONCURRENT_MODELS (exec c o) = MAX_CONCURRENT_MODELS o.
Proof.
  destruct c; cbn [exec].
  - apply request_model_frame.
  - apply release_lock_frame.
  - reflexivity.
  - destruct (generate_text_cases lic now prompt mode use_shadow_nodes tt o)
      as (o1 & _ & _ & Hm & _ & [-> | ->]); exact Hm.
  - apply collapse_to_zero_limit.
  - destruct (worker o); reflexivity.
Qed.

Lemma exec_all_limit (calls : list Call) (o : ResourceOrchestrator) :
  MAX_CONCURRENT_MODELS (exec_all calls o) = MAX_CONCURRENT_MODELS o.
Proof.
  revert o. induction calls as [|c calls IH]; intros o; simpl; [reflexivity|].
  unfold exec_all in IH. rewrite IH. apply exec_limit.
Qed.



(** ** Counting the slots that are not cold *)

Lemma count_modify (k : string) (f : ModelSlot -> ModelSlot) d v :
  dict_get k d = Some v ->
  (List.length (filter not_cold (dict_values (dict_modify k f d)))
   + (if not_cold v then 1 else 0)
   = List.length (filter not_cold (dict_values d))
     + (if not_cold (f v) then 1 else 0))%nat.
Proof.
  induction d as [|[k0 v0] d IH]; simpl; [discriminate|].
  destruct (String.eqb k k0); simpl.
  - intros [= ->]. destruct (not_cold v), (not_cold (f v)); simpl; lia.
  - intros H. specialize (IH H). destruct (not_cold v0); simpl; lia.
Qed.

Lemma count_app (k : string) d v :
  List.length (filter not_cold (dict_values (d ++ [(k, v)])))
  = (List.length (filter not_cold (dict_values d))
     + (if not_cold v then 1 else 0))%nat.
Proof.
  unfold dict_values. rewrite map_app, filter_app, length_app. simpl.
  now destruct (not_cold v).
Qed.

Lemma not_cold_true (slot : ModelSlot) :
  not_cold slot = true <-> state slot <> COLD.
Proof.
  unfold not_cold. destruct (state slot); simpl; split; congruence.
Qed.

Lemma make_room_count (lic : LicenseEnv) (o : ResourceOrchestrator) :
  NoDup (dict_keys (_model_slots o)) ->
  current_models (make_room lic o) <= current_models o /\
  (MAX_CONCURRENT_MODELS o <= current_models o ->
   can_access_feature lic "multi_lora" = false ->
   forall k, oldest_slot o = Some k ->
   current_models (make_room lic o) = current_models o - 1).
Proof.
  intros Hnd.
  assert (Hev : forall k, oldest_slot o = Some k ->
            current_models
              (set_slots (dict_modify k (set_state COLD) (_model_slots o)) o)
            = current_models o - 1).
  { intros k Hk.
    apply oldest_slot_some in Hk as (slot & Hg & Hs & _); auto.
    pose proof (count_modify k (set_state COLD) _ _ Hg) as Hc.
    apply not_cold_true in Hs. rewrite Hs in Hc.
    assert (Hcold : not_cold (set_state COLD slot) = false) by reflexivity.
    rewrite Hcold in Hc. unfold current_models; simpl. lia. }
  split.
  - destruct (make_room_cases lic o) as [E|(Hle & Hf & k & Hk & E)];
      rewrite E; [lia | rewrite (Hev k Hk); lia].
  - intros Hle Hf k Hk.
    assert (E : make_room lic o
                = set_slots
                    (dict_modify k (set_state COLD) (_model_slots o)) o).
    { unfold make_room, _unload_oldest_model.
      apply Z.leb_le in Hle. rewrite Hle, Hf, Hk. reflexivity. }
    rewrite E. now apply Hev.
Qed.

Lemma request_model_count lic now m kw (o : ResourceOrchestrator) :
  current_models (snd (request_model lic now m kw o))
  <= current_models (make_room lic o) + 1.
Proof.
  unfold request_model; simpl. unfold current_models; simpl.
  set (F := fun slot =>
              set_state WARM (set_keep_warm kw (set_last_used now slot))).
  assert (HF : forall v, not_cold (F v) = true) by reflexivity.
  destruct (dict_mem m (_model_slots (make_room lic o))) eqn:Hm; simpl.
  - apply dict_mem_get in Hm as [v Hg].
    pose proof (count_modify m F _ _ Hg) as Hc. rewrite HF in Hc.
    destruct (not_cold v); lia.
  - unfold dict_set. rewrite Hm.
    match goal with
    | |- context [dict_modify m F (?d ++ [(m, ?v)])] =>
        assert (Hv : not_cold v = false) by reflexivity;
        pose proof (count_modify m F (d ++ [(m, v)]) v) as Hc;
        pose proof (count_app m d v) as Ha
    end.
    rewrite dict_get_app_new, String.eqb_refl in Hc by exact Hm.
    specialize (Hc eq_refl). rewrite HF, Hv in Hc. rewrite Hv in Ha.
    lia.
Qed.

(** ** Admission *)

(** C1, amended.  In every reachable state, when [request_model] returns the
    number of slots that are not cold is at most one more than before the
    call; it is within [max 1 MAX_CONCURRENT_MODELS] whenever it was below
    the limit before the call, and also whenever it was within that bound,
    the caller lacks the multi_lora feature and some slot that is not cold
    was unlocked. *)
Theorem C1_request_residency_bound (lic : LicenseEnv) (now : Q) (m : string)
  (kw : bool) (o : ResourceOrchestrator) :
  reachable o ->
  let o' := snd (request_model lic now m kw o) in
  current_models o' <= current_models o + 1 /\
  (current_models o < MAX_CONCURRENT_MODELS o ->
   current_models o' <= Z.max 1 (MAX_CONCURRENT_MODELS o')) /\
  (current_models o <= Z.max 1 (MAX_CONCURRENT_MODELS o) ->
   can_access_feature lic "multi_lora" = false ->
   (exists n slot, dict_get n (_model_slots o) = Some slot /\
                   state slot <> COLD /\ locked n o = false) ->
   current_models o' <= Z.max 1 (MAX_CONCURRENT_MODELS o')).
Proof.
  intros Hr. apply reachable_invariant in Hr as ((Hns & _) & _ & _ & Hlim).
  destruct (make_room_count lic o Hns) as [Hle Hev].
  pose proof (request_model_count lic now m kw o) as Hc.
  destruct (request_model_frame lic now m kw o) as (_ & _ & _ & Hm).
  cbv zeta. rewrite Hm. unfold limit_1_or_3 in Hlim.
  split; [lia | split; [lia|]].
  intros Hb Hf (n & slot & Hg & Hs & Hu).
  destruct (Z.lt_ge_cases (current_models o) (MAX_CONCURRENT_MODELS o))
    as [Hlt|Hge]; [lia|].
  destruct (oldest_slot o) as [k|] eqn:Hk.
  - rewrite (Hev Hge Hf k eq_refl) in Hc. lia.
  - destruct (oldest_slot_none o Hk n slot Hg); congruence.
Qed.

Lemma C1_witness :
  let o := exec_all [Request ronin 1 "m1" false; Release 2 "m1"]
             (__init__ ronin) in
  let o' := snd (request_model ronin 3 "m2" false o) in
  reachable o /\
  current_models o' <= Z.max 1 (MAX_CONCURRENT_MODELS o').
Proof.
  intros o o'.
  assert (Hr : reachable o)
    by (apply reachable_exec_all; apply reachable_init).
  split; [exact Hr|].
  apply (C1_request_residency_bound ronin 3 "m2" false o Hr).
  - vm_compute. discriminate.
  - reflexivity.
  - exists "m1"%string. eexists. split; [reflexivity|].
    split; [discriminate | reflexivity].
Defined.

(** C1 as stated fails: under the free tier, a second request while the
    first model is still locked leaves two slots that are not cold, above
    [max 1 MAX_CONCURRENT_MODELS = 1]; under a paid tier four requests leave
    four, above the limit 3. *)
Lemma C1_counterexample :
  (let o := exec_all [Request ronin 1 "m1" false; Request ronin 2 "m2" false]
              (__init__ ronin) in
   Z.max 1 (MAX_CONCURRENT_MODELS o) = 1 /\ current_models o = 2) /\
  (let o := exec_all
              [Request architect 1 "m1" false; Release 2 "m1";
               Request architect 3 "m2" false; Release 4 "m2";
               Request architect 5 "m3" false; Release 6 "m3";
               Request architect 7 "m4" false]
              (__init__ architect) in
   Z.max 1 (MAX_CONCURRENT_MODELS o) = 3 /\ current_models o = 4).
Proof. vm_compute. repeat split; reflexivity. Qed.

(** ** Eviction of the oldest model *)

Lemma oldest_slot_repinned (pin : string -> bool) (o : ResourceOrchestrator) :
  oldest_slot (repinned pin o) = oldest_slot o.
Proof.
  unfold oldest_slot, repinned; simpl. f_equal.
  generalize (@None Q, @None string).
  induction (_model_slots o) as [|[k slot] d IH]; intros acc; simpl;
    [reflexivity|].
  rewrite IH. f_equal.
Qed.

(** After a request that evicts [k], the slot of [k] is cold and every slot
    other than the requested one and [k] is as before. *)
Lemma request_model_evicts lic now m kw (o : ResourceOrchestrator) k :
  MAX_CONCURRENT_MODELS o <= current_models o ->
  can_access_feature lic "multi_lora" = false ->
  oldest_slot o = Some k ->
  forall n, n <> m ->
    dict_get n (_model_slots (snd (request_model lic now m kw o)))
    = if String.eqb n k
      then option_map (set_state COLD) (dict_get k (_model_slots o))
      else dict_get n (_model_slots o).
Proof.
  intros Hle Hf Hk n Hn.
  pose proof (request_model_get lic now m kw o n) as Hg.
  apply String.eqb_neq in Hn. cbv zeta in Hg. rewrite Hn in Hg. rewrite Hg.
  unfold make_room, _unload_oldest_model.
  apply Z.leb_le in Hle. rewrite Hle, Hf, Hk. simpl.
  apply dict_get_modify.
Qed.

(** After a request that evicts nothing, every slot other than the requested
    one is as before. *)
Lemma request_model_keeps lic now m kw (o : ResourceOrchestrator) :
  current_models o < MAX_CONCURRENT_MODELS o \/
  can_access_feature lic "multi_lora" = true \/ oldest_slot o = None ->
  forall n, n <> m ->
    dict_get n (_model_slots (snd (request_model lic now m kw o)))
    = dict_get n (_model_slots o).
Proof.
  intros Hc n Hn.
  pose proof (request_model_get lic now m kw o n) as Hg.
  apply String.eqb_neq in Hn. cbv zeta in Hg. rewrite Hn in Hg. rewrite Hg.
  unfold make_room, _unload_oldest_model.
  destruct (Z.leb_spec (MAX_CONCURRENT_MODELS o) (current_models o));
    [|reflexivity].
  destruct Hc as [Hc|[Hc|Hc]]; [lia | now rewrite Hc |].
  rewrite Hc. now destruct (negb (can_access_feature lic "multi_lora")).
Qed.

(** C4, amended.  The eviction of [request_model] picks its victim among the
    slots that are not cold and unlocked, kept warm or not: the victim is
    such a slot, no such slot was used before it, there is a victim whenever
    there is such a slot, and the choice does not depend on any keep-warm
    flag.  A request that evicts turns the victim cold and leaves every other
    slot but the requested one as it was. *)
Theorem C4_eviction_picks_oldest_unlocked (o : ResourceOrchestrator) :
  reachable o ->
  (forall k, oldest_slot o = Some k ->
     exists slot,
       dict_get k (_model_slots o) = Some slot /\
       state slot <> COLD /\ locked k o = false /\
       forall k' slot',
         dict_get k' (_model_slots o) = Some slot' ->
         state slot' <> COLD -> locked k' o = false ->
         (last_used slot <= last_used slot')%Q) /\
  (oldest_slot o = None ->
   forall k slot, dict_get k (_model_slots o) = Some slot ->
                  state slot = COLD \/ locked k o = true) /\
  (forall pin, oldest_slot (repinned pin o) = oldest_slot o) /\
  (forall lic now m kw k,
     MAX_CONCURRENT_MODELS o <= current_models o ->
     can_access_feature lic "multi_lora" = false ->
     oldest_slot o = Some k -> k <> m ->
     let o' := snd (request_model lic now m kw o) in
     slot_state k o' = Some COLD /\
     forall n, n <> k -> n <> m -> slot_state n o' = slot_state n o).
Proof.
  intros Hr. apply reachable_invariant in Hr as ((Hns & _) & _).
  split; [|split; [|split]].
  - intros k Hk. now apply oldest_slot_some.
  - apply oldest_slot_none.
  - intros pin. apply oldest_slot_repinned.
  - intros lic now m kw k Hle Hf Hk Hne. cbv zeta. unfold slot_state. split.
    + rewrite (request_model_evicts lic now m kw o k Hle Hf Hk k Hne).
      rewrite String.eqb_refl.
      apply oldest_slot_some in Hk as (slot & -> & _); auto.
    + intros n Hnk Hnm.
      rewrite (request_model_evicts lic now m kw o k Hle Hf Hk n Hnm).
      apply String.eqb_neq in Hnk. now rewrite Hnk.
Qed.

Lemma C4_witness :
  let o := exec_all
             [Request ronin 1 "m1" false; Request ronin 2 "m2" true;
              Release 3 "m1"; Release 4 "m2"]
             (__init__ ronin) in
  reachable o /\
  exists slot,
    dict_get "m1" (_model_slots o) = Some slot /\
    state slot <> COLD /\ locked "m1" o = false /\
    forall k' slot',
      dict_get k' (_model_slots o) = Some slot' ->
      state slot' <> COLD -> locked k' o = false ->
      (last_used slot <= last_used slot')%Q.
Proof.
  intros o.
  assert (Hr : reachable o)
    by (apply reachable_exec_all; apply reachable_init).
  split; [exact Hr|].
  apply (proj1 (C4_eviction_picks_oldest_unlocked o Hr) "m1"%string).
  reflexivity.
Defined.

(** C4 as stated fails: a slot requested with keep-warm and released stays
    warm and pinned, and the next request under the free tier evicts it. *)
Lemma C4_counterexample :
  let o := exec_all [Request ronin 0 "m1" true; Release 1 "m1"]
             (__init__ ronin) in
  let o' := snd (request_model ronin 2 "m2" false o) in
  option_map keep_warm (dict_get "m1" (_model_slots o)) = Some true /\
  slot_state "m1" o = Some WARM /\
  oldest_slot o = Some "m1"%string /\
  option_map keep_warm (dict_get "m1" (_model_slots o')) = Some true /\
  slot_state "m1" o' = Some COLD.
Proof. vm_compute. repeat split; reflexivity. Qed.

Lemma Permutation_filter_length {A : Type} (f : A -> bool) (l l' : list A) :
  Permutation l l' ->
  List.length (filter f l) = List.length (filter f l').
Proof.
  induction 1; simpl;
    repeat match goal with
           | |- context [if f ?x then _ else _] => destruct (f x)
           end; simpl; congruence.
Qed.

(** With three slots that are not cold and unlocked, last used at 1, 2 and
    3, the scan settles on the first. *)
Lemma oldest_of_three (o : ResourceOrchestrator) (a b c : string)
  (A B C : ModelSlot) :
  Permutation (_model_slots o) [(a, A); (b, B); (c, C)] ->
  NoDup [a; b; c] ->
  state A <> COLD -> state B <> COLD -> state C <> COLD ->
  locked a o = false -> locked b o = false -> locked c o = false ->
  (last_used A == 1)%Q -> (last_used B == 2)%Q -> (last_used C == 3)%Q ->
  NoDup (dict_keys (_model_slots o)) /\
  dict_get a (_model_slots o) = Some A /\
  dict_get b (_model_slots o) = Some B /\
  dict_get c (_model_slots o) = Some C /\
  current_models o = 3 /\
  oldest_slot o = Some a.
Proof.
  intros Hp Hnd HA HB HC Hla Hlb Hlc Hta Htb Htc.
  assert (Hns : NoDup (dict_keys (_model_slots o))).
  { apply (Permutation_NoDup (l := [a; b; c])); [|exact Hnd].
    apply Permutation_sym.
    exact (Permutation_map fst Hp). }
  assert (Hin : forall item, In item [(a, A); (b, B); (c, C)] ->
                             In item (_model_slots o))
    by (intros item; apply Permutation_in; now apply Permutation_sym).
  assert (Ha : dict_get a (_model_slots o) = Some A)
    by (apply dict_In_get; [exact Hns | apply Hin; simpl; tauto]).
  assert (Hb : dict_get b (_model_slots o) = Some B)
    by (apply dict_In_get; [exact Hns | apply Hin; simpl; tauto]).
  assert (Hc : dict_get c (_model_slots o) = Some C)
    by (apply dict_In_get; [exact Hns | apply Hin; simpl; tauto]).
  repeat (split; [assumption|]). split.
  - unfold current_models, dict_values.
    rewrite (Permutation_filter_length not_cold _ _
               (Permutation_map snd Hp)).
    simpl. apply not_cold_true in HA, HB, HC. now rewrite HA, HB, HC.
  - destruct (oldest_slot o) as [k|] eqn:Hk.
    + apply oldest_slot_some in Hk as (slot & Hg & _ & _ & Hmin); auto.
      specialize (Hmin a A Ha HA Hla).
      apply dict_get_In in Hg. apply (Permutation_in _ Hp) in Hg.
      destruct Hg as [E|[E|[E|[]]]]; injection E as <- <-;
        [reflexivity | lra | lra].
    + destruct (oldest_slot_none o Hk a A Ha); congruence.
Qed.

(** C2, amended.  With slots A, B and C not cold, unlocked and last used at
    1, 2 and 3, and the limit 3, a request for a fourth model leaves that
    model warm.  When the caller lacks the multi_lora feature it turns A
    cold and leaves B and C as they are; when the caller has the feature, as
    under the tiers that yield the limit 3, nothing is evicted. *)
Theorem C2_request_evicts_least_recently_used
  (lic : LicenseEnv) (now : Q) (kw : bool) (o : ResourceOrchestrator)
  (a b c d : string) (A B C : ModelSlot) :
  Permutation (_model_slots o) [(a, A); (b, B); (c, C)] ->
  NoDup [a; b; c; d] ->
  state A <> COLD -> state B <> COLD -> state C <> COLD ->
  locked a o = false -> locked b o = false -> locked c o = false ->
  (last_used A == 1)%Q -> (last_used B == 2)%Q -> (last_used C == 3)%Q ->
  MAX_CONCURRENT_MODELS o = 3 ->
  let o' := snd (request_model lic now d kw o) in
  slot_state d o' = Some WARM /\
  (can_access_feature lic "multi_lora" = false ->
   slot_state a o' = Some COLD /\
   slot_state b o' = Some (state B) /\
   slot_state c o' = Some (state C)) /\
  (can_access_feature lic "multi_lora" = true ->
   slot_state a o' = Some (state A) /\
   slot_state b o' = Some (state B) /\
   slot_state c o' = Some (state C)).
Proof.
  intros Hp Hnd HA HB HC Hla Hlb Hlc Hta Htb Htc Hmax.
  assert (Hd : a <> d /\ b <> d /\ c <> d /\ a <> b /\ a <> c /\ b <> c /\
               NoDup [a; b; c]).
  { inversion Hnd as [|? ? H1 Hnd1]; subst.
    inversion Hnd1 as [|? ? H2 Hnd2]; subst.
    inversion Hnd2 as [|? ? H3 Hnd3]; subst. simpl in *.
    repeat split; try (intros ->; tauto).
    constructor; [simpl; tauto|]. constructor; [simpl; tauto|].
    constructor; [simpl; tauto | constructor]. }
  destruct Hd as (Had & Hbd & Hcd & Hab & Hac & Hbc & Hnd3).
  destruct (oldest_of_three o a b c A B C Hp Hnd3 HA HB HC Hla Hlb Hlc
              Hta Htb Htc) as (Hns & Ha & Hb & Hc & Hcount & Hold).
  cbv zeta. unfold slot_state. split; [|split].
  - pose proof (request_model_get lic now d kw o d) as Hg.
    cbv zeta in Hg. rewrite String.eqb_refl in Hg.
    destruct Hg as (slot & Hg & Hs & _). rewrite Hg. simpl. now rewrite Hs.
  - intros Hf.
    assert (Hle : MAX_CONCURRENT_MODELS o <= current_models o) by lia.
    rewrite !(request_model_evicts lic now d kw o a Hle Hf Hold) by auto.
    rewrite String.eqb_refl, Ha, Hb, Hc.
    apply not_eq_sym, String.eqb_neq in Hab, Hac. rewrite Hab, Hac.
    repeat split; reflexivity.
  - intros Ht.
    rewrite !(request_model_keeps lic now d kw o (or_intror (or_introl Ht)))
      by auto.
    rewrite Ha, Hb, Hc. repeat split; reflexivity.
Qed.

Lemma C2_witness :
  let o := exec_all
             [Request architect 1 "A" false; Release 1 "A";
              Request architect 2 "B" false; Release 2 "B";
              Request architect 3 "C" false; Release 3 "C"]
             (__init__ architect) in
  let o' := snd (request_model ronin 4 "D" false o) in
  MAX_CONCURRENT_MODELS o = 3 /\
  can_access_feature ronin "multi_lora" = false /\
  slot_state "A" o' = Some COLD /\
  slot_state "B" o' = Some COOLING /\
  slot_state "C" o' = Some COOLING.
Proof.
  intros o o'.
  split; [reflexivity|]. split; [reflexivity|].
  refine (proj1 (proj2
    (C2_request_evicts_least_recently_used ronin 4 false o "A" "B" "C" "D"
       {| name := "A"; state := COOLING; last_used := 1; keep_warm := false;
          memory_mb := 1024 |}
       {| name := "B"; state := COOLING; last_used := 2; keep_warm := false;
          memory_mb := 1024 |}
       {| name := "C"; state := COOLING; last_used := 3; keep_warm := false;
          memory_mb := 1024 |}
       _ _ _ _ _ _ _ _ _ _ _ _)) _);
    try reflexivity; try discriminate.
  repeat constructor; simpl; intuition discriminate.
Defined.

(** C2 as stated fails: under the Architect tier, which is what yields the
    limit 3, a fourth request evicts nothing and slot A stays cooling. *)
Lemma C2_counterexample :
  let o := exec_all
             [Request architect 1 "A" false; Release 1 "A";
              Request architect 2 "B" false; Release 2 "B";
              Request architect 3 "C" false; Release 3 "C"]
             (__init__ architect) in
  let o' := snd (request_model architect 4 "D" false o) in
  MAX_CONCURRENT_MODELS o = 3 /\
  option_map last_used (dict_get "A" (_model_slots o)) = Some 1%Q /\
  option_map last_used (dict_get "B" (_model_slots o)) = Some 2%Q /\
  option_map last_used (dict_get "C" (_model_slots o)) = Some 3%Q /\
  _active_locks o = [] /\
  slot_state "A" o = Some COOLING /\
  slot_state "A" o' = Some COOLING /\ slot_state "A" o' <> Some COLD /\
  current_models o' = 4.
Proof.
  vm_compute. repeat split; try reflexivity; discriminate.
Qed.

(** ** The inference worker *)

Section WorkerFacts.
Import InferenceProcess.
Context {RT : Runtime}.

Lemma set_world_same (w : Worker) : set_world (world w) w = w.
Proof. now destruct w. Qed.

Lemma load_model_loaded (path : string) (w : Worker) :
  loaded path w -> _load_model path w = (Ok tt, w).
Proof.
  intros [Hl Hc]. unfold _load_model. rewrite Hc. simpl.
  rewrite String.eqb_refl. destruct (_llm w); [reflexivity | congruence].
Qed.

Lemma load_model_ok (path : string) (w w1 : Worker) :
  _load_model path w = (Ok tt, w1) ->
  loaded path w1 /\ result_queue w1 = result_queue w.
Proof.
  unfold _load_model, loaded.
  destruct (is_none (_llm w)
            || negb (opt_string_eqb (_current_model w) (Some path))) eqn:E.
  - destruct (Llama _ _ _ _) as [[llm|e] wd]; [|discriminate].
    intros [= <-]. simpl. repeat split; congruence.
  - intros [= <-]. apply orb_false_elim in E as [E1 E2].
    apply negb_false_iff in E2.
    destruct (_llm w); [|discriminate].
    destruct (_current_model w) as [p|]; [|discriminate]. simpl in E2.
    apply String.eqb_eq in E2. subst. repeat split; congruence.
Qed.

Lemma get_grammar_total (md : string) (gp : option string) (w : Worker) :
  exists g wd, _get_grammar md gp w = (Ok g, set_world wd w).
Proof.
  unfold _get_grammar.
  destruct (truthy _) as [p|];
    [|exists None, (world w); now rewrite set_world_same].
  destruct (path_exists (world w) p);
    [|exists None, (world w); now rewrite set_world_same].
  destruct (LlamaGrammar_from_file p (world w)) as [[g|e] wd]; eauto.
Qed.

Lemma try_llm_total (fp : string) (g : option Grammar) (mt : Z) (temp : Q)
  (w : Worker) :
  exists r wd, try_llm fp g mt temp w = (Ok r, set_world wd w).
Proof.
  unfold try_llm. destruct (_llm w) as [llm|].
  - destruct (llm_call _ _ _ _ _ _ _) as [[out|e] wd]; eauto.
  - eexists _, (world w). now rewrite set_world_same.
Qed.

(** [_generate] raises exactly when loading the model raises; otherwise it
    returns, and leaves the loaded model and the result queue alone. *)
Lemma generate_cases (task : Task) (w : Worker) :
  match _load_model (get_default (model_path task) DEFAULT_MODEL_PATH) w with
  | (Ok _, w1) => exists r wd, _generate task w = (Ok r, set_world wd w1)
  | (Raise e, w1) => _generate task w = (Raise e, w1)
  end.
Proof.
  unfold _generate, bind.
  destruct (_load_model _ w) as [[[]|e] w1]; [|reflexivity].
  destruct (get_grammar_total (get_default (mode task) "prose")
              (grammar_path task) w1) as (g & wd & ->).
  match goal with
  | |- context [try_llm ?fp ?g ?mt ?t ?w0] =>
      destruct (try_llm_total fp g mt t w0) as (r & wd' & ->)
  end.
  exists r, wd'. reflexivity.
Qed.

Lemma generate_loaded (task : Task) (w w1 : Worker) :
  _load_model (get_default (model_path task) DEFAULT_MODEL_PATH) w
  = (Ok tt, w1) ->
  exists r w2,
    _generate task w = (Ok r, w2) /\
    loaded (get_default (model_path task) DEFAULT_MODEL_PATH) w2 /\
    result_queue w2 = result_queue w.
Proof.
  intros Hl. pose proof (generate_cases task w) as H. rewrite Hl in H.
  destruct H as (r & wd & H). apply load_model_ok in Hl as [Hl Hq].
  exists r, (set_world wd w1). repeat split; auto; apply Hl.
Qed.

(** A generate task at the head of the queue whose [_generate] returns: its
    result is put on the result queue and the loop goes on. *)
Lemma run_generate_ok (task : Task) (rest : list (option Task))
  (w w2 : Worker) (r : GenResult) :
  get_default (type task) "generate" = "generate"%string ->
  _generate task w = (Ok r, w2) ->
  run (Some task :: rest) w = run rest (snd (put (Single r) w2)).
Proof.
  intros Ht Hg. unfold run. simpl. rewrite Ht. simpl.
  unfold bind at 1. rewrite Hg. reflexivity.
Qed.

(** [_load_model] against the runtime. *)
Lemma load_model_needed (path : string) (w : Worker) :
  needs_load path w = true ->
  _load_model path w
  = match Llama path 2048 (gpu_layers w) (world w) with
    | (Ok llm, wd) =>
        (Ok tt, set_model (Some llm) (Some path) (set_world wd w))
    | (Raise e, wd) => (Raise e, set_world wd w)
    end.
Proof.
  unfold needs_load, _load_model, gpu_layers. intros ->. reflexivity.
Qed.

Lemma load_model_not_needed (path : string) (w : Worker) :
  needs_load path w = false -> _load_model path w = (Ok tt, w).
Proof. unfold needs_load, _load_model. intros ->. reflexivity. Qed.

Lemma load_model_ready (path : string) (w w1 : Worker) (llm : Model) :
  model_ready path w llm w1 ->
  _load_model path w = (Ok tt, w1) /\
  _llm w1 = Some llm /\ needs_load path w1 = false.
Proof.
  intros [Hn Hl|wd Hn Hl].
  - rewrite load_model_not_needed by exact Hn. auto.
  - rewrite load_model_needed, Hl by exact Hn.
    split; [reflexivity|]. split; [reflexivity|].
    unfold needs_load. simpl. now rewrite String.eqb_refl.
Qed.

Lemma load_model_fails (path : string) (w : Worker) (e : string)
  (wd : World) :
  needs_load path w = true ->
  Llama path 2048 (gpu_layers w) (world w) = (Raise e, wd) ->
  _load_model path w = (Raise e, set_world wd w).
Proof. intros Hn Hl. now rewrite load_model_needed, Hl. Qed.

Lemma get_grammar_frame (md : string) (gp : option string) (w wg : Worker)
  (g : option Grammar) :
  _get_grammar md gp w = (Ok g, wg) ->
  _llm wg = _llm w /\ _current_model wg = _current_model w.
Proof.
  destruct (get_grammar_total md gp w) as (g' & wd & ->).
  intros [= _ <-]. split; reflexivity.
Qed.

(** [_generate] once the model is at hand: the result is what the inference
    call, made on the prompt of the task with the grammar found, gives. *)
Lemma generate_run (task : Task) (w w1 wg : Worker) (llm : Model)
  (g : option Grammar) (res : Outcome Output) (wd : World) :
  model_ready (get_default (model_path task) DEFAULT_MODEL_PATH) w llm w1 ->
  _get_grammar (get_default (mode task) "prose") (grammar_path task) w1
  = (Ok g, wg) ->
  llm_call llm (task_prompt task (get_default (prompt task) ""%string)) g
    (get_default (max_tokens task) 256)
    (get_default (temperature task) (7 # 10)%Q) STOP_SEQUENCES (world wg)
  = (res, wd) ->
  _generate task w = (Ok (result_of res), set_world wd wg).
Proof.
  intros Hr Hg Hc. apply load_model_ready in Hr as (Hl & Hm & _).
  unfold _generate, bind. rewrite Hl, Hg. unfold try_llm.
  destruct (get_grammar_frame _ _ _ _ _ Hg) as [-> _]. rewrite Hm.
  unfold task_prompt in Hc. rewrite Hc. now destruct res.
Qed.

Lemma generate_raise (task : Task) (w : Worker) (e : string) (wd : World) :
  needs_load (get_default (model_path task) DEFAULT_MODEL_PATH) w = true ->
  Llama (get_default (model_path task) DEFAULT_MODEL_PATH) 2048
    (gpu_layers w) (world w) = (Raise e, wd) ->
  _generate task w = (Raise e, set_world wd w).
Proof.
  intros Hn Hl. pose proof (generate_cases task w) as H.
  now rewrite (load_model_fails _ _ _ _ Hn Hl) in H.
Qed.

Lemma generate_raise_only (task : Task) (w w' : Worker) (e : string) :
  _generate task w = (Raise e, w') ->
  needs_load (get_default (model_path task) DEFAULT_MODEL_PATH) w = true /\
  exists wd,
    Llama (get_default (model_path task) DEFAULT_MODEL_PATH) 2048
      (gpu_layers w) (world w) = (Raise e, wd) /\
    w' = set_world wd w.
Proof.
  intros Hg. pose proof (generate_cases task w) as H.
  destruct (needs_load (get_default (model_path task) DEFAULT_MODEL_PATH) w)
    eqn:Hn.
  - rewrite load_model_needed in H by exact Hn.
    destruct (Llama _ _ _ _) as [[llm|e'] wd].
    + destruct H as (r & wd' & H). congruence.
    + rewrite H in Hg. injection Hg as <- <-. split; [reflexivity|].
      now exists wd.
  - rewrite load_model_not_needed in H by exact Hn.
    destruct H as (r & wd' & H). congruence.
Qed.

(** What [run] leaves when the task at the head of the queue raises. *)
Lemma run_raise (e : string) (w1 : Worker) :
  set_model None (_current_model (snd (put (ErrorOnly e) w1)))
    (snd (put (ErrorOnly e) w1))
  = {| world := world w1; _llm := None;
       _current_model := _current_model w1;
       result_queue := result_queue w1 ++ [ErrorOnly e] |}.
Proof. reflexivity. Qed.

(** C7. For a generate task at the head of the queue, with the model at
    hand (loaded from the path of the task already, or constructed by the
    runtime now):
    - looking for the grammar never raises;
    - when the inference call raises [e], [_generate] returns the error
      result made of [e] and the text "Generation failed: e", the worker
      puts it on the result queue and goes on with the tasks that follow;
      when the call returns, its output is the result;
    - when reading the grammar file raises, nothing of it reaches the result:
      the call is made without a grammar and its output is an ordinary
      result.
    When a model has to be loaded and the runtime raises [e] on it,
    [_generate] raises [e], the worker puts [{"error": e}] on the result
    queue and [run] ends with the model dropped, the tasks that follow
    untouched; and [_generate] raises in no other case. *)
Theorem C7_worker_contains_inference_errors (task : Task)
  (rest : list (option Task)) (w : Worker) :
  get_default (type task) "generate" = "generate"%string ->
  let path := get_default (model_path task) DEFAULT_MODEL_PATH in
  let md := get_default (mode task) "prose"%string in
  let full_prompt :=
    task_prompt task (get_default (prompt task) ""%string) in
  let mt := get_default (max_tokens task) 256 in
  let temp := get_default (temperature task) (7 # 10)%Q in
  (forall w1, exists g wd,
     _get_grammar md (grammar_path task) w1 = (Ok g, set_world wd w1)) /\
  (forall llm w1 g wg,
     model_ready path w llm w1 ->
     _get_grammar md (grammar_path task) w1 = (Ok g, wg) ->
     (forall e wd,
        llm_call llm full_prompt g mt temp STOP_SEQUENCES (world wg)
        = (Raise e, wd) ->
        let r := GenerationFailed e ("Generation failed: " ++ e)%string in
        _generate task w = (Ok r, set_world wd wg) /\
        run (Some task :: rest) w
        = run rest (snd (put (Single r) (set_world wd wg)))) /\
     (forall out wd,
        llm_call llm full_prompt g mt temp STOP_SEQUENCES (world wg)
        = (Ok out, wd) ->
        _generate task w = (Ok (Generated out), set_world wd wg) /\
        run (Some task :: rest) w
        = run rest (snd (put (Single (Generated out)) (set_world wd wg))))) /\
  (forall llm w1 p e wdg out wd,
     model_ready path w llm w1 ->
     grammar_file task = Some p ->
     path_exists (world w1) p = true ->
     LlamaGrammar_from_file p (world w1) = (Raise e, wdg) ->
     llm_call llm full_prompt None mt temp STOP_SEQUENCES wdg
     = (Ok out, wd) ->
     _generate task w = (Ok (Generated out), set_world wd (set_world wdg w1)) /\
     run (Some task :: rest) w
     = run rest (snd (put (Single (Generated out))
                        (set_world wd (set_world wdg w1))))) /\
  (forall e wd,
     needs_load path w = true ->
     Llama path 2048 (gpu_layers w) (world w) = (Raise e, wd) ->
     _generate task w = (Raise e, set_world wd w) /\
     run (Some task :: rest) w
     = (Terminated,
        {| world := wd; _llm := None; _current_model := _current_model w;
           result_queue := result_queue w ++ [ErrorOnly e] |})) /\
  (forall e w',
     _generate task w = (Raise e, w') ->
     needs_load path w = true /\
     exists wd,
       Llama path 2048 (gpu_layers w) (world w) = (Raise e, wd) /\
       w' = set_world wd w).
Proof.
  intros Ht. cbv zeta. split; [|split; [|split; [|split]]].
  - intros w1. apply get_grammar_total.
  - intros llm w1 g wg Hr Hg. split.
    + intros e wd Hc. pose proof (generate_run task w w1 wg llm g _ wd Hr Hg Hc)
        as H.
      split; [exact H | now apply run_generate_ok].
    + intros out wd Hc.
      pose proof (generate_run task w w1 wg llm g _ wd Hr Hg Hc) as H.
      split; [exact H | now apply run_generate_ok].
  - intros llm w1 p e wdg out wd Hr Hp Hex Hgr Hc.
    assert (Hg : _get_grammar (get_default (mode task) "prose")
                   (grammar_path task) w1 = (Ok None, set_world wdg w1)).
    { unfold _get_grammar. unfold grammar_file in Hp. rewrite Hp, Hex, Hgr.
      reflexivity. }
    pose proof (generate_run task w w1 _ llm None (Ok out) wd Hr Hg Hc) as H.
    split; [exact H | now apply run_generate_ok].
  - intros e wd Hn Hl. pose proof (generate_raise task w e wd Hn Hl) as Hg.
    split; [exact Hg|].
    unfold run. simpl. rewrite Ht. simpl. unfold bind at 1. rewrite Hg.
    reflexivity.
  - intros e w'. apply generate_raise_only.
Qed.

(** One turn of the loop of [_handle_batch_generate], with the model at
    hand. *)
Lemma batch_step (task : Task) (p : string) (w w1 : Worker) (llm : Model) :
  model_ready (get_default (model_path task) DEFAULT_MODEL_PATH) w llm w1 ->
  exists g wg res wd,
    _get_grammar (get_default (mode task) "prose") (grammar_path task) w1
    = (Ok g, wg) /\
    llm_call llm (task_prompt task p) g (get_default (max_tokens task) 256)
      (get_default (temperature task) (7 # 10)%Q) STOP_SEQUENCES (world wg)
    = (res, wd) /\
    _generate (with_prompt task p) w = (Ok (result_of res), set_world wd wg) /\
    model_ready (get_default (model_path task) DEFAULT_MODEL_PATH)
      (set_world wd wg) llm (set_world wd wg).
Proof.
  intros Hr.
  destruct (get_grammar_total (get_default (mode task) "prose")
              (grammar_path task) w1) as (g & wd0 & Hg).
  destruct (llm_call llm (task_prompt task p) g
              (get_default (max_tokens task) 256)
              (get_default (temperature task) (7 # 10)%Q) STOP_SEQUENCES
              (world (set_world wd0 w1))) as [res wd] eqn:Hc.
  exists g, (set_world wd0 w1), res, wd.
  split; [exact Hg|]. split; [exact Hc|]. split.
  - exact (generate_run (with_prompt task p) w w1 _ llm g res wd Hr Hg Hc).
  - apply load_model_ready in Hr as (_ & Hm & Hn).
    constructor; [exact Hn | exact Hm].
Qed.

(** The loop of [_handle_batch_generate], with the model at hand: every
    prompt gets its entry, appended to the entries so far. *)
Lemma batch_loop_runs (task : Task) (llm : Model) (ps : list string) :
  forall (i : nat) (acc : list BatchEntry) (w w1 : Worker),
    model_ready (get_default (model_path task) DEFAULT_MODEL_PATH) w llm w1 ->
    ps <> [] ->
    exists es w',
      batch_loop task i ps acc w = (Ok (acc ++ es), w') /\
      branch_runs task llm w1 i ps es w' /\
      map branch es = seq i (List.length ps) /\
      map branch_prompt es = ps.
Proof.
  induction ps as [|p ps IH]; intros i acc w w1 Hr Hne; [congruence|].
  destruct (batch_step task p w w1 llm Hr)
    as (g & wg & res & wd & Hg & Hc & Hgen & Hr').
  cbn [batch_loop]. unfold bind. rewrite Hgen.
  destruct ps as [|p' ps].
  - exists [{| branch := i; branch_prompt := p;
               branch_output := result_of res |}], (set_world wd wg).
    split; [reflexivity|]. split; [|split; reflexivity].
    econstructor; [exact Hg | exact Hc | constructor].
  - destruct (IH (S i)
                (list_append acc
                   {| branch := i; branch_prompt := p;
                      branch_output := result_of res |})
                _ _ Hr') as (es & w' & Hb & Hbr & Hi & Hp);
      [discriminate|].
    exists ({| branch := i; branch_prompt := p;
               branch_output := result_of res |} :: es), w'.
    split; [|split; [|split]].
    + rewrite Hb. unfold list_append. now rewrite <- app_assoc.
    + econstructor; [exact Hg | exact Hc | exact Hbr].
    + cbn [map branch List.length seq]. now rewrite Hi.
    + cbn [map branch_prompt]. now rewrite Hp.
Qed.

(** C9. A batch without prompts returns the empty batch and loads nothing.
    For a batch with prompts:
    - with the model at hand (loaded from the path of the task already, or
      constructed by the runtime at the first prompt), the batch result has
      one entry per prompt, in the order of the prompts, numbered from
      zero; the inference call is made once for each prompt, on the prompt
      built from it, and the entry holds the output of that call, or the
      error result of the exception that call raised, whatever the calls
      for the other prompts did;
    - when a model has to be loaded and the runtime raises [e] on it, the
      batch raises [e] at its first prompt and has no result at all: the
      worker puts [{"error": e}] on the result queue and [run] ends. *)
Theorem C9_batch_generate_one_entry_per_prompt (task : Task) (w : Worker) :
  let path := get_default (model_path task) DEFAULT_MODEL_PATH in
  let ps := get_default (prompts task) [] in
  (ps = [] -> _handle_batch_generate task w = (Ok (Batch []), w)) /\
  (forall llm w1,
     ps <> [] -> model_ready path w llm w1 ->
     exists results w',
       _handle_batch_generate task w = (Ok (Batch results), w') /\
       List.length results = List.length ps /\
       map branch results = seq 0 (List.length ps) /\
       map branch_prompt results = ps /\
       branch_runs task llm w1 0 ps results w') /\
  (forall e wd,
     ps <> [] -> needs_load path w = true ->
     Llama path 2048 (gpu_layers w) (world w) = (Raise e, wd) ->
     _handle_batch_generate task w = (Raise e, set_world wd w) /\
     forall rest,
       type task = Some "batch_generate"%string ->
       run (Some task :: rest) w
       = (Terminated,
          {| world := wd; _llm := None; _current_model := _current_model w;
             result_queue := result_queue w ++ [ErrorOnly e] |})).
Proof.
  cbv zeta. split; [|split].
  - intros Hps. unfold _handle_batch_generate. rewrite Hps. reflexivity.
  - intros llm w1 Hne Hr.
    destruct (batch_loop_runs task llm (get_default (prompts task) []) 0 []
                w w1 Hr Hne) as (es & w' & Hb & Hbr & Hi & Hp).
    exists es, w'. split; [|split; [|split; [|split]]]; auto.
    + unfold _handle_batch_generate, bind. rewrite Hb. reflexivity.
    + rewrite <- Hp. now rewrite length_map.
  - intros e wd Hne Hn Hl.
    assert (Hb : _handle_batch_generate task w = (Raise e, set_world wd w)).
    { unfold _handle_batch_generate, bind.
      destruct (get_default (prompts task) []) as [|p ps]; [congruence|].
      cbn [batch_loop]. unfold bind.
      now rewrite (generate_raise (with_prompt task p) w e wd Hn Hl). }
    split; [exact Hb|]. intros rest Ht.
    unfold run. cbn [loop]. rewrite Ht. simpl. unfold bind at 1.
    rewrite Hb. reflexivity.
Qed.

End WorkerFacts.

Section WorkerExamples.
Import InferenceProcess.

Lemma C7_witness :
  let task := generate_task "boom" in
  let rest := [Some status_task] in
  get_default (type task) "generate" = "generate"%string /\
  exists w' : @Worker demo_runtime,
    run (Some task :: rest) fresh_worker = run rest w' /\
    result_queue w'
    = [Single (GenerationFailed "llama_decode returned 1"
                 "Generation failed: llama_decode returned 1")].
Proof.
  intros task rest. split; [reflexivity|]. eexists. split.
  - refine (proj2 (proj1 (proj1 (proj2
      (C7_worker_contains_inference_errors (RT := demo_runtime)
         task rest fresh_worker eq_refl))
      DEFAULT_MODEL_PATH _ None _
      (ready_by_load (RT := demo_runtime) DEFAULT_MODEL_PATH fresh_worker
         DEFAULT_MODEL_PATH tt eq_refl eq_refl)
      eq_refl) "llama_decode returned 1"%string tt eq_refl)).
  - reflexivity.
Defined.

(** C7 as stated fails for an exception of the grammar reader: the runtime
    raises while the generate task is executed, and the result the worker
    puts is an ordinary one, with no error in it. *)
Lemma C7_counterexample :
  let w := @Build_Worker broken_grammar_runtime tt None None [] in
  let task := screenplay_task "INT. LAB" in
  (grammar_file task = Some "./core/grammars/screenplay.gbnf"%string /\
   path_exists (world w) "./core/grammars/screenplay.gbnf" = true /\
   LlamaGrammar_from_file "./core/grammars/screenplay.gbnf" (world w)
   = (Raise "error parsing grammar file"%string, tt)) /\
  exists w',
    run [Some task] w = (Running, w') /\
    result_queue w'
    = [Single (Generated ("Once upon a time"%string
                          : @Output broken_grammar_runtime))] /\
    forall e text, result_queue w' <> [Single (GenerationFailed e text)].
Proof.
  cbv zeta. split; [repeat split|].
  eexists. split; [reflexivity|]. split; [reflexivity|].
  intros e text H. discriminate H.
Qed.

Lemma C9_witness :
  let task := batch_task ["a"; "boom"; "c"]%string in
  let ps := ["a"; "boom"; "c"]%string in
  let w1 := @Build_Worker demo_runtime tt (Some DEFAULT_MODEL_PATH)
              (Some DEFAULT_MODEL_PATH) [] in
  (get_default (prompts task) [] <> [] /\
   @model_ready demo_runtime DEFAULT_MODEL_PATH fresh_worker
     DEFAULT_MODEL_PATH w1) /\
  exists results w',
    _handle_batch_generate task fresh_worker = (Ok (Batch results), w') /\
    List.length results = 3%nat /\
    map branch results = [0; 1; 2]%nat /\
    map branch_prompt results = ps /\
    @branch_runs demo_runtime task DEFAULT_MODEL_PATH w1 0 ps results w'.
Proof.
  intros task ps w1.
  assert (Hne : get_default (prompts task) [] <> []) by discriminate.
  assert (Hr : @model_ready demo_runtime DEFAULT_MODEL_PATH fresh_worker
                 DEFAULT_MODEL_PATH w1)
    by exact (ready_by_load (RT := demo_runtime) DEFAULT_MODEL_PATH
                fresh_worker DEFAULT_MODEL_PATH tt eq_refl eq_refl).
  split; [split; [exact Hne | exact Hr]|].
  exact (proj1 (proj2 (C9_batch_generate_one_entry_per_prompt
                         (RT := demo_runtime) task fresh_worker))
           DEFAULT_MODEL_PATH w1 Hne Hr).
Defined.

(** C9 as stated fails when the model cannot be loaded: a batch of two
    prompts produces no batch result and no entry, only the terminal
    error. *)
Lemma C9_counterexample :
  let task := missing_model_batch ["a"; "b"]%string in
  get_default (prompts task) [] = ["a"; "b"]%string /\
  _handle_batch_generate task fresh_worker
  = (Raise "Model path does not exist"%string, fresh_worker) /\
  (forall results w',
     _handle_batch_generate task fresh_worker <> (Ok (Batch results), w')) /\
  fst (run [Some task] fresh_worker) = Terminated /\
  result_queue (snd (run [Some task] fresh_worker))
  = [ErrorOnly "Model path does not exist"].
Proof.
  cbv zeta. split; [reflexivity|]. split; [reflexivity|].
  split; [|split; reflexivity].
  intros results w' H. discriminate H.
Qed.

(** A batch whose second prompt makes the inference call fail: the second
    entry is the error result, the first and the third are generated. *)
Example batch_with_failing_branch :
  fst (_handle_batch_generate (batch_task ["a"; "boom"; "c"]%string)
         fresh_worker)
  = Ok (Batch
          [ {| branch := 0; branch_prompt := "a";
               branch_output := Generated ("Once upon a time"%string : @Output demo_runtime) |};
            {| branch := 1; branch_prompt := "boom";
               branch_output :=
                 GenerationFailed "llama_decode returned 1"
                   "Generation failed: llama_decode returned 1" |};
            {| branch := 2; branch_prompt := "c";
               branch_output := Generated ("Once upon a time"%string : @Output demo_runtime) |} ]).
Proof. reflexivity. Qed.

(** A model file that cannot be loaded ends the worker: the error is the last
    message on the result queue and the status probe behind it gets no
    answer. *)
Example run_with_missing_model :
  let missing :=
    {| type := Some "generate"%string; prompt := Some "Once"%string;
       prompts := None; mode := Some "prose"%string; max_tokens := None;
       temperature := None; grammar_path := None;
       model_path := Some "./models/missing.gguf"%string; context := None;
       shadow_nodes := None; use_shadow_nodes := false |} in
  let end_state := run [Some missing; Some status_task] fresh_worker in
  fst end_state = Terminated /\
  result_queue (snd end_state) = [ErrorOnly "Model path does not exist"].
Proof. split; reflexivity. Qed.

End WorkerExamples.


(** * Further properties *)

(** ** License keys, tiers and features *)

Section LicenseFacts.
Import LicenseValidator.

Lemma prefix_app (p s : string) : String.prefix p (p ++ s)%string = true.
Proof.
  induction p as [|a p IH]; simpl.
  - now destruct s.
  - destruct (ascii_dec a a); [exact IH | congruence].
Qed.

Lemma prefix_inv (p k : string) :
  String.prefix p k = true -> exists s, k = (p ++ s)%string.
Proof.
  revert k. induction p as [|a p IH]; intros k H.
  - now exists k.
  - destruct k as [|b k]; simpl in H; [discriminate|].
    destruct (ascii_dec a b) as [->|]; [|discriminate].
    destruct (IH k H) as [s ->]. now exists s.
Qed.

(** No key starts with both paid prefixes. *)
Lemma paid_prefixes_exclusive (key : string) :
  String.prefix "HRTH_ARCHITECT_" key = true ->
  String.prefix "HRTH_SHOWRUNNER_" key = false.
Proof.
  intros H. apply prefix_inv in H as [s ->]. reflexivity.
Qed.

Lemma get_tier_cases (key : string) :
  (get_tier key = ARCHITECT /\ String.eqb key "" = false /\
   String.prefix "HRTH_ARCHITECT_" key = true /\
   String.prefix "HRTH_SHOWRUNNER_" key = false /\
   _validate_key_format key = (true, ARCHITECT)) \/
  (get_tier key = SHOWRUNNER /\ String.eqb key "" = false /\
   String.prefix "HRTH_ARCHITECT_" key = false /\
   String.prefix "HRTH_SHOWRUNNER_" key = true /\
   _validate_key_format key = (true, SHOWRUNNER)) \/
  (get_tier key = RONIN /\
   (String.eqb key "" = true \/
    String.prefix "HRTH_ARCHITECT_" key = false /\
    String.prefix "HRTH_SHOWRUNNER_" key = false) /\
   _validate_key_format key = (false, RONIN)).
Proof.
  unfold get_tier, _validate_key_format, KEY_PREFIXES.
  destruct (String.eqb key "") eqn:E; [right; right; auto|].
  cbn [find fst].
  destruct (String.prefix "HRTH_ARCHITECT_" key) eqn:Ha.
  - left. pose proof (paid_prefixes_exclusive key Ha). auto.
  - destruct (String.prefix "HRTH_SHOWRUNNER_" key) eqn:Hs.
    + right; left. auto.
    + right; right. auto.
Qed.

(** X1. The tier of a key is decided by its prefix alone: a key is of the
    Architect tier exactly when it starts with HRTH_ARCHITECT_, of the
    Showrunner tier exactly when it starts with HRTH_SHOWRUNNER_, whatever
    follows the prefix; every other key, the empty one included, is of the
    free tier, and the validity flag is set exactly for the paid tiers. *)
Theorem X1_key_prefix_decides_tier (key : string) :
  (get_tier key = ARCHITECT <->
   exists s, key = ("HRTH_ARCHITECT_" ++ s)%string) /\
  (get_tier key = SHOWRUNNER <->
   exists s, key = ("HRTH_SHOWRUNNER_" ++ s)%string) /\
  (fst (_validate_key_format key) = true <-> get_tier key <> RONIN) /\
  (is_pro key = true <-> get_tier key <> RONIN) /\
  get_tier "" = RONIN.
Proof.
  assert (Ha : forall s, get_tier ("HRTH_ARCHITECT_" ++ s) = ARCHITECT).
  { intros s. unfold get_tier, _validate_key_format, KEY_PREFIXES.
    cbn [find fst]. rewrite prefix_app. reflexivity. }
  assert (Hs : forall s, get_tier ("HRTH_SHOWRUNNER_" ++ s) = SHOWRUNNER).
  { intros s. unfold get_tier, _validate_key_format, KEY_PREFIXES.
    cbn [find fst].
    assert (E : String.prefix "HRTH_ARCHITECT_" ("HRTH_SHOWRUNNER_" ++ s)
                = false) by reflexivity.
    rewrite E, prefix_app. reflexivity. }
  split; [|split; [|split; [|split]]].
  - split; [|intros [s ->]; apply Ha].
    destruct (get_tier_cases key)
      as [(_ & _ & H & _)|[(E & _)|(E & _)]]; try congruence.
    intros _. now apply prefix_inv.
  - split; [|intros [s ->]; apply Hs].
    destruct (get_tier_cases key)
      as [(E & _)|[(_ & _ & _ & H & _)|(E & _)]]; try congruence.
    intros _. now apply prefix_inv.
  - destruct (get_tier_cases key)
      as [(E & _ & _ & _ & V)|[(E & _ & _ & _ & V)|(E & _ & V)]];
      rewrite E, V; simpl; split; congruence.
  - unfold is_pro. destruct (get_tier key); simpl; split; congruence.
  - reflexivity.
Qed.

Lemma X1_witness :
  get_tier "HRTH_ARCHITECT_TEST_01" = ARCHITECT /\
  exists s, "HRTH_ARCHITECT_TEST_01"%string = ("HRTH_ARCHITECT_" ++ s)%string.
Proof.
  split; [reflexivity|].
  apply (proj1 (proj1 (X1_key_prefix_decides_tier "HRTH_ARCHITECT_TEST_01"))).
  reflexivity.
Defined.

(** The lists of [FEATURE_TIERS] are closed upwards and, when not empty,
    hold the highest tier. *)
Lemma feature_tiers_upward :
  Forall
    (fun ft =>
       implb (tier_in RONIN (snd ft)) (tier_in ARCHITECT (snd ft))
       && implb (tier_in ARCHITECT (snd ft)) (tier_in SHOWRUNNER (snd ft))
       && tier_in SHOWRUNNER (snd ft) = true)
    FEATURE_TIERS.
Proof. repeat constructor. Qed.

Lemma feature_tiers_get (f : string) (ts : list LicenseTier) :
  dict_get f FEATURE_TIERS = Some ts ->
  (tier_in RONIN ts = true -> tier_in ARCHITECT ts = true) /\
  (tier_in ARCHITECT ts = true -> tier_in SHOWRUNNER ts = true) /\
  tier_in SHOWRUNNER ts = true.
Proof.
  intros H. apply dict_get_In in H.
  pose proof (proj1 (Forall_forall _ _) feature_tiers_upward _ H) as P.
  simpl in P. apply andb_true_iff in P as [P P3].
  apply andb_true_iff in P as [P1 P2].
  destruct (tier_in RONIN ts), (tier_in ARCHITECT ts),
    (tier_in SHOWRUNNER ts); simpl in *; repeat split; congruence.
Qed.

(** X2. Access is monotone in the tier, for every feature name, known or
    not: what a key may use, every key of the same or a higher tier may
    use. *)
Theorem X2_access_monotone_in_tier (key key' feature : string) :
  (tier_rank (get_tier key) <= tier_rank (get_tier key'))%nat ->
  can_access key feature = true -> can_access key' feature = true.
Proof.
  unfold can_access.
  destruct (dict_get feature FEATURE_TIERS) as [ts|] eqn:E; [|auto].
  destruct (feature_tiers_get feature ts E) as (H1 & H2 & H3).
  destruct ts as [|t ts]; [auto|].
  destruct (get_tier key), (get_tier key'); simpl tier_rank; intros Hle H;
    auto; lia.
Qed.

Lemma X2_witness :
  (tier_rank (get_tier "HRTH_ARCHITECT_A") <=
   tier_rank (get_tier "HRTH_SHOWRUNNER_B"))%nat /\
  can_access "HRTH_SHOWRUNNER_B" "comic_mode" = true.
Proof.
  assert (H : (tier_rank (get_tier "HRTH_ARCHITECT_A") <=
               tier_rank (get_tier "HRTH_SHOWRUNNER_B"))%nat)
    by (vm_compute; lia).
  split; [exact H|].
  apply (X2_access_monotone_in_tier "HRTH_ARCHITECT_A" "HRTH_SHOWRUNNER_B"
           "comic_mode" H).
  reflexivity.
Defined.

(** What a validator holds after calls on the keys [seen]: nothing, or the
    tier and the digest of one of them. *)
Lemma get_tier_cached_step (digest : string -> string) (key : string)
  (v : Validator) (seen : list string) :
  (v = new_validator \/
   exists k, In k seen /\
     v = {| _cached_tier := Some (get_tier k);
            _key_hash := Some (digest k) |}) ->
  (exists k, In k (key :: seen) /\ digest k = digest key /\
     fst (get_tier_cached digest key v) = get_tier k /\
     snd (get_tier_cached digest key v)
     = {| _cached_tier := Some (get_tier k);
          _key_hash := Some (digest k) |}).
Proof.
  intros [->|(k & Hin & ->)]; unfold get_tier_cached; simpl.
  - exists key. repeat split; auto.
  - destruct (String.eqb_spec (digest k) (digest key)) as [E|E]; simpl.
    + exists k. repeat split; auto.
    + exists key. repeat split; auto.
Qed.

Lemma get_tier_calls_state (digest : string -> string) (keys : list string) :
  forall (v : Validator) (seen : list string),
    (v = new_validator \/
     exists k, In k seen /\
       v = {| _cached_tier := Some (get_tier k);
              _key_hash := Some (digest k) |}) ->
    let v' := snd (get_tier_calls digest keys v) in
    v' = new_validator \/
    exists k, In k (keys ++ seen) /\
      v' = {| _cached_tier := Some (get_tier k);
              _key_hash := Some (digest k) |}.
Proof.
  induction keys as [|key keys IH]; intros v seen Hv; simpl.
  - exact Hv.
  - destruct (get_tier_cached_step digest key v seen Hv)
      as (k & Hin & _ & _ & Hs).
    destruct (get_tier_cached digest key v) as [t v1]. simpl in Hs.
    specialize (IH v1 (key :: seen)).
    destruct (get_tier_calls digest keys v1) as [ts v2]. simpl in *.
    destruct IH as [->|(k' & Hin' & ->)]; [right; eauto | now left |].
    right. exists k'. split; [|reflexivity].
    apply in_app_or in Hin' as [H|[<-|H]]; [right | left | right];
      auto using in_or_app.
Qed.

(** X3. The tier cache of [get_tier].  After any calls, made while the
    environment held the keys of [keys] in turn, a call made while it holds
    [key] returns the tier of [key] or of an earlier key with the same
    digest; so it returns the tier of [key] whenever no earlier key of
    another tier shares its digest. *)
Theorem X3_tier_cache_coherent (digest : string -> string)
  (keys : list string) (key : string) :
  let v := snd (get_tier_calls digest keys new_validator) in
  let t := fst (get_tier_cached digest key v) in
  (exists k, In k (key :: keys) /\ digest k = digest key /\
             t = get_tier k) /\
  ((forall k, In k keys -> digest k = digest key ->
              get_tier k = get_tier key) ->
   t = get_tier key).
Proof.
  cbv zeta.
  pose proof (get_tier_calls_state digest keys new_validator []
                (or_introl eq_refl)) as Hv.
  cbv zeta in Hv. rewrite app_nil_r in Hv.
  destruct (get_tier_cached_step digest key _ keys Hv)
    as (k & Hin & Hd & Ht & _).
  split; [eauto|].
  intros Hcol. rewrite Ht. destruct Hin as [<-|Hin]; auto.
Qed.

Lemma X3_witness :
  let digest := fun s : string => substring 0 16 s in
  let keys := ["HRTH_ARCHITECT_TEST_01"; ""]%string in
  (forall k, In k keys -> digest k = digest "HRTH_SHOWRUNNER_TEST_01"%string ->
             get_tier k = get_tier "HRTH_SHOWRUNNER_TEST_01") /\
  fst (get_tier_cached digest "HRTH_SHOWRUNNER_TEST_01"
         (snd (get_tier_calls digest keys new_validator)))
  = SHOWRUNNER.
Proof.
  intros digest keys.
  assert (H : forall k, In k keys ->
                digest k = digest "HRTH_SHOWRUNNER_TEST_01"%string ->
                get_tier k = get_tier "HRTH_SHOWRUNNER_TEST_01").
  { intros k [<-|[<-|[]]] E; vm_compute in E; discriminate. }
  split; [exact H|].
  exact (proj2 (X3_tier_cache_coherent digest keys
                  "HRTH_SHOWRUNNER_TEST_01") H).
Defined.

Lemma value_injective (t t' : LicenseTier) : value t = value t' -> t = t'.
Proof. destruct t, t'; simpl; intros H; congruence || discriminate. Qed.

(** X4. [check_access] grants exactly what [can_access] grants.  A grant
    names the current tier and says "Access Granted"; a denial names the
    Architect or the Showrunner tier, and a key of the tier it names may use
    the feature. *)
Theorem X4_check_access_names_unlocking_tier (key feature : string) :
  let a := check_access key feature in
  allowed a = can_access key feature /\
  (allowed a = true ->
   tier_required a = value (get_tier key) /\
   message a = "Access Granted"%string) /\
  (allowed a = false ->
   (tier_required a = "architect"%string \/
    tier_required a = "showrunner"%string) /\
   forall key', value (get_tier key') = tier_required a ->
                can_access key' feature = true).
Proof.
  unfold check_access, can_access.
  destruct (dict_get feature FEATURE_TIERS) as [ts|] eqn:E;
    [|cbv zeta; simpl; repeat split; auto; discriminate].
  destruct (feature_tiers_get feature ts E) as (_ & _ & H3).
  destruct ts as [|t0 ts]; [cbv zeta; simpl; repeat split; auto; discriminate|].
  cbv zeta. rewrite orb_false_l. remember (t0 :: ts) as l eqn:El.
  destruct (tier_in (get_tier key) l) eqn:Hin; cbn [allowed tier_required
    message].
  - subst l. repeat split; auto; discriminate.
  - split; [now subst l|]. split; [discriminate|]. intros _.
    destruct (tier_in ARCHITECT l) eqn:Ha.
    + split; [now left|]. intros key' Hv.
      change "architect"%string with (value ARCHITECT) in Hv.
      apply value_injective in Hv. rewrite Hv. now subst l.
    + split; [now right|]. intros key' Hv.
      change "showrunner"%string with (value SHOWRUNNER) in Hv.
      apply value_injective in Hv. rewrite Hv. now subst l.
Qed.

Lemma X4_witness :
  let a := check_access "" "team_sync" in
  allowed a = false /\
  tier_required a = "showrunner"%string /\
  can_access "HRTH_SHOWRUNNER_TEST_01" "team_sync" = true.
Proof.
  cbv zeta. split; [reflexivity|]. split; [reflexivity|].
  apply (proj2 (proj2 (proj2
    (X4_check_access_names_unlocking_tier "" "team_sync")) eq_refl)
    "HRTH_SHOWRUNNER_TEST_01").
  reflexivity.
Defined.

Lemma filter_split_permutation {A B : Type} (f : A -> B) (p : A -> bool)
  (l : list A) :
  Permutation
    (map f (filter p l) ++ map f (filter (fun x => negb (p x)) l))
    (map f l).
Proof.
  induction l as [|x l IH]; simpl; [constructor|].
  destruct (p x); simpl.
  - now constructor.
  - apply Permutation_sym, Permutation_cons_app. now apply Permutation_sym.
Qed.

(** X5. The features a key unlocks and the features it leaves locked split
    the feature table: together they are the features of the table, none is
    in both, and the unlocked ones are those of the table the key may
    access. *)
Theorem X5_unlocked_and_locked_split_the_table (key : string) :
  Permutation (get_unlocked_features key ++ get_locked_features key)
    (dict_keys FEATURE_TIERS) /\
  (forall f, In f (get_unlocked_features key) ->
             ~ In f (get_locked_features key)) /\
  (forall f, In f (get_unlocked_features key) <->
             In f (dict_keys FEATURE_TIERS) /\ can_access key f = true).
Proof.
  split; [apply filter_split_permutation|].
  unfold get_unlocked_features, get_locked_features, can_access.
  destruct (get_tier key); cbv zeta; split.
  1, 3, 5: intros f Hu Hl; simpl in Hu, Hl;
    repeat (destruct Hu as [<-|Hu]; [intuition discriminate|]); exact Hu.
  all: intros f; split;
    [ intros H; simpl in H;
      repeat (destruct H as [<-|H]; [split; [simpl; tauto | reflexivity]|]);
      destruct H
    | intros [H Hc]; simpl in H;
      repeat (destruct H as [<-|H];
              [first [discriminate Hc | simpl; tauto]|]);
      destruct H ].
Qed.

Lemma license_readers_agree (key : string) :
  App.get_license_tier key = get_tier_name key /\
  ContextEngine.get_license_tier key = get_tier_name key.
Proof.
  unfold App.get_license_tier, ContextEngine.get_license_tier, get_tier_name.
  destruct (get_tier_cases key)
    as [(E & -> & -> & -> & _)|[(E & -> & -> & -> & _)|(E & H & _)]];
    rewrite E; [split; reflexivity | split; reflexivity |].
  destruct H as [->|[-> ->]]; [split; reflexivity|].
  destruct (String.eqb key ""); split; reflexivity.
Qed.

(** X6. The three readers of the license key, in the validator, in the front
    end and in the context engine, return the same tier for every key,
    although they test the two prefixes in different orders. *)
Theorem X6_license_readers_agree (key : string) :
  App.get_license_tier key = get_tier_name key /\
  ContextEngine.get_license_tier key = get_tier_name key.
Proof. exact (license_readers_agree key). Qed.

Lemma dict_get_absent {V : Type} (k : string) (d : list (string * V)) :
  ~ In k (dict_keys d) -> dict_get k d = None.
Proof.
  intros H. apply dict_mem_false_get.
  destruct (dict_mem k d) eqn:E; [|reflexivity].
  apply dict_mem_keys in E. tauto.
Qed.

(** X7. The front end's own [check_feature_access] answers as the
    validator's does, grant and message, for the six features of its table;
    it grants every other feature to every key, among them
    timeline_injection, white_labeling and custom_grammars, which the
    validator denies to the free tier. *)
Theorem X7_front_end_gate_against_validator (key : string) :
  (forall f, In f (dict_keys App.FEATURE_REQUIREMENTS) ->
             App.check_feature_access key f = check_feature_access key f) /\
  (forall f, ~ In f (dict_keys App.FEATURE_REQUIREMENTS) ->
             App.check_feature_access key f
             = (true, "Access Granted"%string)) /\
  (get_tier key = RONIN ->
   forall f, In f ["timeline_injection"; "white_labeling";
                   "custom_grammars"]%string ->
             fst (App.check_feature_access key f) = true /\
             fst (check_feature_access key f) = false).
Proof.
  destruct (license_readers_agree key) as [Ha _].
  split; [|split].
  - intros f Hin. unfold App.check_feature_access, check_feature_access,
      check_access. rewrite Ha. unfold get_tier_name.
    simpl in Hin.
    repeat (destruct Hin as [<-|Hin];
            [destruct (get_tier key); reflexivity|]).
    destruct Hin.
  - intros f Hn. unfold App.check_feature_access.
    now rewrite (dict_get_absent f _ Hn).
  - intros E f Hin.
    unfold App.check_feature_access, check_feature_access, check_access.
    rewrite E. simpl in Hin.
    repeat (destruct Hin as [<-|Hin]; [split; reflexivity|]).
    destruct Hin.
Qed.

Lemma X7_witness :
  get_tier "" = RONIN /\
  fst (App.check_feature_access "" "timeline_injection") = true /\
  fst (check_feature_access "" "timeline_injection") = false.
Proof.
  split; [reflexivity|].
  apply (proj2 (proj2 (X7_front_end_gate_against_validator "")) eq_refl).
  simpl. tauto.
Defined.

(** X8. The context engine's [check_pro_feature] answers as the validator's
    [can_access] does for shadow_nodes, visual_tracking, multi_lora and
    collaboration; it grants every other feature to every key, comic_mode
    and team_sync included. *)
Theorem X8_context_engine_gate_against_validator (key : string) :
  (forall f, In f ["shadow_nodes"; "visual_tracking"; "multi_lora";
                   "collaboration"]%string ->
             ContextEngine.check_pro_feature key f = can_access key f) /\
  (forall f, ~ In f ["shadow_nodes"; "visual_tracking"; "multi_lora";
                     "collaboration"]%string ->
             ContextEngine.check_pro_feature key f = true).
Proof.
  destruct (license_readers_agree key) as [_ Hc].
  split.
  - intros f Hin. unfold ContextEngine.check_pro_feature, can_access.
    rewrite Hc. unfold get_tier_name. simpl in Hin.
    repeat (destruct Hin as [<-|Hin];
            [destruct (get_tier key); reflexivity|]).
    destruct Hin.
  - intros f Hn. unfold ContextEngine.check_pro_feature. simpl in Hn.
    assert (H1 : String.eqb f "shadow_nodes" = false)
      by (apply String.eqb_neq; intros ->; tauto).
    assert (H2 : String.eqb f "visual_tracking" = false)
      by (apply String.eqb_neq; intros ->; tauto).
    assert (H3 : String.eqb f "multi_lora" = false)
      by (apply String.eqb_neq; intros ->; tauto).
    assert (H4 : String.eqb f "collaboration" = false)
      by (apply String.eqb_neq; intros ->; tauto).
    unfold App.str_in. simpl. now rewrite H1, H2, H3, H4.
Qed.

Lemma X8_witness :
  ~ In "comic_mode"%string
      ["shadow_nodes"; "visual_tracking"; "multi_lora";
       "collaboration"]%string /\
  ContextEngine.check_pro_feature "" "comic_mode" = true /\
  can_access "" "comic_mode" = false.
Proof.
  assert (H : ~ In "comic_mode"%string
                  ["shadow_nodes"; "visual_tracking"; "multi_lora";
                   "collaboration"]%string)
    by (simpl; intuition discriminate).
  split; [exact H|]. split; [|reflexivity].
  exact (proj2 (X8_context_engine_gate_against_validator "") "comic_mode" H).
Defined.

End LicenseFacts.

(** ** More on the orchestrator *)

Section OrchestratorFacts.
Import Discipline.

(** X9. The limit and the eviction gate read the same tier: an orchestrator
    constructed under a key has the limit 3 exactly when that key grants
    multi_lora.  So as long as the key is unchanged, an orchestrator with the
    limit 3 never evicts: a request leaves every slot but the requested one
    as it is. *)
Theorem X9_limit_three_is_never_enforced (key : string) (calls : list Call)
  (now : Q) (m : string) (kw : bool) :
  let lic := LicenseKey key in
  let o := exec_all calls (__init__ lic) in
  (MAX_CONCURRENT_MODELS o = 3 <->
   can_access_feature lic "multi_lora" = true) /\
  (MAX_CONCURRENT_MODELS o = 1 <->
   can_access_feature lic "multi_lora" = false) /\
  (MAX_CONCURRENT_MODELS o = 3 ->
   forall n, n <> m ->
     dict_get n (_model_slots (snd (request_model lic now m kw o)))
     = dict_get n (_model_slots o)).
Proof.
  cbv zeta. rewrite exec_all_limit.
  assert (H : (MAX_CONCURRENT_MODELS (__init__ (LicenseKey key)) = 3 /\
               can_access_feature (LicenseKey key) "multi_lora" = true) \/
              (MAX_CONCURRENT_MODELS (__init__ (LicenseKey key)) = 1 /\
               can_access_feature (LicenseKey key) "multi_lora" = false)).
  { unfold __init__, _update_limits, LicenseValidator.is_pro,
      can_access_feature, LicenseValidator.can_access. simpl.
    destruct (LicenseValidator.get_tier key); simpl; auto. }
  destruct H as [[-> Hc]|[-> Hc]]; rewrite Hc.
  - repeat split; auto; try discriminate.
    intros _ n Hn. apply request_model_keeps; auto.
  - repeat split; auto; discriminate.
Qed.

Lemma X9_witness :
  let o := exec_all
             [Request architect 1 "a" false; Release 2 "a";
              Request architect 3 "b" false; Release 4 "b";
              Request architect 5 "c" false; Release 6 "c"]
             (__init__ architect) in
  MAX_CONCURRENT_MODELS o = 3 /\
  dict_get "a" (_model_slots (snd (request_model architect 7 "d" false o)))
  = dict_get "a" (_model_slots o).
Proof.
  intros o. split; [reflexivity|].
  apply (proj2 (proj2
    (X9_limit_three_is_never_enforced "HRTH_ARCHITECT_TEST_01"
       [Request architect 1 "a" false; Release 2 "a";
        Request architect 3 "b" false; Release 4 "b";
        Request architect 5 "c" false; Release 6 "c"] 7 "d" false))).
  - reflexivity.
  - discriminate.
Defined.

(** *** Slot names and memory estimates *)

Lemma meta_ok_modify (k : string) (f : ModelSlot -> ModelSlot) d :
  (forall slot, name (f slot) = name slot /\
                memory_mb (f slot) = memory_mb slot) ->
  meta_ok d -> meta_ok (dict_modify k f d).
Proof.
  intros Hf Hd k0 slot Hin.
  apply In_dict_modify in Hin as [Hin|(v0 & Hin & ->)]; [auto|].
  destruct (Hf v0) as [-> ->]. auto.
Qed.

Lemma meta_ok_make_room lic (o : ResourceOrchestrator) :
  meta_ok (_model_slots o) -> meta_ok (_model_slots (make_room lic o)).
Proof.
  intros H. destruct (make_room_cases lic o) as [->|(_ & _ & k & _ & ->)];
    [exact H|].
  simpl. apply meta_ok_modify; [intros slot; split; reflexivity | exact H].
Qed.

Lemma In_dict_set_key {V : Type} (k k0 : string) (v v0 : V) d :
  In (k, v) (dict_set k0 v0 d) -> In (k, v) d \/ (k = k0 /\ v = v0).
Proof.
  unfold dict_set. destruct (dict_mem k0 d) eqn:Hm.
  - clear Hm. induction d as [|[k1 v1] d IH]; simpl; [tauto|].
    destruct (String.eqb_spec k0 k1) as [->|Hne]; simpl.
    + intros [E|H]; [|tauto]. injection E as <- <-. auto.
    + intros [E|H]; [tauto|]. destruct (IH H); auto.
  - intros H. apply in_app_or in H as [H|[E|[]]]; [auto|].
    injection E as <- <-. auto.
Qed.

Lemma meta_ok_request lic now m kw (o : ResourceOrchestrator) :
  meta_ok (_model_slots o) ->
  meta_ok (_model_slots (snd (request_model lic now m kw o))).
Proof.
  intros H. apply (meta_ok_make_room lic) in H.
  unfold request_model; simpl.
  apply meta_ok_modify; [intros slot; split; reflexivity|].
  destruct (negb (dict_mem m (_model_slots (make_room lic o)))); simpl;
    [|exact H].
  intros k slot Hin. apply In_dict_set_key in Hin as [Hin|[-> ->]]; [auto|].
  split; reflexivity.
Qed.

Lemma meta_ok_sweep t (o : ResourceOrchestrator) :
  meta_ok (_model_slots o) ->
  meta_ok (_model_slots (check_idle_models t o)).
Proof.
  intros H k slot Hin. unfold check_idle_models in Hin; simpl in Hin.
  apply in_map_iff in Hin as ([k0 s0] & E & Hin).
  destruct (check_idle_cases (_active_locks o) t k0 s0) as [E'|(E' & _)];
    rewrite E' in E; injection E as <- <-; [auto|]. simpl. auto.
Qed.

Lemma meta_ok_exec (c : Call) (o : ResourceOrchestrator) :
  meta_ok (_model_slots o) -> meta_ok (_model_slots (exec c o)).
Proof.
  destruct c; cbn [exec]; intros H.
  - now apply meta_ok_request.
  - rewrite release_lock_slots. apply meta_ok_modify; [|exact H].
    intros slot. unfold released. simpl.
    destruct (negb (keep_warm slot)); split; reflexivity.
  - now apply meta_ok_sweep.
  - destruct (generate_text_cases lic now prompt mode use_shadow_nodes tt o)
      as (o1 & Hs & _ & _ & _ & [-> | ->]).
    + now rewrite Hs.
    + apply meta_ok_sweep. now rewrite Hs.
  - unfold collapse_to_zero.
    destruct (worker_is_alive o); simpl; intros k slot Hin;
      apply in_map_iff in Hin as ([k0 s0] & [= <- <-] & Hin); simpl; auto.
  - destruct (worker o); exact H.
Qed.

Lemma reachable_meta_ok (o : ResourceOrchestrator) :
  reachable o -> meta_ok (_model_slots o).
Proof.
  induction 1 as [lic|c o _ IH]; [|now apply meta_ok_exec].
  unfold __init__, _update_limits.
  destruct (get_validator lic) as [key|];
    [destruct (LicenseValidator.is_pro key)|]; intros k slot [].
Qed.

Lemma exec_keys_grow (c : Call) (o : ResourceOrchestrator) :
  exists suffix,
    dict_keys (_model_slots (exec c o)) = dict_keys (_model_slots o) ++ suffix.
Proof.
  destruct c; cbn [exec].
  - rewrite request_model_keys.
    destruct (dict_mem model_name (_model_slots o));
      [exists []; now rewrite app_nil_r | eauto].
  - exists []. rewrite app_nil_r. apply release_lock_frame.
  - exists []. rewrite app_nil_r. apply check_idle_models_frame.
  - exists []. rewrite app_nil_r.
    destruct (generate_text_cases lic now prompt mode use_shadow_nodes tt o)
      as (o1 & Hs & _ & _ & _ & [-> | ->]).
    + now rewrite Hs.
    + rewrite <- Hs. apply check_idle_models_frame.
  - exists []. rewrite app_nil_r. unfold collapse_to_zero.
    destruct (worker_is_alive o); simpl; now apply dict_keys_map_items.
  - exists []. rewrite app_nil_r. now destruct (worker o).
Qed.

(** X15. Slots are created and never removed: whatever the history, the
    names of the table before it are still there, in the same order, with
    any new names after them.  In every reachable state each slot is stored
    under its own name, once, and carries the memory estimate of that name,
    1024 when the name is not in [MODEL_MEMORY]. *)
Theorem X15_slots_persist_with_fixed_metadata (calls : list Call)
  (o : ResourceOrchestrator) :
  (exists suffix,
     dict_keys (_model_slots (exec_all calls o))
     = dict_keys (_model_slots o) ++ suffix) /\
  (reachable o ->
   NoDup (dict_keys (_model_slots o)) /\
   forall k slot,
     In (k, slot) (_model_slots o) ->
     name slot = k /\
     memory_mb slot
     = InferenceProcess.get_default (dict_get k MODEL_MEMORY) 1024).
Proof.
  split.
  - revert o. induction calls as [|c calls IH]; intros o.
    + exists []. now rewrite app_nil_r.
    + destruct (IH (exec c o)) as [s2 E2].
      destruct (exec_keys_grow c o) as [s1 E1].
      exists (s1 ++ s2).
      change (exec_all (c :: calls) o) with (exec_all calls (exec c o)).
      now rewrite E2, E1, app_assoc.
  - intros Hr. split; [apply (reachable_invariant o Hr)|].
    apply (reachable_meta_ok o Hr).
Qed.

Lemma X15_witness :
  let o := exec_all
             [Request ronin 1 "coqui-tts" false; Release 2 "coqui-tts";
              Request ronin 3 "custom" true]
             (__init__ ronin) in
  reachable o /\
  option_map memory_mb (dict_get "coqui-tts" (_model_slots o)) = Some 512 /\
  forall k slot,
    In (k, slot) (_model_slots o) ->
    name slot = k /\
    memory_mb slot
    = InferenceProcess.get_default (dict_get k MODEL_MEMORY) 1024.
Proof.
  intros o.
  assert (Hr : reachable o)
    by (apply reachable_exec_all; apply reachable_init).
  split; [exact Hr|]. split; [reflexivity|].
  exact (proj2 (proj2 (X15_slots_persist_with_fixed_metadata [] o) Hr)).
Defined.

(** X10. [request_model] never returns [None], whatever the license and the
    load: in a reachable state it returns the slot of the requested name,
    warm, stamped with the clock reading, with the keep-warm flag of this
    request and the memory estimate of the name. *)
Theorem X10_request_always_returns_the_slot (lic : LicenseEnv) (now : Q)
  (m : string) (kw : bool) (o : ResourceOrchestrator) :
  reachable o ->
  exists slot,
    fst (request_model lic now m kw o) = Some slot /\
    name slot = m /\ state slot = WARM /\ last_used slot = now /\
    keep_warm slot = kw /\
    memory_mb slot
    = InferenceProcess.get_default (dict_get m MODEL_MEMORY) 1024.
Proof.
  intros Hr.
  assert (Hr' : reachable (exec (Request lic now m kw) o)) by now constructor.
  apply reachable_meta_ok in Hr'. cbn [exec] in Hr'.
  pose proof (request_model_get lic now m kw o m) as Hg.
  cbv zeta in Hg. rewrite String.eqb_refl in Hg.
  destruct Hg as (slot & Hg & Hs & Ht & Hk).
  exists slot. split; [exact Hg|].
  destruct (Hr' m slot (dict_get_In _ _ _ Hg)) as [Hn Hm]. auto.
Qed.

Lemma X10_witness :
  let o := exec_all [Request ronin 1 "m1" false; Request ronin 2 "m2" false]
             (__init__ ronin) in
  reachable o /\
  exists slot,
    fst (request_model ronin 3 "all-MiniLM-L6-v2" true o) = Some slot /\
    name slot = "all-MiniLM-L6-v2"%string /\ state slot = WARM /\
    last_used slot = inject_Z 3 /\ keep_warm slot = true /\
    memory_mb slot
    = InferenceProcess.get_default
        (dict_get "all-MiniLM-L6-v2" MODEL_MEMORY) 1024.
Proof.
  intros o.
  assert (Hr : reachable o)
    by (apply reachable_exec_all; apply reachable_init).
  split; [exact Hr|].
  exact (X10_request_always_returns_the_slot ronin 3 "all-MiniLM-L6-v2" true
           o Hr).
Defined.

(** *** Release *)

(** X11. Releasing a model that was never requested changes nothing: in a
    reachable state, [release_lock] on a name without a slot returns the
    orchestrator as it is. *)
Theorem X11_release_of_unknown_model_is_a_no_op (now : Q) (m : string)
  (o : ResourceOrchestrator) :
  reachable o ->
  dict_mem m (_model_slots o) = false ->
  release_lock now m o = o.
Proof.
  intros Hr Hm. apply reachable_invariant in Hr as (_ & Hlw & _).
  assert (Hl : dict_mem m (_active_locks o) = false).
  { destruct (dict_mem m (_active_locks o)) eqn:E; [|reflexivity].
    specialize (Hlw m E). unfold slot_state in Hlw.
    apply dict_mem_false_get in Hm. rewrite Hm in Hlw. discriminate. }
  unfold release_lock. rewrite Hl. cbv zeta. now rewrite Hm.
Qed.

Lemma X11_witness :
  let o := exec_all [Request ronin 1 "m1" false] (__init__ ronin) in
  (reachable o /\ dict_mem "m2" (_model_slots o) = false) /\
  release_lock 2 "m2" o = o.
Proof.
  intros o.
  assert (Hr : reachable o)
    by (apply reachable_exec_all; apply reachable_init).
  split; [split; [exact Hr | reflexivity]|].
  exact (X11_release_of_unknown_model_is_a_no_op 2 "m2" o Hr eq_refl).
Defined.

Lemma collapse_to_zero_all_cold force (o : ResourceOrchestrator) :
  forall k slot,
    In (k, slot) (_model_slots (collapse_to_zero force o)) ->
    state slot = COLD.
Proof.
  intros k slot Hin. unfold collapse_to_zero in Hin.
  destruct (worker_is_alive o); simpl in Hin;
    apply in_map_iff in Hin as (item & [= <- <-] & _); reflexivity.
Qed.

Lemma all_cold_count (d : list (string * ModelSlot)) :
  (forall k slot, In (k, slot) d -> state slot = COLD) ->
  List.length (filter not_cold (dict_values d)) = 0%nat.
Proof.
  induction d as [|[k slot] d IH]; intros H; simpl; [reflexivity|].
  unfold not_cold at 1. rewrite (H k slot) by now left. simpl.
  apply IH. intros k0 slot0 Hin. apply (H k0 slot0). now right.
Qed.

Lemma collapse_to_zero_dead force (o : ResourceOrchestrator) :
  worker_is_alive (collapse_to_zero force o) = false.
Proof.
  unfold collapse_to_zero. destruct (worker_is_alive o) eqn:E; simpl; auto.
Qed.

(** X12. [release_lock] does not look at the state of the slot: the slot of
    a model that is not kept warm is cooling after the release whatever it
    was before, cold included.  So a release that comes after
    [collapse_to_zero] leaves one slot that is not cold, with no worker
    alive. *)
Theorem X12_release_turns_a_cold_slot_cooling (now : Q) (m : string)
  (o : ResourceOrchestrator) (slot : ModelSlot) :
  dict_get m (_model_slots o) = Some slot ->
  keep_warm slot = false ->
  slot_state m (release_lock now m o) = Some COOLING /\
  forall force,
    let o' := release_lock now m (collapse_to_zero force o) in
    slot_state m (collapse_to_zero force o) = Some COLD /\
    slot_state m o' = Some COOLING /\
    current_models o' = 1 /\
    worker_is_alive o' = false.
Proof.
  intros Hg Hk. split.
  - unfold slot_state. rewrite release_lock_get, String.eqb_refl, Hg.
    simpl. unfold released. simpl. now rewrite Hk.
  - intros force. cbv zeta.
    assert (Hc : dict_get m (_model_slots (collapse_to_zero force o))
                 = Some (set_state COLD slot)).
    { unfold collapse_to_zero.
      destruct (worker_is_alive o); simpl;
        rewrite (dict_get_map_items
                   (fun item => (fst item, set_state COLD (snd item))))
          by reflexivity; simpl; now rewrite Hg. }
    pose proof (collapse_to_zero_dead force o) as Hw.
    pose proof (all_cold_count _ (collapse_to_zero_all_cold force o)) as Ha.
    split; [unfold slot_state; now rewrite Hc|].
    split; [|split].
    + unfold slot_state. rewrite release_lock_get, String.eqb_refl, Hc.
      simpl. unfold released. simpl. now rewrite Hk.
    + unfold current_models. rewrite release_lock_slots.
      pose proof (count_modify m (released now) _ _ Hc) as Hn.
      assert (E1 : not_cold (set_state COLD slot) = false) by reflexivity.
      assert (E2 : not_cold (released now (set_state COLD slot)) = true)
        by (unfold released; simpl; now rewrite Hk).
      rewrite E1, E2 in Hn. lia.
    + destruct (release_lock_frame now m (collapse_to_zero force o))
        as (Hwk & _).
      unfold worker_is_alive in *. rewrite Hwk. exact Hw.
Qed.

Lemma X12_witness :
  let o := exec_all [Request ronin 1 "m1" false] (__init__ ronin) in
  let o' := release_lock 9 "m1" (collapse_to_zero true o) in
  slot_state "m1" o' = Some COOLING /\ current_models o' = 1 /\
  worker_is_alive o' = false.
Proof.
  intros o o'.
  refine (proj2 (proj2 (X12_release_turns_a_cold_slot_cooling 9 "m1" o _ _ _)
                  true));
    reflexivity.
Defined.

(** *** The idle sweep *)

Lemma check_idle_models_pinned t (o : ResourceOrchestrator) m slot :
  dict_get m (_model_slots o) = Some slot ->
  keep_warm slot = true ->
  dict_get m (_model_slots (check_idle_models t o)) = Some slot.
Proof.
  intros Hg Hk. rewrite check_idle_models_get, Hg. cbn [option_map].
  destruct (check_idle_cases (_active_locks o) t m slot)
    as [->|(_ & _ & _ & _ & Hk')]; [reflexivity | congruence].
Qed.

(** X13. Keep-warm exempts a slot from the idle sweep for good: after
    [request_model m] with keep-warm and [release_lock m], the slot is warm,
    and it is still warm after any number of sweeps at any clock
    readings. *)
Theorem X13_kept_warm_slot_survives_every_sweep (lic : LicenseEnv)
  (t0 t1 : Q) (m : string) (sweeps : list Q) (o : ResourceOrchestrator) :
  let o1 := release_lock t1 m (snd (request_model lic t0 m true o)) in
  slot_state m o1 = Some WARM /\
  slot_state m (exec_all (map SweepIdle sweeps) o1) = Some WARM.
Proof.
  cbv zeta.
  pose proof (request_model_get lic t0 m true o m) as Hg.
  cbv zeta in Hg. rewrite String.eqb_refl in Hg.
  destruct Hg as (slot & Hg & Hs & _ & Hk).
  assert (H1 : exists slot1,
             dict_get m (_model_slots
                           (release_lock t1 m
                              (snd (request_model lic t0 m true o))))
             = Some slot1 /\ state slot1 = WARM /\ keep_warm slot1 = true).
  { rewrite release_lock_get, String.eqb_refl, Hg. simpl.
    eexists. split; [reflexivity|]. unfold released. simpl.
    rewrite Hk. simpl. auto. }
  clear Hg. revert H1.
  generalize (release_lock t1 m (snd (request_model lic t0 m true o))).
  intros o1 (slot1 & Hg1 & Hs1 & Hk1).
  split; [unfold slot_state; rewrite Hg1; simpl; now rewrite Hs1|].
  revert o1 Hg1. induction sweeps as [|t ts IH]; intros o1 Hg1.
  - unfold slot_state. simpl. rewrite Hg1. simpl. now rewrite Hs1.
  - change (exec_all (map SweepIdle (t :: ts)) o1)
      with (exec_all (map SweepIdle ts) (check_idle_models t o1)).
    apply IH. now apply check_idle_models_pinned.
Qed.

Lemma check_idle_twice locks (t t' : Q) (item : string * ModelSlot) :
  (t <= t')%Q ->
  check_idle locks t' (check_idle locks t item) = check_idle locks t' item.
Proof.
  intros Hle. destruct item as [nm slot].
  destruct (check_idle_cases locks t nm slot)
    as [->|(E & Hs & Hl & Ht & Hk)]; [reflexivity|].
  rewrite E.
  destruct (check_idle_cases locks t' nm (set_state COLD slot))
    as [->|(_ & [Hc|Hc] & _)]; try discriminate.
  unfold check_idle. rewrite Hl, Hk. simpl.
  assert (Hq : Qltb IDLE_TIMEOUT_SECONDS (t' - last_used slot) = true)
    by (apply Qltb_lt; lra).
  rewrite Hq. simpl.
  destruct Hs as [-> | ->]; reflexivity.
Qed.

(** X14. Sweeps compose: a sweep followed by a sweep at the same or a later
    clock reading leaves what the later sweep alone leaves.  In particular a
    sweep repeated at the same reading changes nothing more. *)
Theorem X14_later_sweep_absorbs_earlier (t t' : Q)
  (o : ResourceOrchestrator) :
  (t <= t')%Q ->
  check_idle_models t' (check_idle_models t o) = check_idle_models t' o.
Proof.
  intros Hle. unfold check_idle_models, set_slots. simpl. f_equal.
  rewrite map_map. apply map_ext. intros item.
  now apply check_idle_twice.
Qed.

Lemma X14_witness :
  let o := exec_all [Request ronin 0 "m1" false; Release 0 "m1"]
             (__init__ ronin) in
  (100 <= 301)%Q /\
  check_idle_models 301 (check_idle_models 100 o) = check_idle_models 301 o.
Proof.
  intros o.
  assert (H : (100 <= 301)%Q) by (vm_compute; discriminate).
  split; [exact H|].
  exact (X14_later_sweep_absorbs_earlier 100 301 o H).
Defined.

(** *** Status *)

(** X16. The status snapshot of a reachable state is consistent: the list of
    locked names has no duplicate, and every locked name is listed among the
    active models, as warm. *)
Theorem X16_status_lists_every_locked_model (lic : LicenseEnv)
  (o : ResourceOrchestrator) :
  reachable o ->
  NoDup (active_locks (get_status lic o)) /\
  forall n, In n (active_locks (get_status lic o)) ->
    exists mem, In (n, "warm"%string, mem) (active_models (get_status lic o)).
Proof.
  intros Hr. pose proof (reachable_meta_ok o Hr) as Hmeta.
  apply reachable_invariant in Hr as ((_ & Hnl) & Hlw & _).
  split; [exact Hnl|].
  intros n Hn. unfold get_status in *; simpl in *.
  apply dict_mem_keys in Hn. specialize (Hlw n Hn). unfold slot_state in Hlw.
  destruct (dict_get n (_model_slots o)) as [slot|] eqn:Hg; [|discriminate].
  injection Hlw as Hs. apply dict_get_In in Hg.
  destruct (Hmeta n slot Hg) as [Hname _].
  exists (memory_mb slot). apply in_map_iff. exists slot. split.
  - now rewrite Hname, Hs.
  - apply filter_In. split.
    + unfold dict_values. apply in_map_iff. now exists (n, slot).
    + unfold not_cold. now rewrite Hs.
Qed.

Lemma X16_witness :
  let o := exec_all [Request ronin 1 "m1" false; Request ronin 2 "m2" true]
             (__init__ ronin) in
  reachable o /\
  exists mem, In ("m2"%string, "warm"%string, mem)
                (active_models (get_status ronin o)).
Proof.
  intros o.
  assert (Hr : reachable o)
    by (apply reachable_exec_all; apply reachable_init).
  split; [exact Hr|].
  apply (proj2 (X16_status_lists_every_locked_model ronin o Hr)).
  simpl. tauto.
Defined.

(** *** Generation requests *)

(** X17. [generate_text] starts the worker before it looks at the mode.  A
    comic request from a caller without the comic_mode feature is answered
    with the license message: nothing is put on the task queue and no sweep
    runs, yet a worker is alive afterwards.  Every other call returns the
    worker's reply, has put exactly one generate task on the queue, whose
    shadow flag is set only if the caller asked for it and has the
    shadow_nodes feature, and has swept. *)
Theorem X17_generate_text_effects {R : Type} (lic : LicenseEnv) (now : Q)
  (prompt mode : string) (shadow : bool) (reply : R)
  (o : ResourceOrchestrator) :
  let r := generate_text lic now prompt mode shadow reply o in
  worker_is_alive (snd r) = true /\
  (mode = "comic"%string /\ can_access_feature lic "comic_mode" = false ->
   fst r = ComicDenied "⚠️ Comic mode requires Architect license." /\
   task_queue (snd r) = task_queue o /\
   _model_slots (snd r) = _model_slots o /\
   _active_locks (snd r) = _active_locks o) /\
  (mode <> "comic"%string \/ can_access_feature lic "comic_mode" = true ->
   fst r = Reply reply /\
   _model_slots (snd r) = _model_slots (check_idle_models now o) /\
   _active_locks (snd r) = _active_locks o /\
   exists task,
     task_queue (snd r) = task_queue o ++ [task] /\
     InferenceProcess.type task = Some "generate"%string /\
     InferenceProcess.prompt task = Some prompt /\
     InferenceProcess.mode task = Some mode /\
     InferenceProcess.use_shadow_nodes task
     = shadow && can_access_feature lic "shadow_nodes").
Proof.
  assert (Ha : worker_is_alive (_ensure_worker_alive o) = true).
  { unfold _ensure_worker_alive.
    destruct (worker_is_alive o) eqn:E; simpl; auto. }
  assert (Hf : task_queue (_ensure_worker_alive o) = task_queue o /\
               _model_slots (_ensure_worker_alive o) = _model_slots o /\
               _active_locks (_ensure_worker_alive o) = _active_locks o).
  { unfold _ensure_worker_alive. destruct (negb (worker_is_alive o)); auto. }
  destruct Hf as (Hq & Hs & Hl).
  cbv zeta. unfold generate_text.
  destruct (String.eqb_spec mode "screenplay") as [E1|E1].
  - subst mode. split; [exact Ha|]. split.
    + intros [E _]. discriminate.
    + intros _. simpl. unfold check_idle_models. simpl.
      rewrite Hs, Hl, Hq. repeat split. eexists. split; [reflexivity|].
      repeat split.
  - destruct (String.eqb_spec mode "comic") as [E2|E2].
    + destruct (can_access_feature lic "comic_mode") eqn:Hc; simpl.
      * split; [exact Ha|]. split; [intros [_ H]; discriminate|].
        intros _. unfold check_idle_models. simpl.
        rewrite Hs, Hl, Hq. repeat split. eexists. split; [reflexivity|].
        repeat split.
      * split; [exact Ha|]. split; [auto|].
        intros [H|H]; [contradiction | discriminate].
    + split; [exact Ha|]. split; [intros [E _]; contradiction|].
      intros _. simpl. unfold check_idle_models. simpl.
      rewrite Hs, Hl, Hq. repeat split. eexists. split; [reflexivity|].
      repeat split.
Qed.

Lemma X17_witness :
  let r := generate_text ronin 5 "PAGE 1" "comic" true tt (__init__ ronin) in
  ("comic"%string = "comic"%string /\
   can_access_feature ronin "comic_mode" = false) /\
  worker_is_alive (snd r) = true /\
  task_queue (snd r) = [].
Proof.
  intros r.
  assert (H : "comic"%string = "comic"%string /\
              can_access_feature ronin "comic_mode" = false)
    by (split; reflexivity).
  split; [exact H|].
  destruct (X17_generate_text_effects ronin 5 "PAGE 1" "comic" true tt
              (__init__ ronin)) as (Ha & Hd & _).
  split; [exact Ha|]. exact (proj1 (proj2 (Hd H))).
Defined.

(** *** Requests that evict nothing *)

Lemma oldest_slot_none_iff (o : ResourceOrchestrator) :
  (forall k slot, In (k, slot) (_model_slots o) ->
                  state slot = COLD \/ locked k o = true) ->
  oldest_slot o = None.
Proof.
  intros H. unfold oldest_slot.
  pose proof (scan_oldest_all o) as P.
  destruct (fold_left _ _ _) as [[t|] [k|]]; simpl in *; try tauto.
  destruct P as (slot & Hin & Hev & _).
  unfold evictable, not_cold in Hev. simpl in Hev.
  destruct (H k slot Hin) as [Hc|Hl].
  - rewrite Hc in Hev. discriminate.
  - unfold locked in Hl. rewrite Hl, andb_false_r in Hev. discriminate.
Qed.

(** X20. A request evicts nothing, and so leaves every slot other than the
    requested one exactly as it was, when the number of slots that are not
    cold is below the limit, when the caller has the multi_lora feature, and
    when every slot that is not cold is locked.  In each case the request
    still goes through: the requested slot is warm and locked. *)
Theorem X20_request_without_eviction (lic : LicenseEnv) (now : Q)
  (m : string) (kw : bool) (o : ResourceOrchestrator) :
  current_models o < MAX_CONCURRENT_MODELS o \/
  can_access_feature lic "multi_lora" = true \/
  (forall k slot, In (k, slot) (_model_slots o) ->
                  state slot = COLD \/ locked k o = true) ->
  let o' := snd (request_model lic now m kw o) in
  (forall n, n <> m ->
     dict_get n (_model_slots o') = dict_get n (_model_slots o)) /\
  slot_state m o' = Some WARM /\ locked m o' = true.
Proof.
  intros H. cbv zeta. split; [|split].
  - apply request_model_keeps.
    destruct H as [H|[H|H]]; auto using oldest_slot_none_iff.
  - pose proof (request_model_get lic now m kw o m) as Hg.
    cbv zeta in Hg. rewrite String.eqb_refl in Hg.
    destruct Hg as (slot & Hg & Hs & _). unfold slot_state.
    rewrite Hg. simpl. now rewrite Hs.
  - unfold locked.
    destruct (request_model_frame lic now m kw o) as (_ & _ & Hl & _).
    rewrite Hl, dict_mem_set, String.eqb_refl. reflexivity.
Qed.

Lemma X20_witness :
  let o := exec_all [Request ronin 1 "m1" false] (__init__ ronin) in
  let o' := snd (request_model ronin 2 "m2" false o) in
  (forall k slot, In (k, slot) (_model_slots o) ->
                  state slot = COLD \/ locked k o = true) /\
  slot_state "m1" o' = Some WARM /\ slot_state "m2" o' = Some WARM /\
  current_models o' = 2.
Proof.
  intros o o'.
  assert (H : forall k slot, In (k, slot) (_model_slots o) ->
                             state slot = COLD \/ locked k o = true).
  { intros k slot Hin. vm_compute in Hin. destruct Hin as [E|[]].
    injection E as <- <-. right. reflexivity. }
  split; [exact H|].
  destruct (X20_request_without_eviction ronin 2 "m2" false o
              (or_intror (or_intror H))) as (Hk & Hm & _).
  split; [|split; [exact Hm | reflexivity]].
  subst o'. unfold slot_state.
  rewrite (Hk "m1"%string) by discriminate. reflexivity.
Defined.

(** *** Ties in the scan *)

Lemma scan_first_step locks seen acc item :
  scan_first locks seen acc ->
  scan_first locks (seen ++ [item]) (scan_oldest locks acc item).
Proof.
  destruct acc as [[t|] [k|]]; simpl; try tauto; destruct item as [nm slot];
    unfold scan_oldest.
  - intros (l1 & slot0 & l2 & -> & Hev & Ht & H1 & H2).
    change (not_cold slot && negb (dict_mem nm locks))
      with (evictable locks (nm, slot)).
    destruct (evictable locks (nm, slot)) eqn:Hc; simpl.
    + destruct (Qltb (last_used slot) t) eqn:Hlt; simpl.
      * apply Qltb_lt in Hlt.
        exists (l1 ++ (k, slot0) :: l2), slot, [].
        repeat split; auto; [|intros item []].
        intros item Hi Hev'. apply in_app_or in Hi as [Hi|[<-|Hi]].
        -- specialize (H1 item Hi Hev'). lra.
        -- simpl. rewrite <- Ht. exact Hlt.
        -- specialize (H2 item Hi Hev'). lra.
      * apply Qltb_ge in Hlt. exists l1, slot0, (l2 ++ [(nm, slot)]).
        repeat split; auto; [now rewrite <- app_assoc|].
        intros item Hi Hev'. apply in_app_or in Hi as [Hi|[<-|[]]]; auto.
    + exists l1, slot0, (l2 ++ [(nm, slot)]).
      repeat split; auto; [now rewrite <- app_assoc|].
      intros item Hi Hev'. apply in_app_or in Hi as [Hi|[<-|[]]]; auto.
      congruence.
  - intros Hnone.
    change (not_cold slot && negb (dict_mem nm locks))
      with (evictable locks (nm, slot)).
    destruct (evictable locks (nm, slot)) eqn:Hc; simpl.
    + exists seen, slot, []. repeat split; auto; [|intros item []].
      intros item Hi Hev'. rewrite (Hnone item Hi) in Hev'. discriminate.
    + intros item Hi. apply in_app_or in Hi as [Hi|[<-|[]]]; auto.
Qed.

Lemma scan_first_fold locks l : forall seen acc,
  scan_first locks seen acc ->
  scan_first locks (seen ++ l) (fold_left (scan_oldest locks) l acc).
Proof.
  induction l as [|item l IH]; intros seen acc H; simpl.
  - now rewrite app_nil_r.
  - replace (seen ++ item :: l) with ((seen ++ [item]) ++ l)
      by (rewrite <- app_assoc; reflexivity).
    apply IH. now apply scan_first_step.
Qed.

(** X21. Ties go to the earlier slot: the slot [_unload_oldest_model]
    settles on was used strictly before every evictable slot that precedes it
    in the table, and no later than every evictable slot that follows it. *)
Theorem X21_oldest_slot_is_first_among_ties (o : ResourceOrchestrator)
  (k : string) :
  oldest_slot o = Some k ->
  exists l1 slot l2,
    _model_slots o = l1 ++ (k, slot) :: l2 /\
    state slot <> COLD /\ locked k o = false /\
    (forall k' slot', In (k', slot') l1 ->
       state slot' <> COLD -> locked k' o = false ->
       (last_used slot < last_used slot')%Q) /\
    (forall k' slot', In (k', slot') l2 ->
       state slot' <> COLD -> locked k' o = false ->
       (last_used slot <= last_used slot')%Q).
Proof.
  intros Hk. unfold oldest_slot in Hk.
  pose proof (scan_first_fold (_active_locks o) (_model_slots o) []
                (None, None)) as H.
  simpl in H. specialize (H (fun _ F => match F with end)).
  destruct (fold_left _ _ _) as [[t|] [k0|]]; simpl in *; try tauto;
    try discriminate.
  injection Hk as ->.
  destruct H as (l1 & slot & l2 & E & Hev & -> & H1 & H2).
  unfold evictable in Hev. simpl in Hev. apply andb_true_iff in Hev as [Hc Hl].
  exists l1, slot, l2. split; [exact E|].
  split; [now apply not_cold_true|].
  split; [unfold locked; now apply negb_true_iff in Hl|].
  assert (Hev' : forall k' slot', state slot' <> COLD ->
                   locked k' o = false ->
                   evictable (_active_locks o) (k', slot') = true).
  { intros k' slot' Hs Hu. unfold evictable. simpl.
    apply not_cold_true in Hs. unfold locked in Hu. now rewrite Hs, Hu. }
  split; intros k' slot' Hin Hs Hu.
  - exact (H1 (k', slot') Hin (Hev' k' slot' Hs Hu)).
  - exact (H2 (k', slot') Hin (Hev' k' slot' Hs Hu)).
Qed.

Lemma X21_witness :
  let o := exec_all
             [Request ronin 1 "m1" false; Request ronin 2 "m2" false;
              Release 7 "m2"; Release 7 "m1"]
             (__init__ ronin) in
  oldest_slot o = Some "m1"%string /\
  exists l1 slot l2,
    _model_slots o = l1 ++ ("m1"%string, slot) :: l2 /\
    state slot <> COLD /\ locked "m1" o = false /\
    (forall k' slot', In (k', slot') l1 ->
       state slot' <> COLD -> locked k' o = false ->
       (last_used slot < last_used slot')%Q) /\
    (forall k' slot', In (k', slot') l2 ->
       state slot' <> COLD -> locked k' o = false ->
       (last_used slot <= last_used slot')%Q).
Proof.
  intros o.
  assert (H : oldest_slot o = Some "m1"%string) by reflexivity.
  split; [exact H|].
  exact (X21_oldest_slot_is_first_among_ties o "m1" H).
Defined.

(** *** One lock at a time under the limit 1 *)

Lemma count_zero_all_cold (d : list (string * ModelSlot)) :
  List.length (filter not_cold (dict_values d)) = 0%nat ->
  forall k slot, In (k, slot) d -> state slot = COLD.
Proof.
  induction d as [|[k0 s0] d IH]; simpl; [tauto|].
  destruct (not_cold s0) eqn:E; simpl; [discriminate|].
  intros H k slot [[= <- <-]|Hin]; [|eauto].
  unfold not_cold in E. destruct (state s0); simpl in E;
    [reflexivity | discriminate | discriminate | discriminate].
Qed.

Lemma only_resident_count (m : string) (d : list (string * ModelSlot)) :
  NoDup (dict_keys d) ->
  (forall n slot, dict_get n d = Some slot -> state slot <> COLD -> n = m) ->
  (List.length (filter not_cold (dict_values d)) <= 1)%nat.
Proof.
  induction d as [|[k0 s0] d IH]; simpl; intros Hnd H; [lia|].
  inversion Hnd as [|? ? Hnotin Hnd']; subst.
  assert (Hrest : forall n slot, dict_get n d = Some slot ->
                                 state slot <> COLD -> n = m).
  { intros n slot Hg Hs. apply (H n slot); [|exact Hs].
    destruct (String.eqb_spec n k0) as [->|]; [|exact Hg].
    exfalso. apply Hnotin. apply dict_mem_keys, dict_mem_get. eauto. }
  destruct (not_cold s0) eqn:E; simpl; [|auto].
  assert (Hk : k0 = m).
  { apply (H k0 s0); [now rewrite String.eqb_refl | now apply not_cold_true]. }
  subst k0.
  assert (Hz : List.length (filter not_cold (dict_values d)) = 0%nat).
  { apply all_cold_count. intros k slot Hin.
    destruct (state slot) eqn:Es; [reflexivity| | |];
      exfalso; apply Hnotin;
      rewrite <- (Hrest k slot (dict_In_get _ _ _ Hnd' Hin)) by congruence;
      change k with (fst (k, slot)); now apply in_map. }
  lia.
Qed.

Lemma count_le_one_only_resident (d : list (string * ModelSlot)) :
  (List.length (filter not_cold (dict_values d)) <= 1)%nat ->
  exists m, forall n slot,
    dict_get n d = Some slot -> state slot <> COLD -> n = m.
Proof.
  induction d as [|[k0 s0] d IH]; simpl; intros H.
  - exists ""%string. discriminate.
  - destruct (not_cold s0) eqn:E; simpl in H.
    + exists k0. intros n slot Hg Hs.
      destruct (String.eqb_spec n k0) as [->|]; [reflexivity|].
      apply dict_get_In in Hg.
      assert (Hz : List.length (filter not_cold (dict_values d)) = 0%nat)
        by lia.
      now rewrite (count_zero_all_cold d Hz n slot Hg) in Hs.
    + destruct (IH H) as [m Hm]. exists m. intros n slot Hg Hs.
      destruct (String.eqb_spec n k0) as [->|]; [|eauto].
      injection Hg as <-. apply not_cold_true in Hs. congruence.
Qed.

Lemma no_lock_empty {V : Type} (l : list (string * V)) :
  (forall n, dict_mem n l = false) -> l = [].
Proof.
  destruct l as [|[k v] l]; [reflexivity|]. intros H.
  specialize (H k). simpl in H. rewrite String.eqb_refl in H. discriminate.
Qed.

Lemma one_at_a_time_frame p (o o' : ResourceOrchestrator) :
  _model_slots o' = _model_slots o ->
  _active_locks o' = _active_locks o ->
  MAX_CONCURRENT_MODELS o' = MAX_CONCURRENT_MODELS o ->
  one_at_a_time p o -> one_at_a_time p o'.
Proof.
  unfold one_at_a_time, only_resident, locked. intros -> -> ->. auto.
Qed.

Lemma one_at_a_time_sweep p t (o : ResourceOrchestrator) :
  one_at_a_time p o -> one_at_a_time p (check_idle_models t o).
Proof.
  intros (Hm & Hl & m & Ho & Hp).
  destruct (check_idle_models_frame t o) as (_ & _ & Hl' & Hm' & _).
  split; [congruence|]. split; [unfold locked; now rewrite Hl'|].
  exists m. split; [|exact Hp]. intros n slot Hg Hs.
  rewrite check_idle_models_get in Hg.
  destruct (dict_get n (_model_slots o)) as [s0|] eqn:G; [|discriminate].
  cbn [option_map] in Hg.
  destruct (check_idle_cases (_active_locks o) t n s0) as [E|(E & _)];
    rewrite E in Hg; injection Hg as <-; [eauto|].
  simpl in Hs. congruence.
Qed.

Lemma one_at_a_time_collapse p force (o : ResourceOrchestrator) :
  one_at_a_time p o -> one_at_a_time p (collapse_to_zero force o).
Proof.
  intros (Hm & _ & m & _ & Hp).
  split; [now rewrite collapse_to_zero_limit|]. split.
  - unfold locked, collapse_to_zero. destruct (worker_is_alive o);
      simpl; discriminate.
  - exists m. split; [|exact Hp]. intros n slot Hg Hs.
    apply dict_get_In in Hg.
    now rewrite (collapse_to_zero_all_cold force o n slot Hg) in Hs.
Qed.

(** Under the limit 1, with no lock held and at most one model resident, a
    caller without multi_lora finds every slot cold once [make_room] has
    run. *)
Lemma make_room_clears lic (o : ResourceOrchestrator) (m0 : string) :
  NoDup (dict_keys (_model_slots o)) ->
  MAX_CONCURRENT_MODELS o = 1 ->
  (forall n, locked n o = false) ->
  only_resident m0 o ->
  can_access_feature lic "multi_lora" = false ->
  forall n slot,
    dict_get n (_model_slots (make_room lic o)) = Some slot ->
    state slot = COLD.
Proof.
  intros Hns Hm Hnl Ho Hf n slot. unfold make_room.
  rewrite Hf. simpl.
  destruct (Z.leb_spec (MAX_CONCURRENT_MODELS o) (current_models o))
    as [Hle|Hlt].
  - unfold _unload_oldest_model.
    destruct (oldest_slot o) as [k|] eqn:Hk.
    + apply oldest_slot_some in Hk as (sk & Hgk & Hsk & _); auto.
      simpl. rewrite dict_get_modify.
      destruct (String.eqb_spec n k) as [->|Hne].
      * rewrite Hgk. simpl. intros [= <-]. reflexivity.
      * intros Hg. destruct (state slot) eqn:Es; [reflexivity| | |];
          exfalso; apply Hne;
          rewrite (Ho k sk Hgk Hsk);
          apply (Ho n slot Hg); congruence.
    + intros Hg. destruct (oldest_slot_none o Hk n slot Hg) as [Hc|Hc];
        [exact Hc | rewrite Hnl in Hc; discriminate].
  - intros Hg. apply dict_get_In in Hg.
    apply (count_zero_all_cold (_model_slots o)) with (k := n); [|exact Hg].
    unfold current_models in Hlt. lia.
Qed.

(** A request made with no lock held, under the limit 1, by a caller without
    multi_lora: whatever was resident is evicted first. *)
Lemma one_at_a_time_request lic now m kw (o : ResourceOrchestrator) :
  invariant o -> one_at_a_time None o ->
  can_access_feature lic "multi_lora" = false ->
  one_at_a_time (Some m) (snd (request_model lic now m kw o)).
Proof.
  intros ((Hns & _) & _) (Hm & Hl & m0 & Ho & _) Hf.
  assert (Hnl : forall n, locked n o = false).
  { intros n. destruct (locked n o) eqn:E; [|reflexivity].
    specialize (Hl n E). discriminate. }
  pose proof (make_room_clears lic o m0 Hns Hm Hnl Ho Hf) as Hcold.
  destruct (request_model_frame lic now m kw o) as (_ & _ & Hl' & Hm').
  split; [congruence|]. split.
  - intros n Hn. unfold locked in Hn. rewrite Hl', dict_mem_set in Hn.
    destruct (String.eqb_spec n m) as [E|E]; [now subst|].
    simpl in Hn. fold (locked n o) in Hn. rewrite Hnl in Hn. discriminate.
  - exists m. split; [|intros m' [= ->]; reflexivity].
    intros n slot Hg Hs.
    pose proof (request_model_get lic now m kw o n) as Hr. cbv zeta in Hr.
    destruct (String.eqb_spec n m) as [->|Hne]; [reflexivity|].
    rewrite Hr in Hg. now rewrite (Hcold n slot Hg) in Hs.
Qed.

(** The release of the one model that may be locked. *)
Lemma one_at_a_time_release now m (o : ResourceOrchestrator) :
  invariant o -> one_at_a_time (Some m) o ->
  one_at_a_time None (release_lock now m o) /\
  only_resident m (release_lock now m o) /\
  _active_locks (release_lock now m o) = [].
Proof.
  intros ((_ & Hnl) & _) (Hm & Hl & m0 & Ho & Hp).
  specialize (Hp m eq_refl). subst m0.
  destruct (release_lock_frame now m o) as (_ & _ & Hl' & Hm' & _).
  assert (Hnone : forall n, locked n (release_lock now m o) = false).
  { intros n. unfold locked. rewrite Hl'.
    destruct (dict_mem m (_active_locks o)) eqn:E.
    - rewrite dict_mem_del by exact Hnl.
      destruct (String.eqb_spec n m) as [->|Hne]; [reflexivity|]. simpl.
      destruct (dict_mem n (_active_locks o)) eqn:E'; [|reflexivity].
      specialize (Hl n E'). congruence.
    - destruct (dict_mem n (_active_locks o)) eqn:E'; [|reflexivity].
      specialize (Hl n E'). injection Hl as <-. congruence. }
  assert (Hon : only_resident m (release_lock now m o)).
  { intros n slot Hg Hs. rewrite release_lock_get in Hg.
    destruct (String.eqb_spec n m) as [->|]; [reflexivity | eauto]. }
  split; [|split; [exact Hon | now apply no_lock_empty]].
  split; [congruence|]. split.
  - intros n Hn. rewrite Hnone in Hn. discriminate.
  - exists m. split; [exact Hon | discriminate].
Qed.

Lemma one_at_a_time_step (c : Call) (rest : list Call) p
  (o : ResourceOrchestrator) :
  invariant o -> one_at_a_time p o ->
  bracketed p (c :: rest) = true ->
  exists p', one_at_a_time p' (exec c o) /\ bracketed p' rest = true.
Proof.
  intros Hinv HJ Hb. destruct c; cbn [exec]; simpl in Hb.
  - destruct p as [m0|]; [discriminate|].
    apply andb_true_iff in Hb as [Hf Hb]. apply negb_true_iff in Hf.
    exists (Some model_name). split; [|exact Hb].
    now apply one_at_a_time_request.
  - destruct p as [m0|]; [|discriminate].
    apply andb_true_iff in Hb as [Hm Hb]. apply String.eqb_eq in Hm.
    subst m0. exists None. split; [|exact Hb].
    now apply one_at_a_time_release.
  - exists p. split; [|exact Hb]. now apply one_at_a_time_sweep.
  - exists p. split; [|exact Hb].
    destruct (generate_text_cases lic now prompt mode use_shadow_nodes tt o)
      as (o1 & Hs & Hl & Hm & _ & [-> | ->]).
    + now apply (one_at_a_time_frame p o).
    + apply one_at_a_time_sweep. now apply (one_at_a_time_frame p o).
  - exists p. split; [|exact Hb]. now apply one_at_a_time_collapse.
  - exists p. split; [|exact Hb].
    destruct (worker o); [|exact HJ]. now apply (one_at_a_time_frame p o).
Qed.

Lemma one_at_a_time_history (calls1 calls2 : list Call) :
  forall p (o : ResourceOrchestrator),
    invariant o -> one_at_a_time p o ->
    bracketed p (calls1 ++ calls2) = true ->
    exists p',
      invariant (exec_all calls1 o) /\
      one_at_a_time p' (exec_all calls1 o) /\
      bracketed p' calls2 = true.
Proof.
  induction calls1 as [|c calls1 IH]; intros p o Hinv HJ Hb.
  - exists p. auto.
  - destruct (one_at_a_time_step c (calls1 ++ calls2) p o Hinv HJ Hb)
      as (p1 & HJ1 & Hb1).
    change (exec_all (c :: calls1) o) with (exec_all calls1 (exec c o)).
    apply (IH p1); auto. now apply invariant_exec.
Qed.

Lemma init_limit_without_multi_lora (lic : LicenseEnv) :
  can_access_feature lic "multi_lora" = false ->
  MAX_CONCURRENT_MODELS (__init__ lic) = 1.
Proof.
  destruct lic as [|key]; [discriminate|].
  unfold __init__, _update_limits, LicenseValidator.is_pro,
    can_access_feature, LicenseValidator.can_access. simpl.
  destruct (LicenseValidator.get_tier key); simpl; auto; discriminate.
Qed.

(** X19. The limit is a hard cap for callers that take turns.  Under the
    free tier, in a history where every request is followed, sweeps,
    generate calls and collapses apart, by the release of the same model
    before the next request, at most one slot is not cold after every call
    of the history, and no lock is left at its end. *)
Theorem X19_one_lock_at_a_time_keeps_the_limit (lic : LicenseEnv)
  (calls1 calls2 : list Call) :
  can_access_feature lic "multi_lora" = false ->
  bracketed None (calls1 ++ calls2) = true ->
  let o := exec_all calls1 (__init__ lic) in
  current_models o <= 1 /\
  (calls2 = [] -> _active_locks o = []).
Proof.
  intros Hf Hb. cbv zeta.
  pose proof (init_limit_without_multi_lora lic Hf) as Hm.
  assert (HJ : one_at_a_time None (__init__ lic)).
  { split; [exact Hm|]. split.
    - intros n Hn. unfold locked, __init__, _update_limits in Hn.
      destruct (get_validator lic) as [key|];
        [destruct (LicenseValidator.is_pro key)|]; discriminate.
    - exists ""%string. split; [|discriminate]. intros n slot Hg.
      unfold __init__, _update_limits in Hg.
      destruct (get_validator lic) as [key|];
        [destruct (LicenseValidator.is_pro key)|]; discriminate. }
  destruct (one_at_a_time_history calls1 calls2 None _
              (invariant_init lic) HJ Hb)
    as (p' & ((Hns & _) & _) & (_ & Hl & m & Ho & _) & Hb').
  split.
  - unfold current_models.
    pose proof (only_resident_count m _ Hns Ho). lia.
  - intros ->. simpl in Hb'. destruct p'; [discriminate|].
    apply no_lock_empty. intros n.
    destruct (dict_mem n (_active_locks _)) eqn:E; [|reflexivity].
    specialize (Hl n E). discriminate.
Qed.

Lemma X19_witness :
  let calls :=
    [Request ronin 1 "all-MiniLM-L6-v2" false; SweepIdle 2;
     Release 3 "all-MiniLM-L6-v2";
     Request ronin 4 "mistral-7b-quantized" true; CollapseToZero true;
     Release 5 "mistral-7b-quantized";
     Request ronin 6 "all-MiniLM-L6-v2" false;
     Release 7 "all-MiniLM-L6-v2"] in
  (can_access_feature ronin "multi_lora" = false /\
   bracketed None (calls ++ []) = true) /\
  current_models (exec_all calls (__init__ ronin)) <= 1 /\
  _active_locks (exec_all calls (__init__ ronin)) = [].
Proof.
  intros calls.
  assert (H : can_access_feature ronin "multi_lora" = false /\
              bracketed None (calls ++ []) = true)
    by (split; reflexivity).
  split; [exact H|].
  destruct (X19_one_lock_at_a_time_keeps_the_limit ronin calls []
              (proj1 H) (proj2 H)) as [Hc Hl].
  split; [exact Hc | exact (Hl eq_refl)].
Defined.

(** *** After a collapse *)

Lemma resident_counted (d : list (string * ModelSlot)) n slot :
  dict_get n d = Some slot -> state slot <> COLD ->
  (1 <= List.length (filter not_cold (dict_values d)))%nat.
Proof.
  intros Hg Hs. apply dict_get_In in Hg.
  assert (Hin : In slot (filter not_cold (dict_values d))).
  { apply filter_In. split; [|now apply not_cold_true].
    unfold dict_values. apply in_map_iff. now exists (n, slot). }
  destruct (filter not_cold (dict_values d)); [destruct Hin | simpl; lia].
Qed.

(** X22. After [collapse_to_zero], the next request starts from nothing:
    whatever the state before the collapse, the license and the limit, it
    evicts nothing and leaves exactly one slot that is not cold, the
    requested one, which is also the only name locked. *)
Theorem X22_request_after_collapse (lic : LicenseEnv) (now : Q) (m : string)
  (kw force : bool) (o : ResourceOrchestrator) :
  let o' := snd (request_model lic now m kw (collapse_to_zero force o)) in
  current_models o' = 1 /\
  slot_state m o' = Some WARM /\
  active_locks (get_status lic o') = [m] /\
  forall n, n <> m ->
    dict_get n (_model_slots o')
    = dict_get n (_model_slots (collapse_to_zero force o)).
Proof.
  cbv zeta.
  pose proof (collapse_to_zero_all_cold force o) as Hcold.
  assert (Hnone : oldest_slot (collapse_to_zero force o) = None).
  { apply oldest_slot_none_iff. intros k slot Hin. left. eauto. }
  pose proof (request_model_get lic now m kw (collapse_to_zero force o) m)
    as Hg.
  cbv zeta in Hg. rewrite String.eqb_refl in Hg.
  destruct Hg as (slot & Hg & Hs & _).
  assert (Hroom : make_room lic (collapse_to_zero force o)
                  = collapse_to_zero force o).
  { destruct (make_room_cases lic (collapse_to_zero force o))
      as [E|(_ & _ & k & Hk & _)]; [exact E | congruence]. }
  split; [|split; [|split]].
  - pose proof (request_model_count lic now m kw (collapse_to_zero force o))
      as Hle.
    rewrite Hroom in Hle.
    pose proof (all_cold_count _ Hcold) as Hz.
    assert (H1 : (1 <= List.length
                        (filter not_cold
                           (dict_values
                              (_model_slots
                                 (snd (request_model lic now m kw
                                         (collapse_to_zero force o)))))))%nat)
      by (apply (resident_counted _ m slot Hg); congruence).
    unfold current_models in *. lia.
  - unfold slot_state. rewrite Hg. simpl. now rewrite Hs.
  - destruct (request_model_frame lic now m kw (collapse_to_zero force o))
      as (_ & _ & Hl & _).
    unfold get_status; cbn [active_locks]. rewrite Hl.
    unfold collapse_to_zero.
    destruct (worker_is_alive o); reflexivity.
  - apply request_model_keeps. auto.
Qed.

(** ** The context engine's use of the orchestrator *)

(** The slot of a model after a request and the release that follows. *)
Lemma pulse_slot lic t1 t2 m kw (o : ResourceOrchestrator) :
  exists slot,
    dict_get m (_model_slots (pulse lic t1 t2 m kw o)) = Some slot /\
    state slot = (if kw then WARM else COOLING) /\
    keep_warm slot = kw /\ last_used slot = t2.
Proof.
  unfold pulse.
  pose proof (request_model_get lic t1 m kw o m) as Hg.
  cbv zeta in Hg. rewrite String.eqb_refl in Hg.
  destruct Hg as (slot & Hg & Hs & _ & Hk).
  rewrite release_lock_get, String.eqb_refl, Hg. simpl.
  eexists. split; [reflexivity|]. unfold released. simpl.
  rewrite Hk. destruct kw; simpl; auto.
Qed.

Lemma pulse_keeps_slots lic t1 t2 m kw (o : ResourceOrchestrator) n :
  dict_mem n (_model_slots o) = true ->
  dict_mem n (_model_slots (pulse lic t1 t2 m kw o)) = true.
Proof.
  intros H. unfold pulse. apply dict_mem_keys.
  destruct (release_lock_frame t2 m (snd (request_model lic t1 m kw o)))
    as (_ & _ & _ & _ & Hk).
  rewrite Hk, request_model_keys. apply dict_mem_keys in H.
  destruct (dict_mem m (_model_slots o)); auto using in_or_app.
Qed.

(** A pulse under the limit 1 by a caller without multi_lora, no lock being
    held: the model of the pulse is the one resident model afterwards. *)
Lemma pulse_under_limit_one lic t1 t2 m kw (o : ResourceOrchestrator) :
  invariant o -> one_at_a_time None o ->
  can_access_feature lic "multi_lora" = false ->
  let o' := pulse lic t1 t2 m kw o in
  invariant o' /\ one_at_a_time None o' /\
  only_resident m o' /\ _active_locks o' = [] /\ current_models o' = 1.
Proof.
  intros Hinv HJ Hf. cbv zeta. unfold pulse.
  pose proof (invariant_request lic t1 m kw o Hinv) as Hinv1.
  pose proof (one_at_a_time_request lic t1 m kw o Hinv HJ Hf) as HJ1.
  destruct (one_at_a_time_release t2 m _ Hinv1 HJ1) as (HJ2 & Ho & Hl).
  pose proof (invariant_release t2 m _ Hinv1) as Hinv2.
  repeat (split; [assumption|]).
  destruct (pulse_slot lic t1 t2 m kw o) as (slot & Hg & Hs & _).
  unfold pulse in Hg.
  pose proof (only_resident_count m _ (proj1 (proj1 Hinv2)) Ho) as Hle.
  assert (Hge : (1 <= List.length
                        (filter not_cold
                           (dict_values
                              (_model_slots
                                 (release_lock t2 m
                                    (snd (request_model lic t1 m kw o)))))))
                %nat).
  { apply (resident_counted _ m slot Hg). rewrite Hs.
    destruct kw; discriminate. }
  unfold current_models. lia.
Qed.

Lemma only_resident_other_cold (m n : string) (o : ResourceOrchestrator) :
  only_resident m o -> n <> m ->
  dict_mem n (_model_slots o) = true ->
  slot_state n o = Some COLD.
Proof.
  intros Ho Hne Hn. apply dict_mem_get in Hn as [slot Hg].
  unfold slot_state. rewrite Hg. simpl.
  destruct (state slot) eqn:Es; [reflexivity| | |];
    exfalso; apply Hne, (Ho n slot Hg); congruence.
Qed.

Lemma free_tier_no_shadow_nodes (key : string) :
  can_access_feature (LicenseKey key) "multi_lora" = false ->
  ContextEngine.check_pro_feature key "shadow_nodes" = false.
Proof.
  intros H. unfold ContextEngine.check_pro_feature.
  rewrite (proj2 (license_readers_agree key)).
  unfold LicenseValidator.get_tier_name.
  unfold can_access_feature, LicenseValidator.can_access in H. simpl in H.
  destruct (LicenseValidator.get_tier key); [reflexivity| |]; discriminate.
Qed.

(** X23. Under the free tier the embedder and the language model evict each
    other.  Starting from a reachable state with the limit 1, no lock and at
    most one resident model: after [_get_embedding] the embedder is the one
    resident model, cooling; after [generate_with_context] it is cold and
    the language model is the one resident model, warm; after the next
    [_get_embedding] the language model is cold again although it was
    requested with keep-warm.  No lock is left. *)
Theorem X23_free_tier_models_evict_each_other (key : string)
  (include_shadows : bool) (t1 t2 t3 t4 t5 t6 t7 t8 : Q)
  (o : ResourceOrchestrator) :
  can_access_feature (LicenseKey key) "multi_lora" = false ->
  reachable o ->
  MAX_CONCURRENT_MODELS o = 1 -> _active_locks o = [] ->
  current_models o <= 1 ->
  let o1 := ContextEngine._get_embedding key t1 t2 o in
  let o2 :=
    ContextEngine.generate_with_context key include_shadows t3 t4 t5 t6 o1 in
  let o3 := ContextEngine._get_embedding key t7 t8 o2 in
  (current_models o1 = 1 /\
   slot_state ContextEngine.EMBEDDER o1 = Some COOLING) /\
  (current_models o2 = 1 /\
   slot_state ContextEngine.LLM o2 = Some WARM /\
   slot_state ContextEngine.EMBEDDER o2 = Some COLD) /\
  (current_models o3 = 1 /\
   slot_state ContextEngine.EMBEDDER o3 = Some COOLING /\
   slot_state ContextEngine.LLM o3 = Some COLD) /\
  _active_locks o3 = [].
Proof.
  intros Hf Hr Hm Hl Hc. pose proof (reachable_invariant o Hr) as Hinv.
  assert (HJ : one_at_a_time None o).
  { split; [exact Hm|]. split.
    - intros n Hn. unfold locked in Hn. rewrite Hl in Hn. discriminate.
    - destruct (count_le_one_only_resident (_model_slots o)) as [m0 Hm0].
      + unfold current_models in Hc. lia.
      + exists m0. split; [exact Hm0 | discriminate]. }
  assert (Hgwc : forall t3 t4 t5 t6 o1,
             ContextEngine.generate_with_context key include_shadows
               t3 t4 t5 t6 o1
             = pulse (LicenseKey key) t5 t6 ContextEngine.LLM true o1).
  { intros. unfold ContextEngine.generate_with_context,
      ContextEngine.retrieve_shadow_nodes.
    rewrite (free_tier_no_shadow_nodes key Hf). simpl.
    now destruct include_shadows. }
  assert (Hge : forall t t' o0,
             ContextEngine._get_embedding key t t' o0
             = pulse (LicenseKey key) t t' ContextEngine.EMBEDDER false o0)
    by reflexivity.
  cbv zeta. rewrite Hgwc, !Hge.
  destruct (pulse_under_limit_one (LicenseKey key) t1 t2
              ContextEngine.EMBEDDER false o Hinv HJ Hf)
    as (Hinv1 & HJ1 & Ho1 & Hl1 & Hc1).
  destruct (pulse_slot (LicenseKey key) t1 t2 ContextEngine.EMBEDDER false o)
    as (s1 & Hg1 & Hs1 & _).
  revert Hinv1 HJ1 Ho1 Hl1 Hc1 Hg1.
  generalize (pulse (LicenseKey key) t1 t2 ContextEngine.EMBEDDER false o).
  intros o1 Hinv1 HJ1 Ho1 Hl1 Hc1 Hg1.
  destruct (pulse_under_limit_one (LicenseKey key) t5 t6
              ContextEngine.LLM true o1 Hinv1 HJ1 Hf)
    as (Hinv2 & HJ2 & Ho2 & Hl2 & Hc2).
  destruct (pulse_slot (LicenseKey key) t5 t6 ContextEngine.LLM true o1)
    as (s2 & Hg2 & Hs2 & _).
  assert (He2 : dict_mem ContextEngine.EMBEDDER
                  (_model_slots
                     (pulse (LicenseKey key) t5 t6 ContextEngine.LLM true o1))
                = true)
    by (apply pulse_keeps_slots, dict_mem_get; eauto).
  revert Hinv2 HJ2 Ho2 Hl2 Hc2 Hg2 He2.
  generalize (pulse (LicenseKey key) t5 t6 ContextEngine.LLM true o1).
  intros o2 Hinv2 HJ2 Ho2 Hl2 Hc2 Hg2 He2.
  destruct (pulse_under_limit_one (LicenseKey key) t7 t8
              ContextEngine.EMBEDDER false o2 Hinv2 HJ2 Hf)
    as (Hinv3 & HJ3 & Ho3 & Hl3 & Hc3).
  destruct (pulse_slot (LicenseKey key) t7 t8 ContextEngine.EMBEDDER false o2)
    as (s3 & Hg3 & Hs3 & _).
  assert (He3 : dict_mem ContextEngine.LLM
                  (_model_slots
                     (pulse (LicenseKey key) t7 t8 ContextEngine.EMBEDDER
                        false o2))
                = true)
    by (apply pulse_keeps_slots, dict_mem_get; eauto).
  revert Hinv3 HJ3 Ho3 Hl3 Hc3 Hg3 He3.
  generalize (pulse (LicenseKey key) t7 t8 ContextEngine.EMBEDDER false o2).
  intros o3 Hinv3 HJ3 Ho3 Hl3 Hc3 Hg3 He3.
  assert (Hne : ContextEngine.EMBEDDER <> ContextEngine.LLM)
    by (unfold ContextEngine.EMBEDDER, ContextEngine.LLM; discriminate).
  split; [|split; [|split]].
  - split; [exact Hc1|]. unfold slot_state. rewrite Hg1. simpl. now rewrite Hs1.
  - split; [exact Hc2|]. split.
    + unfold slot_state. rewrite Hg2. simpl. now rewrite Hs2.
    + now apply (only_resident_other_cold ContextEngine.LLM).
  - split; [exact Hc3|]. split.
    + unfold slot_state. rewrite Hg3. simpl. now rewrite Hs3.
    + apply (only_resident_other_cold ContextEngine.EMBEDDER); auto.
  - exact Hl3.
Qed.

Lemma X23_witness :
  let o := __init__ ronin in
  let o1 := ContextEngine._get_embedding "" 1 2 o in
  let o2 := ContextEngine.generate_with_context "" true 3 4 5 6 o1 in
  let o3 := ContextEngine._get_embedding "" 7 8 o2 in
  (can_access_feature (LicenseKey "") "multi_lora" = false /\
   reachable o /\ MAX_CONCURRENT_MODELS o = 1 /\ _active_locks o = [] /\
   current_models o <= 1) /\
  slot_state ContextEngine.LLM o2 = Some WARM /\
  slot_state ContextEngine.LLM o3 = Some COLD.
Proof.
  intros o o1 o2 o3.
  assert (Hr : reachable o) by apply reachable_init.
  assert (Hc : current_models o <= 1) by (vm_compute; discriminate).
  split; [repeat split; assumption|].
  destruct (X23_free_tier_models_evict_each_other "" true 1 2 3 4 5 6 7 8 o
              eq_refl Hr eq_refl eq_refl Hc)
    as (_ & (_ & H2 & _) & (_ & _ & H3) & _).
  split; [exact H2 | exact H3].
Defined.

Lemma two_resident_counted (d : list (string * ModelSlot)) a b sa sb :
  a <> b ->
  dict_get a d = Some sa -> state sa <> COLD ->
  dict_get b d = Some sb -> state sb <> COLD ->
  (2 <= List.length (filter not_cold (dict_values d)))%nat.
Proof.
  intros Hab. induction d as [|[k s] d IH]; simpl; [discriminate|].
  intros Ha Hsa Hb Hsb.
  destruct (String.eqb_spec a k) as [->|Hak];
    destruct (String.eqb_spec b k) as [->|Hbk]; try congruence.
  - injection Ha as ->. apply not_cold_true in Hsa. rewrite Hsa. simpl.
    pose proof (resident_counted d b sb Hb Hsb). lia.
  - injection Hb as ->. apply not_cold_true in Hsb. rewrite Hsb. simpl.
    pose proof (resident_counted d a sa Ha Hsa). lia.
  - specialize (IH Ha Hsa Hb Hsb). destruct (not_cold s); simpl; lia.
Qed.

Lemma pulse_keeps_others lic t1 t2 m kw (o : ResourceOrchestrator) n :
  can_access_feature lic "multi_lora" = true -> n <> m ->
  dict_get n (_model_slots (pulse lic t1 t2 m kw o))
  = dict_get n (_model_slots o).
Proof.
  intros Hf Hn. unfold pulse. rewrite release_lock_get.
  apply String.eqb_neq in Hn as Hn'. rewrite Hn'.
  apply request_model_keeps; auto.
Qed.

Lemma get_embedding_is_pulse key t t' (o : ResourceOrchestrator) :
  ContextEngine._get_embedding key t t' o
  = pulse (LicenseKey key) t t' ContextEngine.EMBEDDER false o.
Proof. reflexivity. Qed.

Lemma retrieve_shadow_nodes_is_pulse key t t' (o : ResourceOrchestrator) :
  ContextEngine.retrieve_shadow_nodes key t t' o
  = if negb (ContextEngine.check_pro_feature key "shadow_nodes") then o
    else pulse (LicenseKey key) t t' ContextEngine.EMBEDDER false o.
Proof. reflexivity. Qed.

Lemma generate_with_context_is_pulse key inc t3 t4 t5 t6
  (o : ResourceOrchestrator) :
  ContextEngine.generate_with_context key inc t3 t4 t5 t6 o
  = pulse (LicenseKey key) t5 t6 ContextEngine.LLM true
      (if inc then ContextEngine.retrieve_shadow_nodes key t3 t4 o else o).
Proof. reflexivity. Qed.

(** X24. Under a key that grants multi_lora nothing is evicted: from any
    state, after [_get_embedding] and [generate_with_context] the embedder
    is cooling and the language model warm, both resident, whether or not
    shadow nodes were asked for. *)
Theorem X24_paid_tier_keeps_both_models (key : string)
  (include_shadows : bool) (t1 t2 t3 t4 t5 t6 : Q)
  (o : ResourceOrchestrator) :
  can_access_feature (LicenseKey key) "multi_lora" = true ->
  let o1 := ContextEngine._get_embedding key t1 t2 o in
  let o2 :=
    ContextEngine.generate_with_context key include_shadows t3 t4 t5 t6 o1 in
  slot_state ContextEngine.EMBEDDER o2 = Some COOLING /\
  slot_state ContextEngine.LLM o2 = Some WARM /\
  2 <= current_models o2.
Proof.
  intros Hf. cbv zeta.
  assert (Hne : ContextEngine.EMBEDDER <> ContextEngine.LLM)
    by (unfold ContextEngine.EMBEDDER, ContextEngine.LLM; discriminate).
  rewrite generate_with_context_is_pulse, retrieve_shadow_nodes_is_pulse,
    get_embedding_is_pulse.
  destruct (pulse_slot (LicenseKey key) t1 t2 ContextEngine.EMBEDDER
              false o) as (s1 & Hg1 & Hs1 & _).
  revert Hg1.
  generalize (pulse (LicenseKey key) t1 t2 ContextEngine.EMBEDDER false o).
  intros o1 Hg1.
  assert (Hmid : exists om s,
             (if include_shadows
              then if negb (ContextEngine.check_pro_feature key
                              "shadow_nodes")
                   then o1
                   else pulse (LicenseKey key) t3 t4 ContextEngine.EMBEDDER
                          false o1
              else o1) = om /\
             dict_get ContextEngine.EMBEDDER (_model_slots om) = Some s /\
             state s = COOLING).
  { destruct include_shadows; [|eauto].
    destruct (negb (ContextEngine.check_pro_feature key "shadow_nodes"));
      [eauto|].
    destruct (pulse_slot (LicenseKey key) t3 t4 ContextEngine.EMBEDDER
                false o1) as (s' & Hg' & Hs' & _). eauto. }
  destruct Hmid as (om & s & -> & Hg & Hs).
  pose proof (pulse_keeps_others (LicenseKey key) t5 t6 ContextEngine.LLM
                true om ContextEngine.EMBEDDER Hf Hne) as He.
  destruct (pulse_slot (LicenseKey key) t5 t6 ContextEngine.LLM true om)
    as (sl & Hgl & Hsl & _).
  rewrite Hg in He. revert He Hgl.
  generalize (pulse (LicenseKey key) t5 t6 ContextEngine.LLM true om).
  intros o2 He Hgl.
  assert (H1 : state s <> COLD) by congruence.
  assert (H2 : state sl <> COLD) by congruence.
  split; [|split].
  - unfold slot_state. rewrite He. simpl. now rewrite Hs.
  - unfold slot_state. rewrite Hgl. simpl. now rewrite Hsl.
  - pose proof (two_resident_counted _ _ _ s sl Hne He H1 Hgl H2) as Hc.
    unfold current_models. lia.
Qed.

Lemma X24_witness :
  let o := __init__ architect in
  let o1 := ContextEngine._get_embedding "HRTH_ARCHITECT_TEST_01" 1 2 o in
  let o2 :=
    ContextEngine.generate_with_context "HRTH_ARCHITECT_TEST_01" true
      3 4 5 6 o1 in
  can_access_feature architect "multi_lora" = true /\
  slot_state ContextEngine.EMBEDDER o2 = Some COOLING /\
  slot_state ContextEngine.LLM o2 = Some WARM /\
  2 <= current_models o2.
Proof.
  intros o o1 o2. split; [reflexivity|].
  exact (X24_paid_tier_keeps_both_models "HRTH_ARCHITECT_TEST_01" true
           1 2 3 4 5 6 o eq_refl).
Defined.

End OrchestratorFacts.

(** ** What the orchestrator sends to the worker *)

Section TaskFacts.
Import Discipline.

Lemma generate_text_sends {R : Type} lic now prompt mode shadow (reply : R)
  (o : ResourceOrchestrator) :
  exists new,
    task_queue (snd (generate_text lic now prompt mode shadow reply o))
    = task_queue o ++ new /\
    Forall sent_by_orchestrator new.
Proof.
  assert (Hq : task_queue (_ensure_worker_alive o) = task_queue o).
  { unfold _ensure_worker_alive. now destruct (negb (worker_is_alive o)). }
  unfold generate_text.
  destruct (String.eqb_spec mode "screenplay") as [->|E1];
    [| destruct (String.eqb_spec mode "comic") as [->|E2];
       [destruct (negb (can_access_feature lic "comic_mode"))|] ]; simpl;
    rewrite ?Hq.
  2: exists []; rewrite app_nil_r; split; [reflexivity | constructor].
  all: eexists [_]; split; [reflexivity|]; constructor; [|constructor];
    right; do 4 eexists; split; [reflexivity|]; auto.
Qed.

Lemma exec_sends (c : Call) (o : ResourceOrchestrator) :
  exists new,
    task_queue (exec c o) = task_queue o ++ new /\
    Forall sent_by_orchestrator new.
Proof.
  destruct c; cbn [exec].
  - exists []. rewrite app_nil_r. split; [|constructor].
    apply request_model_frame.
  - exists []. rewrite app_nil_r. split; [|constructor].
    apply release_lock_frame.
  - exists []. rewrite app_nil_r. split; [reflexivity | constructor].
  - apply generate_text_sends.
  - unfold collapse_to_zero. destruct (worker_is_alive o); simpl.
    + exists [poison_pill]. split; [reflexivity|].
      constructor; [now left | constructor].
    + exists []. rewrite app_nil_r. split; [reflexivity | constructor].
  - exists []. rewrite app_nil_r. split; [|constructor].
    now destruct (worker o).
Qed.

Lemma reachable_sends (o : ResourceOrchestrator) :
  reachable o -> Forall sent_by_orchestrator (task_queue o).
Proof.
  induction 1 as [lic|c o _ IH].
  - unfold __init__, _update_limits.
    destruct (get_validator lic) as [key|];
      [destruct (LicenseValidator.is_pro key)|]; constructor.
  - destruct (exec_sends c o) as (new & -> & Hn).
    apply Forall_app. auto.
Qed.

(** X18. Whatever the callers asked for, the tasks on the task queue of a
    reachable orchestrator are poison pills and generate tasks that carry no
    retrieved context, no shadow-node text and no model path.  For such a
    task the prompt the worker builds is the system prompt of the mode, the
    user prompt and the response marker, whether or not the shadow flag is
    set; and the grammar the worker loads is the one its own table gives
    for the mode. *)
Theorem X18_tasks_carry_no_context (o : ResourceOrchestrator)
  (t : InferenceProcess.Task) :
  reachable o -> In t (task_queue o) ->
  t = poison_pill \/
  (InferenceProcess.type t = Some "generate"%string /\
   InferenceProcess.context t = None /\
   InferenceProcess.shadow_nodes t = None /\
   InferenceProcess.model_path t = None /\
   exists p md,
     InferenceProcess.prompt t = Some p /\
     InferenceProcess.mode t = Some md /\
     InferenceProcess._build_prompt p md (InferenceProcess.context t)
       (if InferenceProcess.use_shadow_nodes t
        then InferenceProcess.shadow_nodes t else None)
     = InferenceProcess._build_prompt p md None None /\
     forall (RT : InferenceProcess.Runtime) (w : InferenceProcess.Worker),
       InferenceProcess._get_grammar md (InferenceProcess.grammar_path t) w
       = InferenceProcess._get_grammar md None w).
Proof.
  intros Hr Hin. apply reachable_sends in Hr.
  pose proof (proj1 (Forall_forall _ _) Hr t Hin)
    as [->|(p & md & flag & g & -> & Hg)]; [now left|].
  right. simpl. repeat split.
  exists p, md. repeat split; [now destruct flag|].
  intros RT w. destruct Hg as [->| ->]; [reflexivity|].
  unfold InferenceProcess._get_grammar.
  destruct (dict_get md InferenceProcess.GRAMMAR_FILES) as [path|] eqn:E;
    [|reflexivity].
  cbn [InferenceProcess.truthy].
  destruct (String.eqb path "") eqn:Ep;
    cbn [InferenceProcess.truthy]; rewrite ?Ep; reflexivity.
Qed.

Lemma X18_witness :
  let o := exec_all
             [Generate architect 1 "INT. LAB" "screenplay" true;
              CollapseToZero true]
             (__init__ architect) in
  let t := {| InferenceProcess.type := Some "generate"%string;
              InferenceProcess.prompt := Some "INT. LAB"%string;
              InferenceProcess.prompts := None;
              InferenceProcess.mode := Some "screenplay"%string;
              InferenceProcess.max_tokens := None;
              InferenceProcess.temperature := None;
              InferenceProcess.grammar_path :=
                Some "./core/grammars/screenplay.gbnf"%string;
              InferenceProcess.model_path := None;
              InferenceProcess.context := None;
              InferenceProcess.shadow_nodes := None;
              InferenceProcess.use_shadow_nodes := true |} in
  (reachable o /\ In t (task_queue o)) /\
  forall (RT : InferenceProcess.Runtime) (w : InferenceProcess.Worker),
    InferenceProcess._get_grammar "screenplay" (InferenceProcess.grammar_path t) w
    = InferenceProcess._get_grammar "screenplay" None w.
Proof.
  intros o t.
  assert (Hr : reachable o)
    by (apply reachable_exec_all; apply reachable_init).
  assert (Hin : In t (task_queue o)) by (left; reflexivity).
  split; [split; assumption|].
  destruct (X18_tasks_carry_no_context o t Hr Hin)
    as [H|(_ & _ & _ & _ & p & md & _ & Hm & _ & H)]; [discriminate H|].
  injection Hm as <-. exact H.
Defined.

End TaskFacts.

(** ** The inference worker *)

Section WorkerLoop.
Import InferenceProcess.
Context {RT : Runtime}.

Lemma string_app_assoc (a b c : string) :
  ((a ++ b) ++ c = a ++ (b ++ c))%string.
Proof. induction a as [|ch a IH]; simpl; [reflexivity | now rewrite IH]. Qed.

Lemma load_model_raise (path : string) (w w1 : Worker) (e : string) :
  _load_model path w = (Raise e, w1) -> exists wd, w1 = set_world wd w.
Proof.
  unfold _load_model.
  destruct (is_none (_llm w)
            || negb (opt_string_eqb (_current_model w) (Some path)));
    [|discriminate].
  destruct (Llama _ _ _ _) as [[llm|e'] wd]; [discriminate|].
  intros [= _ <-]. now exists wd.
Qed.

Lemma generate_queue (task : Task) (w : Worker) :
  result_queue (snd (_generate task w)) = result_queue w.
Proof.
  pose proof (generate_cases task w) as H.
  destruct (_load_model _ w) as [[[]|e] w1] eqn:El.
  - destruct H as (r & wd & ->). apply load_model_ok in El as [_ Hq].
    exact Hq.
  - rewrite H. apply load_model_raise in El as [wd ->]. reflexivity.
Qed.

Lemma batch_loop_queue (task : Task) (ps : list string) :
  forall (i : nat) (acc : list BatchEntry) (w : Worker),
    result_queue (snd (batch_loop task i ps acc w)) = result_queue w.
Proof.
  induction ps as [|p ps IH]; intros i acc w; [reflexivity|].
  cbn [batch_loop]. unfold bind.
  pose proof (generate_queue (with_prompt task p) w) as Hq.
  destruct (_generate (with_prompt task p) w) as [[r|e] w1]; simpl in Hq.
  - now rewrite IH.
  - exact Hq.
Qed.

Lemma handle_batch_queue (task : Task) (w : Worker) :
  result_queue (snd (_handle_batch_generate task w)) = result_queue w.
Proof.
  unfold _handle_batch_generate, bind.
  pose proof (batch_loop_queue task (get_default (prompts task) []) 0 [] w)
    as Hq.
  destruct (batch_loop _ _ _ _ w) as [[r|e] w1]; exact Hq.
Qed.

(** One turn of the loop of [run] on a task: it breaks, or raises with the
    result queue as it was, or puts one result and goes on. *)
Lemma loop_step (task : Task) (w : Worker) :
  (forall rest, loop (Some task :: rest) w = (Ok PoisonPill, w)) \/
  (exists e w1,
     result_queue w1 = result_queue w /\
     forall rest, loop (Some task :: rest) w = (Raise e, w1)) \/
  (exists r w1,
     result_queue w1 = result_queue w ++ [r] /\
     forall rest, loop (Some task :: rest) w = loop rest w1).
Proof.
  cbn [loop]. cbv zeta.
  destruct (String.eqb (get_default (type task) "generate") "generate").
  { pose proof (generate_queue task w) as Hq. unfold bind.
    destruct (_generate task w) as [[r|e] w1]; simpl in Hq.
    - right; right. exists (Single r), (snd (put (Single r) w1)).
      split; [simpl; unfold list_append; now rewrite Hq | reflexivity].
    - right; left. exists e, w1. split; [exact Hq | reflexivity]. }
  destruct (String.eqb (get_default (type task) "generate") "batch_generate").
  { pose proof (handle_batch_queue task w) as Hq. unfold bind.
    destruct (_handle_batch_generate task w) as [[r|e] w1]; simpl in Hq.
    - right; right. exists r, (snd (put r w1)).
      split; [simpl; unfold list_append; now rewrite Hq | reflexivity].
    - right; left. exists e, w1. split; [exact Hq | reflexivity]. }
  destruct (String.eqb (get_default (type task) "generate") "reload_model").
  { unfold bind.
    destruct (_load_model (get_default (model_path task) DEFAULT_MODEL_PATH)
                (set_model None None w)) as [[[]|e] w1] eqn:El.
    - apply load_model_ok in El as [_ Hq]. right; right.
      eexists _, (snd (put _ w1)).
      split; [simpl; unfold list_append; now rewrite Hq | reflexivity].
    - apply load_model_raise in El as [wd ->]. right; left.
      eexists _, _. split; [|reflexivity]. reflexivity. }
  destruct (String.eqb (get_default (type task) "generate") "status").
  { right; right. eexists _, _. split; [|reflexivity]. reflexivity. }
  destruct (String.eqb (get_default (type task) "generate") "poison_pill").
  { left. reflexivity. }
  right; right. eexists _, _. split; [|reflexivity]. reflexivity.
Qed.

(** The loop on a queue in two parts: the second part is read only when the
    first was drained. *)
Lemma loop_app (q1 q2 : list (option Task)) :
  forall w,
    loop (q1 ++ q2) w
    = match loop q1 w with
      | (Ok AwaitingTask, w1) => loop q2 w1
      | r => r
      end.
Proof.
  induction q1 as [|[task|] q1 IH]; intros w.
  - reflexivity.
  - rewrite <- app_comm_cons.
    destruct (loop_step task w) as [H|[(e & w1 & _ & H)|(r & w1 & _ & H)]];
      rewrite !H; [reflexivity | reflexivity | apply IH].
  - apply IH.
Qed.

(** The results the loop puts, counted against the tasks on the queue. *)
Lemma loop_results (q : list (option Task)) :
  forall w,
    exists rs,
      result_queue (snd (loop q w)) = result_queue w ++ rs /\
      match fst (loop q w) with
      | Ok AwaitingTask =>
          List.length rs
          = List.length (filter (fun t => negb (is_none t)) q)
      | _ =>
          (List.length rs
           < List.length (filter (fun t => negb (is_none t)) q))%nat
      end.
Proof.
  induction q as [|[task|] q IH]; intros w.
  - exists []. rewrite app_nil_r. split; reflexivity.
  - cbn [filter is_none negb List.length].
    destruct (loop_step task w) as [H|[(e & w1 & Hq & H)|(r & w1 & Hq & H)]];
      rewrite !H.
    + exists []. rewrite app_nil_r. split; [reflexivity | simpl; lia].
    + exists []. rewrite app_nil_r. split; [exact Hq | simpl; lia].
    + destruct (IH w1) as (rs & Hrs & Hn). exists (r :: rs). split.
      * rewrite Hrs, Hq, <- app_assoc. reflexivity.
      * destruct (fst (loop q w1)) as [[]|]; simpl; lia.
  - apply IH.
Qed.

(** X25. The worker holds one model at a time and loads it lazily.  Once a
    load from [path] has returned, a second load from the same path changes
    nothing, and a generate task for that path returns with the same model
    in place.  A load from another path that returns has replaced the model;
    one that raises has left the loaded model and its path as they were. *)
Theorem X25_model_is_loaded_once (path : string) (w w1 : Worker) :
  _load_model path w = (Ok tt, w1) ->
  _load_model path w1 = (Ok tt, w1) /\
  (forall task,
     get_default (model_path task) DEFAULT_MODEL_PATH = path ->
     exists r w2,
       _generate task w1 = (Ok r, w2) /\
       _llm w2 = _llm w1 /\ _current_model w2 = Some path) /\
  (forall path' w2,
     _load_model path' w1 = (Ok tt, w2) ->
     _llm w2 <> None /\ _current_model w2 = Some path') /\
  (forall path' e w2,
     _load_model path' w1 = (Raise e, w2) ->
     path' <> path /\ _llm w2 = _llm w1 /\ _current_model w2 = Some path).
Proof.
  intros Hl. apply load_model_ok in Hl as [Hld _].
  pose proof (load_model_loaded path w1 Hld) as Hsame.
  split; [exact Hsame|]. split; [|split].
  - intros task Hp. pose proof (generate_cases task w1) as H.
    rewrite Hp, Hsame in H. destruct H as (r & wd & H).
    exists r, (set_world wd w1). split; [exact H|]. split; [reflexivity|].
    apply Hld.
  - intros path' w2 H. apply load_model_ok in H as [H _]. exact H.
  - intros path' e w2 H. split.
    + intros ->. rewrite Hsame in H. discriminate.
    + apply load_model_raise in H as [wd ->]. split; [reflexivity|].
      apply Hld.
Qed.

(** X26. [_get_grammar] never raises and leaves the model and the result
    queue alone.  It returns a grammar only for a file that exists: the
    path of the task when that is a non-empty string, else the file of the
    mode.  With neither, it returns no grammar and touches nothing. *)
Theorem X26_grammar_is_optional (md : string) (gp : option string)
  (w : Worker) :
  (exists g wd,
     _get_grammar md gp w = (Ok g, set_world wd w) /\
     (g <> None ->
      exists p,
        path_exists (world w) p = true /\
        p <> ""%string /\
        (truthy gp = Some p \/
         truthy gp = None /\ dict_get md GRAMMAR_FILES = Some p))) /\
  (truthy gp = None -> dict_get md GRAMMAR_FILES = None ->
   _get_grammar md gp w = (Ok None, w)).
Proof.
  split.
  - unfold _get_grammar.
    assert (Ht : forall x p, truthy x = Some p -> x = Some p /\ p <> ""%string).
    { intros [s|] p; simpl; [|discriminate].
      destruct (String.eqb_spec s ""); [discriminate|].
      intros [= <-]. auto. }
    destruct (truthy match truthy gp with
                     | Some p => Some p
                     | None => dict_get md GRAMMAR_FILES
                     end) as [p|] eqn:Ep.
    2: { exists None, (world w). rewrite set_world_same. split; congruence. }
    destruct (path_exists (world w) p) eqn:Ex.
    2: { exists None, (world w). rewrite set_world_same. split; congruence. }
    destruct (LlamaGrammar_from_file p (world w)) as [[g|e] wd].
    2: { exists None, wd. split; congruence. }
    exists (Some g), wd. split; [reflexivity|]. intros _. exists p.
    apply Ht in Ep as [Ep Hne]. split; [exact Ex|]. split; [exact Hne|].
    destruct (truthy gp) as [p'|]; [left | right; split]; congruence.
  - intros Hg Hd. unfold _get_grammar. rewrite Hg, Hd. reflexivity.
Qed.

(** X27. A poison pill ends the worker wherever it stands on the queue: the
    tasks behind it are never read, [run] has returned, the model is
    dropped, and the pill itself puts nothing on the result queue. *)
Theorem X27_poison_pill_cuts_the_queue (pill : Task)
  (q1 q2 : list (option Task)) (w : Worker) :
  type pill = Some "poison_pill"%string ->
  run (q1 ++ Some pill :: q2) w = run (q1 ++ [Some pill]) w /\
  fst (run (q1 ++ Some pill :: q2) w) = Terminated /\
  _llm (snd (run (q1 ++ Some pill :: q2) w)) = None /\
  (fst (run q1 w) = Running ->
   result_queue (snd (run (q1 ++ Some pill :: q2) w))
   = result_queue (snd (run q1 w))).
Proof.
  intros Hp.
  assert (Hpill : forall rest w0,
            loop (Some pill :: rest) w0 = (Ok PoisonPill, w0)).
  { intros rest w0. cbn [loop]. rewrite Hp. reflexivity. }
  unfold run. rewrite !loop_app.
  destruct (loop q1 w) as [[[]|e] w1]; rewrite ?Hpill; simpl;
    repeat split; congruence.
Qed.

(** X28. The worker only appends to the result queue, and never more than
    one result per task it was sent; as long as [run] has not returned,
    every task so far has got exactly one result. *)
Theorem X28_one_result_per_task (q : list (option Task)) (w : Worker) :
  exists rs,
    result_queue (snd (run q w)) = result_queue w ++ rs /\
    (List.length rs
     <= List.length (filter (fun t => negb (is_none t)) q))%nat /\
    (fst (run q w) = Running ->
     List.length rs = List.length (filter (fun t => negb (is_none t)) q)).
Proof.
  destruct (loop_results q w) as (rs & Hq & Hn). unfold run.
  destruct (loop q w) as [[[]|e] w1]; simpl in *.
  - exists rs. split; [exact Hq|]. split; [lia | auto].
  - exists rs. split; [exact Hq|]. split; [lia | discriminate].
  - exists (rs ++ [ErrorOnly e]). split; [|split; [|discriminate]].
    + unfold list_append. now rewrite Hq, app_assoc.
    + rewrite length_app. simpl. lia.
Qed.

(** X30. Once [run] has returned, by a poison pill or by an exception, the
    model is dropped and nothing that arrives later is processed; as long as
    it has not, the tasks that arrive are processed from the state it is
    in. *)
Theorem X30_run_ends_for_good (q1 q2 : list (option Task)) (w : Worker) :
  (fst (run q1 w) = Terminated ->
   run (q1 ++ q2) w = run q1 w /\ _llm (snd (run q1 w)) = None) /\
  (fst (run q1 w) = Running ->
   run (q1 ++ q2) w = run q2 (snd (run q1 w))).
Proof.
  unfold run. rewrite loop_app.
  destruct (loop q1 w) as [[[]|e] w1]; simpl; split;
    try discriminate; auto.
Qed.

End WorkerLoop.

Section WorkerLoopExamples.
Import InferenceProcess.

Lemma X25_witness :
  let w1 := @Build_Worker demo_runtime tt (Some DEFAULT_MODEL_PATH)
              (Some DEFAULT_MODEL_PATH) [] in
  _load_model DEFAULT_MODEL_PATH fresh_worker = (Ok tt, w1) /\
  _load_model DEFAULT_MODEL_PATH w1 = (Ok tt, w1).
Proof.
  intros w1.
  assert (H : _load_model DEFAULT_MODEL_PATH fresh_worker = (Ok tt, w1))
    by reflexivity.
  split; [exact H|].
  exact (proj1 (X25_model_is_loaded_once (RT := demo_runtime)
                  DEFAULT_MODEL_PATH fresh_worker w1 H)).
Defined.

Lemma X26_witness :
  (truthy None = None /\ dict_get "prose"%string GRAMMAR_FILES = None) /\
  _get_grammar "prose" None fresh_worker = (Ok None, fresh_worker).
Proof.
  split; [split; reflexivity|].
  apply (proj2 (X26_grammar_is_optional (RT := demo_runtime)
                  "prose" None fresh_worker)); reflexivity.
Defined.

Lemma X27_witness :
  let q1 := [Some (generate_task "a")] in
  let q2 := [Some (generate_task "b"); Some status_task] in
  type ResourceManager.poison_pill = Some "poison_pill"%string /\
  run (q1 ++ Some ResourceManager.poison_pill :: q2) fresh_worker
  = run (q1 ++ [Some ResourceManager.poison_pill]) fresh_worker.
Proof.
  intros q1 q2. split; [reflexivity|].
  apply (X27_poison_pill_cuts_the_queue (RT := demo_runtime)
           ResourceManager.poison_pill q1 q2 fresh_worker).
  reflexivity.
Defined.

Lemma X30_witness :
  let q1 := [Some (generate_task "a"); Some ResourceManager.poison_pill] in
  let q2 := [Some status_task] in
  fst (run q1 fresh_worker) = Terminated /\
  run (q1 ++ q2) fresh_worker = run q1 fresh_worker.
Proof.
  intros q1 q2.
  assert (H : fst (run q1 fresh_worker) = Terminated) by reflexivity.
  split; [exact H|].
  exact (proj1 (proj1 (X30_run_ends_for_good (RT := demo_runtime)
                         q1 q2 fresh_worker) H)).
Defined.

End WorkerLoopExamples.

(** *** The prompt *)

Section PromptFacts.
Import InferenceProcess.

(** X29. The prompt the worker builds opens with the system line and closes
    with the user block followed by the response marker, so the user's text
    is the last thing before the marker whatever context goes in between.  A
    mode without a system prompt of its own is treated as prose; a context
    or shadow-node text that is the empty string is left out like one that
    is absent; and with neither, the prompt is the system line, the user
    block and the marker. *)
Theorem X29_prompt_shape (p md : string) (c s : option string) :
  _build_prompt p md c s
  = _build_prompt p (if dict_mem md MODE_PROMPTS then md else "prose") c s /\
  _build_prompt p md (Some "") s = _build_prompt p md None s /\
  _build_prompt p md c (Some "") = _build_prompt p md c None /\
  (exists head,
     _build_prompt p md c s
     = "[SYSTEM]: " ++ head ++ nl ++ nl ++ "[USER]:" ++ nl ++ p
       ++ nl ++ nl ++ "[ASSISTANT]:")%string /\
  (_build_prompt p md None None
   = "[SYSTEM]: " ++ get_default (dict_get md MODE_PROMPTS) PROSE_PROMPT
     ++ nl ++ nl ++ "[USER]:" ++ nl ++ p ++ nl ++ nl ++ "[ASSISTANT]:")%string.
Proof.
  split; [|split; [|split; [|split]]].
  - destruct (dict_mem md MODE_PROMPTS) eqn:E; [reflexivity|].
    unfold _build_prompt.
    rewrite (proj1 (dict_mem_false_get _ _) E). reflexivity.
  - reflexivity.
  - unfold _build_prompt. reflexivity.
  - unfold _build_prompt.
    generalize (get_default (dict_get md MODE_PROMPTS) PROSE_PROMPT) as sys.
    intros sys.
    destruct (truthy c) as [c0|], (truthy s) as [s0|]; cbv zeta;
      unfold list_append; cbn [app String.concat].
    + exists (sys ++ nl ++ nl ++ "[CONTEXT]:" ++ nl ++ c0 ++ nl ++ nl
              ++ "[SHADOW NODES - OPEN LOOPS]:" ++ nl ++ s0)%string.
      rewrite !string_app_assoc. reflexivity.
    + exists (sys ++ nl ++ nl ++ "[CONTEXT]:" ++ nl ++ c0)%string.
      rewrite !string_app_assoc. reflexivity.
    + exists (sys ++ nl ++ nl
              ++ "[SHADOW NODES - OPEN LOOPS]:" ++ nl ++ s0)%string.
      rewrite !string_app_assoc. reflexivity.
    + exists sys. rewrite !string_app_assoc. reflexivity.
  - unfold _build_prompt. cbn [truthy]. cbv zeta. unfold list_append.
    cbn [app String.concat]. rewrite !string_app_assoc. reflexivity.
Qed.

End PromptFacts.
